(** * certinject: injection of certificates into the CryptoAPI registry store

    A shallow embedding of [cryptoapi_windows.go]: the table of physical
    stores, [injectCertCryptoAPI], [cleanCertsCryptoAPI] and
    [checkCertExpiredCryptoAPI], run against a model of the Windows
    registry, together with the library functions they call
    (crypto/sha1, encoding/hex, strings.ToUpper, fmt.Sprintf restricted to
    the verb %s, time.Since, Duration.Seconds and math.Abs on binary64). *)

From Stdlib Require Import ZArith List Ascii String Strings.Byte Lia Bool.
From Stdlib Require Import Floats.SpecFloat.
From stdpp Require Import gmap strings.

Local Open Scope string_scope.
Local Open Scope list_scope.
Local Open Scope Z_scope.
Import ListNotations.

(** ** Library functions: crypto/sha1 *)

Module sha1.

Definition w32 (x : Z) : Z := x mod 2 ^ 32.

Definition rotl (n x : Z) : Z :=
  w32 (Z.lor (Z.shiftl x n) (Z.shiftr x (32 - n))).

Definition add32 (x y : Z) : Z := w32 (x + y).

Definition not32 (x : Z) : Z := 2 ^ 32 - 1 - x.

(** Big-endian rendering of [x] on [n] bytes. *)
Fixpoint be_bytes (n : nat) (x : Z) : list Z :=
  match n with
  | O => []
  | S k => be_bytes k (Z.shiftr x 8) ++ [x mod 256]
  end.

(** Message padding: a 1 bit, zeros up to 56 mod 64, then the bit length
    on 64 bits. *)
Definition padding (len : Z) : list Z :=
  let zeros := (55 - len) mod 64 in
  0x80 :: repeat 0 (Z.to_nat zeros) ++ be_bytes 8 (w32 (8 * len / 2 ^ 32) * 2 ^ 32 + w32 (8 * len)).

Definition be_word (b0 b1 b2 b3 : Z) : Z :=
  Z.lor (Z.shiftl b0 24) (Z.lor (Z.shiftl b1 16) (Z.lor (Z.shiftl b2 8) b3)).

Fixpoint words (fuel : nat) (bs : list Z) : list Z :=
  match fuel, bs with
  | S k, b0 :: b1 :: b2 :: b3 :: tl => be_word b0 b1 b2 b3 :: words k tl
  | _, _ => []
  end.

Definition f (t : Z) (b c d : Z) : Z :=
  if t <? 20 then Z.lor (Z.land b c) (Z.land (not32 b) d)
  else if t <? 40 then Z.lxor b (Z.lxor c d)
  else if t <? 60 then Z.lor (Z.land b c) (Z.lor (Z.land b d) (Z.land c d))
  else Z.lxor b (Z.lxor c d).

Definition K (t : Z) : Z :=
  if t <? 20 then 0x5A827999
  else if t <? 40 then 0x6ED9EBA1
  else if t <? 60 then 0x8F1BBCDC
  else 0xCA62C1D6.

Record digest := Digest { h0 : Z; h1 : Z; h2 : Z; h3 : Z; h4 : Z }.

Definition init : digest :=
  Digest 0x67452301 0xEFCDAB89 0x98BADCFE 0x10325476 0xC3D2E1F0.

(** One of the 80 steps; [win] is the window w[t..t+15] of the message
    schedule. *)
Definition step (t : Z) (st : digest * list Z) : digest * list Z :=
  let '(Digest a b c d e, win) := st in
  let w := nth 0 win 0 in
  let nw := rotl 1 (Z.lxor (nth 13 win 0) (Z.lxor (nth 8 win 0) (Z.lxor (nth 2 win 0) w))) in
  let tmp := add32 (add32 (add32 (add32 (rotl 5 a) (f t b c d)) e) w) (K t) in
  (Digest tmp a (rotl 30 b) c d, tl win ++ [nw]).

Fixpoint rounds (n : nat) (t : Z) (st : digest * list Z) : digest * list Z :=
  match n with
  | O => st
  | S k => rounds k (t + 1) (step t st)
  end.

Definition block (h : digest) (ws : list Z) : digest :=
  let '(Digest a b c d e, _) := rounds 80 0 (h, ws) in
  Digest (add32 (h0 h) a) (add32 (h1 h) b) (add32 (h2 h) c)
         (add32 (h3 h) d) (add32 (h4 h) e).

Fixpoint blocks (fuel : nat) (h : digest) (ws : list Z) : digest :=
  match fuel with
  | O => h
  | S k =>
      match ws with
      | [] => h
      | _ => blocks k (block h (firstn 16 ws)) (skipn 16 ws)
      end
  end.

(** [sha1.Sum]: the 20-byte digest of the data. *)
Definition Sum (data : list byte) : list byte :=
  let bs := map (fun b => Z.of_N (Byte.to_N b)) data in
  let padded := bs ++ padding (Z.of_nat (length bs)) in
  let ws := words (length padded) padded in
  let h := blocks (length ws) init ws in
  map (fun z => match Byte.of_N (Z.to_N z) with Some b => b | None => x00 end)
      (be_bytes 4 (h0 h) ++ be_bytes 4 (h1 h) ++ be_bytes 4 (h2 h)
       ++ be_bytes 4 (h3 h) ++ be_bytes 4 (h4 h)).

End sha1.

(** ** Library functions: encoding/hex and strings *)

Module hex.

Definition hextable : string := "0123456789abcdef".

Definition digit (n : N) : ascii :=
  match String.get (N.to_nat n) hextable with
  | Some c => c
  | None => "0"%char
  end.

(** [hex.EncodeToString]: two lower-case digits per byte. *)
Fixpoint EncodeToString (src : list byte) : string :=
  match src with
  | [] => EmptyString
  | b :: tl =>
      let n := Byte.to_N b in
      String (digit (N.shiftr n 4)) (String (digit (N.land n 15)) (EncodeToString tl))
  end.

End hex.

Module strings.

Definition upper_ascii (c : ascii) : ascii :=
  let n := N_of_ascii c in
  if ((97 <=? n) && (n <=? 122))%N then ascii_of_N (n - 32) else c.

(** [strings.ToUpper] on ASCII input (the only input it receives here). *)
Fixpoint ToUpper (s : string) : string :=
  match s with
  | EmptyString => EmptyString
  | String c tl => String (upper_ascii c) (ToUpper tl)
  end.

End strings.

Definition bytes_of_string (s : string) : list byte := list_byte_of_string s.

#[global] Instance byte_eq_decision : EqDecision byte := Byte.byte_eq_dec.

(** ** Library functions: float64, time.Duration and math.Abs

    Go's float64 is IEEE 754 binary64; its operations are those of the
    [SpecFloat] specification at precision 53 and maximal exponent 1024,
    rounding to nearest, ties to even. *)

Module float64.

Definition prec : Z := 53.
Definition emax : Z := 1024.

Definition t := spec_float.

(** The conversion [float64(n)] of an integer. *)
Definition of_int (n : Z) : t := binary_normalize prec emax n 0 false.

Definition add (x y : t) : t := SFadd prec emax x y.
Definition div (x y : t) : t := SFdiv prec emax x y.

(** [x > y] *)
Definition gt (x y : t) : bool := SFltb y x.

End float64.

Module math.

Definition Abs (x : float64.t) : float64.t := SFabs x.

End math.

Module time.

(** A [Duration] is an int64 count of nanoseconds. *)
Definition Duration := Z.

Definition minDuration : Duration := - 2 ^ 63.
Definition maxDuration : Duration := 2 ^ 63 - 1.
Definition Second : Duration := 1000000000.

(** An instant, in nanoseconds since the epoch. *)
Definition Time := Z.

(** [t.Sub(u)]: the difference, saturated to the range of [Duration]. *)
Definition Sub (t u : Time) : Duration :=
  let d := t - u in
  if d <? minDuration then minDuration
  else if maxDuration <? d then maxDuration
  else d.

(** [time.Since(t)] is [time.Now().Sub(t)]; the clock reading is passed
    in. *)
Definition Since (now t : Time) : Duration := Sub now t.

(** [d.Seconds()]: integer division and remainder truncate towards zero. *)
Definition Seconds (d : Duration) : float64.t :=
  let sec := Z.quot d Second in
  let nsec := Z.rem d Second in
  float64.add (float64.of_int sec)
              (float64.div (float64.of_int nsec) (float64.of_int 1000000000)).

End time.

(** ** Errors, and results of fallible calls *)

(** Go's [error] values as they occur here. *)
Inductive error : Type :=
  | Errno (code : Z)                        (* syscall.Errno *)
  | ErrorString (msg : string)              (* errors.New, fmt.Errorf without verb *)
  | Errorf (format : string) (arg : error). (* fmt.Errorf(format, err) *)

Inductive result (A : Type) : Type :=
  | Ok (a : A)
  | Err (e : error).
Arguments Ok {A} a.
Arguments Err {A} e.

Module fmt.

Fixpoint extra (args : list string) : string :=
  match args with
  | [] => ""
  | [a] => "string=" ++ a
  | a :: tl => "string=" ++ a ++ ", " ++ extra tl
  end.

(** [fmt.Sprintf] for formats whose only verb is %s, with string
    operands: a verb without operand prints %!s(MISSING), operands left
    over are listed after %!(EXTRA. *)
Fixpoint Sprintf (format : string) (args : list string) : string :=
  match format with
  | EmptyString =>
      match args with
      | [] => ""
      | _ => "%!(EXTRA " ++ extra args ++ ")"
      end
  | String "%"%char (String "s"%char rest) =>
      match args with
      | a :: args' => a ++ Sprintf rest args'
      | [] => "%!s(MISSING)" ++ Sprintf rest []
      end
  | String c rest => String c (Sprintf rest args)
  end.

End fmt.

(** ** The certificate blob

    Package [certblob] is not among the sources at hand. *)

Module certblob.

(** Modelled from the spec: the type [Blob], a mapping from the tag of a
    record to its payload (section 3). *)
Abbreviation Blob := (gmap Z (list byte)).

(** Little-endian rendering of a uint32. *)
Definition le32 (x : Z) : list byte :=
  map (fun i => match Byte.of_N (Z.to_N (Z.shiftr x (8 * i) mod 256)) with
                | Some b => b
                | None => x00
                end) [0; 1; 2; 3].

(** Modelled from the spec: the encoded form of one record (sections 3
    and 4.1). *)
Definition record (tag : Z) (payload : list byte) : list byte :=
  le32 tag ++ le32 1 ++ le32 (Z.of_nat (length payload)) ++ payload.

(** Modelled from the spec: [Blob.Marshal], the encoder of section 4.1.
    For each (tag, payload) pair a 12-byte header (tag, reserved = 1,
    length of the payload, each an unsigned 32-bit little-endian
    integer) followed by the payload, the records concatenated; a
    payload longer than the unsigned 32-bit range fails with
    EncodingOverflow. *)
Definition Marshal (b : Blob) : result (list byte) :=
  let recs := map_to_list b in
  if forallb (fun '(_, payload) => Z.of_nat (length payload) <? 2 ^ 32) recs
  then Ok (concat (map (fun '(tag, payload) => record tag payload) recs))
  else Err (ErrorString "EncodingOverflow").

End certblob.

(** ** The registry

    The part of the Windows registry the program touches: certificate
    stores, addressed from a root hive by a path, and below each store its
    sub-keys in the order in which the store enumerates them.  A sub-key
    holds named values and the time of its last modification. *)

Module winreg.

(** A key handle: a predefined root key, or a key opened below one. *)
Inductive Key : Type :=
  | CURRENT_USER
  | LOCAL_MACHINE
  | Handle (parent : Key) (path : string).

Inductive Value : Type :=
  | DWORD (v : Z)
  | QWORD (v : Z)
  | BINARY (data : list byte)
  | SZ (s : string).

Record KeyData : Type := mkKeyData {
  values : gmap string Value;
  modTime : time.Time
}.

Record KeyInfo : Type := mkKeyInfo { ModTime : time.Time }.

Definition SubKeys := list (string * KeyData).

Record Registry : Type := mkRegistry {
  current_user : gmap string SubKeys;
  local_machine : gmap string SubKeys
}.

(** The calls the program makes on the registry. *)
Inductive Op : Type :=
  | OpOpenKey (k : Key) (path : string)
  | OpCreateKey (k : Key) (path : string)
  | OpDeleteKey (k : Key) (path : string)
  | OpReadSubKeyNames (k : Key)
  | OpGetIntegerValue (k : Key) (name : string)
  | OpSetDWordValue (k : Key) (name : string) (v : Z)
  | OpSetBinaryValue (k : Key) (name : string) (data : list byte)
  | OpDeleteValue (k : Key) (name : string)
  | OpStat (k : Key).

(** *** Pure access to the tree *)

Fixpoint assoc {A} (name : string) (l : list (string * A)) : option A :=
  match l with
  | [] => None
  | (n, a) :: tl => if String.eqb n name then Some a else assoc name tl
  end.

Fixpoint remove {A} (name : string) (l : list (string * A)) : list (string * A) :=
  match l with
  | [] => []
  | (n, a) :: tl => if String.eqb n name then remove name tl else (n, a) :: remove name tl
  end.

Fixpoint replace {A} (name : string) (a : A) (l : list (string * A)) : list (string * A) :=
  match l with
  | [] => []
  | (n, b) :: tl => if String.eqb n name then (n, a) :: tl else (n, b) :: replace name a tl
  end.

Definition get_store (r : Registry) (k : Key) : option SubKeys :=
  match k with
  | Handle CURRENT_USER p => current_user r !! p
  | Handle LOCAL_MACHINE p => local_machine r !! p
  | _ => None
  end.

Definition set_store (r : Registry) (k : Key) (s : SubKeys) : Registry :=
  match k with
  | Handle CURRENT_USER p => mkRegistry (<[p := s]> (current_user r)) (local_machine r)
  | Handle LOCAL_MACHINE p => mkRegistry (current_user r) (<[p := s]> (local_machine r))
  | _ => r
  end.

Definition get_key (r : Registry) (k : Key) : option KeyData :=
  match k with
  | Handle s name =>
      match get_store r s with
      | Some sub => assoc name sub
      | None => None
      end
  | _ => None
  end.

Definition set_key (r : Registry) (k : Key) (d : KeyData) : Registry :=
  match k with
  | Handle s name =>
      match get_store r s with
      | Some sub => set_store r s (replace name d sub)
      | None => r
      end
  | _ => r
  end.

Definition key_exists (r : Registry) (k : Key) : bool :=
  match get_store r k, get_key r k with
  | None, None => false
  | _, _ => true
  end.

End winreg.

#[global] Instance Key_eq_decision : EqDecision winreg.Key.
Proof. solve_decision. Defined.

(** ** The environment and the state of a run *)

(** The command-line flags.  [certExpirePeriod] is declared in a file of
    the package that is not among the sources at hand; its value is an
    [int], a number of seconds. *)
Record Flags : Type := mkFlags {
  cryptoAPIFlagLogicalStoreName : string;
  cryptoAPIFlagPhysicalStoreName : string;
  certExpirePeriod : Z
}.

(** What a run reads and cannot change: the flags, the clock and the
    calls the system refuses (with the error it answers). *)
Record Env : Type := mkEnv {
  flags : Flags;
  now : time.Time;
  fault : winreg.Op -> option error
}.

(** What a run changes: the registry, the error log, and the sequence of
    registry calls made so far. *)
Record World : Type := mkWorld {
  reg : winreg.Registry;
  logged : list (string * error);
  calls : list winreg.Op
}.

Definition M (A : Type) : Type := Env -> World -> A * World.

Definition ret {A} (a : A) : M A := fun _ w => (a, w).

Definition bind {A B} (m : M A) (k : A -> M B) : M B :=
  fun env w => let r := m env w in k (fst r) env (snd r).

Notation "x <- m ;; k" := (bind m (fun x => k))
  (at level 100, m at next level, right associativity).
Notation "m ;;; k" := (bind m (fun _ => k))
  (at level 100, right associativity).

Definition ask {A} (f : Env -> A) : M A := fun env w => (f env, w).

Definition get_reg : M winreg.Registry := fun _ w => (reg w, w).

Definition put_reg (r : winreg.Registry) : M unit :=
  fun _ w => (tt, mkWorld r (logged w) (calls w)).

(** The state once a registry call is recorded. *)
Definition called (op : winreg.Op) (w : World) : World :=
  mkWorld (reg w) (logged w) (calls w ++ [op]).

(** A registry call is recorded, and is refused when the environment says
    so. *)
Definition call (op : winreg.Op) : M (option error) :=
  fun env w => (fault env op, called op w).

Module log.

(** The state once an error is logged. *)
Definition record (format : string) (err : error) (w : World) : World :=
  mkWorld (reg w) (logged w ++ [(format, err)]) (calls w).

(** [log.Errorf(format, err)] *)
Definition Errorf (format : string) (err : error) : M unit :=
  fun _ w => (tt, record format err w).

End log.

(** ** Package golang.org/x/sys/windows/registry *)

Module registry.

Import winreg.

Abbreviation Key := winreg.Key.
Abbreviation CURRENT_USER := winreg.CURRENT_USER.
Abbreviation LOCAL_MACHINE := winreg.LOCAL_MACHINE.
Abbreviation KeyInfo := winreg.KeyInfo.
Abbreviation ModTime := winreg.ModTime.

Definition ALL_ACCESS : Z := 0xf003f.

Definition ErrNotExist : error := Errno 2.
Definition ErrUnexpectedType : error := ErrorString "unexpected key value type".
Definition ERROR_INVALID_HANDLE : error := Errno 6.

Definition OpenKey (k : Key) (path : string) (access : Z) : M (result Key) :=
  e <- call (OpOpenKey k path) ;;
  match e with
  | Some err => ret (Err err)
  | None =>
      r <- get_reg ;;
      if key_exists r (Handle k path) then ret (Ok (Handle k path))
      else ret (Err ErrNotExist)
  end.

(** The second component tells whether the key existed already.  A new
    key is empty and enumerated last. *)
Definition CreateKey (k : Key) (path : string) (access : Z) : M (result (Key * bool)) :=
  e <- call (OpCreateKey k path) ;;
  match e with
  | Some err => ret (Err err)
  | None =>
      r <- get_reg ;;
      match get_store r k with
      | None => ret (Err ERROR_INVALID_HANDLE)
      | Some sub =>
          match assoc path sub with
          | Some _ => ret (Ok (Handle k path, true))
          | None =>
              t <- ask now ;;
              put_reg (set_store r k (sub ++ [(path, mkKeyData ∅ t)])) ;;;
              ret (Ok (Handle k path, false))
          end
      end
  end.

Definition DeleteKey (k : Key) (path : string) : M (option error) :=
  e <- call (OpDeleteKey k path) ;;
  match e with
  | Some err => ret (Some err)
  | None =>
      r <- get_reg ;;
      match get_store r k with
      | None => ret (Some ERROR_INVALID_HANDLE)
      | Some sub =>
          match assoc path sub with
          | None => ret (Some ErrNotExist)
          | Some _ => put_reg (set_store r k (remove path sub)) ;;; ret None
          end
      end
  end.

(** [k.ReadSubKeyNames(n)] with [n <= 0]: all the names. *)
Definition ReadSubKeyNames (k : Key) (n : Z) : M (result (list string)) :=
  e <- call (OpReadSubKeyNames k) ;;
  match e with
  | Some err => ret (Err err)
  | None =>
      r <- get_reg ;;
      match get_store r k with
      | None => ret (Err ERROR_INVALID_HANDLE)
      | Some sub => ret (Ok (map fst sub))
      end
  end.

(** [k.GetIntegerValue(name)]: the value of a DWORD or QWORD as a
    uint64. *)
Definition GetIntegerValue (k : Key) (name : string) : M (result Z) :=
  e <- call (OpGetIntegerValue k name) ;;
  match e with
  | Some err => ret (Err err)
  | None =>
      r <- get_reg ;;
      match get_key r k with
      | None => ret (Err ERROR_INVALID_HANDLE)
      | Some d =>
          match values d !! name with
          | None => ret (Err ErrNotExist)
          | Some (DWORD v) => ret (Ok v)
          | Some (QWORD v) => ret (Ok v)
          | Some _ => ret (Err ErrUnexpectedType)
          end
      end
  end.

Definition value_eqb (a b : Value) : bool :=
  match a, b with
  | DWORD x, DWORD y => Z.eqb x y
  | QWORD x, QWORD y => Z.eqb x y
  | BINARY x, BINARY y => bool_decide (x = y)
  | SZ x, SZ y => String.eqb x y
  | _, _ => false
  end.

(** Writing a value; the time of last modification of the key moves when
    the write changes what the key holds. *)
Definition setValue (op : Op) (k : Key) (name : string) (v : Value) : M (option error) :=
  e <- call op ;;
  match e with
  | Some err => ret (Some err)
  | None =>
      r <- get_reg ;;
      match get_key r k with
      | None => ret (Some ERROR_INVALID_HANDLE)
      | Some d =>
          t <- ask now ;;
          let unchanged :=
            match values d !! name with
            | Some old => value_eqb old v
            | None => false
            end in
          put_reg (set_key r k (mkKeyData (<[name := v]> (values d))
                                          (if unchanged then modTime d else t))) ;;;
          ret None
      end
  end.

Definition SetDWordValue (k : Key) (name : string) (v : Z) : M (option error) :=
  setValue (OpSetDWordValue k name v) k name (DWORD v).

Definition SetBinaryValue (k : Key) (name : string) (data : list byte) : M (option error) :=
  setValue (OpSetBinaryValue k name data) k name (BINARY data).

Definition DeleteValue (k : Key) (name : string) : M (option error) :=
  e <- call (OpDeleteValue k name) ;;
  match e with
  | Some err => ret (Some err)
  | None =>
      r <- get_reg ;;
      match get_key r k with
      | None => ret (Some ERROR_INVALID_HANDLE)
      | Some d =>
          match values d !! name with
          | None => ret (Some ErrNotExist)
          | Some _ =>
              t <- ask now ;;
              put_reg (set_key r k (mkKeyData (delete name (values d)) t)) ;;;
              ret None
          end
      end
  end.

Definition Stat (k : Key) : M (result KeyInfo) :=
  e <- call (OpStat k) ;;
  match e with
  | Some err => ret (Err err)
  | None =>
      r <- get_reg ;;
      match get_key r k with
      | None => ret (Err ERROR_INVALID_HANDLE)
      | Some d => ret (Ok (mkKeyInfo (modTime d)))
      end
  end.

End registry.

(** ** cryptoapi_windows.go *)

Definition cryptoAPIMagicName : string := "Namecoin".
Definition cryptoAPIMagicValue : Z := 1.

(** [Store] is used to generate a registry key to open a certificate store
    in the Windows registry. *)
Record Store : Type := mkStore {
  Base : registry.Key;
  Physical : string;
  Logical : string
}.

Definition cryptoAPIStores : gmap string Store :=
  list_to_map
    [ ("current-user",
        mkStore registry.CURRENT_USER "SOFTWARE\Microsoft\SystemCertificates" "%s\Certificates");
      ("system",
        mkStore registry.LOCAL_MACHINE "SOFTWARE\Microsoft\SystemCertificates" "%s\Certificates");
      ("enterprise",
        mkStore registry.LOCAL_MACHINE "SOFTWARE\Microsoft\EnterpriseCertificates" "%s\Certificates");
      ("group-policy",
        mkStore registry.LOCAL_MACHINE "SOFTWARE\Policies\Microsoft\SystemCertificates" "%s\Certificates") ].

(** [Store.Key] generates the registry key for use in opening the store. *)
Definition Store_Key (s : Store) : M string :=
  logical <- ask (fun env => cryptoAPIFlagLogicalStoreName (flags env)) ;;
  ret (fmt.Sprintf ("%s\" ++ Logical s) [Physical s; logical]).

Definition cryptoAPINameToStore (name : string) : result Store :=
  match cryptoAPIStores !! name with
  | None =>
      Err (ErrorString
             "invalid choice for physical store, consider: current-user, system, enterprise, group-policy")
  | Some store => Ok store
  end.

Definition injectCertCryptoAPI (derBytes : list byte) : M unit :=
  physical <- ask (fun env => cryptoAPIFlagPhysicalStoreName (flags env)) ;;
  match cryptoAPINameToStore physical with
  | Err err => log.Errorf "error: %s" err
  | Ok store =>
      let registryBase := Base store in
      storeKey <- Store_Key store ;;
      (* Construct the Blob *)
      let blob : certblob.Blob := {[ 0x20 := derBytes ]} in
      (* Marshal the Blob *)
      match certblob.Marshal blob with
      | Err err => log.Errorf "Couldn't marshal cert blob: %s" err
      | Ok blobBytes =>
          (* Open up the cert store. *)
          opened <- registry.OpenKey registryBase storeKey registry.ALL_ACCESS ;;
          match opened with
          | Err err => log.Errorf "Couldn't open cert store: %s" err
          | Ok certStoreKey =>
              let fingerprint := sha1.Sum derBytes in
              let fingerprintHex := hex.EncodeToString fingerprint in
              let fingerprintHexUpper := strings.ToUpper fingerprintHex in
              (* Create the registry key in which we will store the cert. *)
              created <- registry.CreateKey certStoreKey fingerprintHexUpper registry.ALL_ACCESS ;;
              match created with
              | Err err => log.Errorf "Couldn't create registry key for certificate: %s" err
              | Ok (certKey, _) =>
                  (* The magic value is deleted before it is created; an
                     error of the deletion is ignored. *)
                  _ <- registry.DeleteValue certKey cryptoAPIMagicName ;;
                  err <- registry.SetDWordValue certKey cryptoAPIMagicName cryptoAPIMagicValue ;;
                  match err with
                  | Some err =>
                      log.Errorf "Couldn't set magic registry value for certificate: %s" err
                  | None =>
                      (* Create the registry value which holds the certificate. *)
                      err <- registry.SetBinaryValue certKey "Blob" blobBytes ;;
                      match err with
                      | Some err =>
                          log.Errorf "Couldn't set blob registry value for certificate: %s" err
                      | None => ret tt
                      end
                  end
              end
          end
      end
  end.

Definition checkCertExpiredCryptoAPI (certStoreKey : registry.Key) (subKeyName : string)
  : M (bool * option error) :=
  (* Open the cert *)
  opened <- registry.OpenKey certStoreKey subKeyName registry.ALL_ACCESS ;;
  match opened with
  | Err err => ret (false, Some (Errorf "Couldn't open cert registry key: %s" err))
  | Ok certKey =>
      (* Check for magic value *)
      isNamecoin <- registry.GetIntegerValue certKey cryptoAPIMagicName ;;
      match isNamecoin with
      | Err _ =>
          (* Magic value wasn't found.  Therefore don't consider it expired. *)
          ret (false, None)
      | Ok isNamecoin =>
          if negb (isNamecoin =? cryptoAPIMagicValue) then
            (* Magic value was found but it wasn't the one we recognize. *)
            ret (false, None)
          else
            (* Get metadata about the cert key *)
            info <- registry.Stat certKey ;;
            match info with
            | Err err =>
                ret (false, Some (Errorf "Couldn't read metadata for cert registry key: %s" err))
            | Ok certKeyInfo =>
                (* Get the last modified time *)
                let certKeyModTime := registry.ModTime certKeyInfo in
                t <- ask now ;;
                period <- ask (fun env => certExpirePeriod (flags env)) ;;
                (* If the cert's last modified timestamp differs too much from
                   the current time in either direction, consider it expired *)
                let expired :=
                  float64.gt (math.Abs (time.Seconds (time.Since t certKeyModTime)))
                             (float64.of_int period) in
                ret (expired, None)
            end
      end
  end.

(** The loop of [cleanCertsCryptoAPI] over the names of the sub-keys. *)
Fixpoint cleanCertsLoop (certStoreKey : registry.Key) (subKeys : list string) : M unit :=
  match subKeys with
  | [] => ret tt
  | subKeyName :: rest =>
      (* Check if the cert is expired *)
      checked <- checkCertExpiredCryptoAPI certStoreKey subKeyName ;;
      match checked with
      | (_, Some err) => log.Errorf "Couldn't check if cert is expired: %s" err
      | (expired, None) =>
          (* delete the cert if it's expired *)
          (if expired then
             err <- registry.DeleteKey certStoreKey subKeyName ;;
             match err with
             | Some err => log.Errorf "Coudn't delete expired cert: %s" err
             | None => ret tt
             end
           else ret tt) ;;;
          cleanCertsLoop certStoreKey rest
      end
  end.

Definition cleanCertsCryptoAPI : M unit :=
  physical <- ask (fun env => cryptoAPIFlagPhysicalStoreName (flags env)) ;;
  match cryptoAPINameToStore physical with
  | Err err => log.Errorf "error: %s" err
  | Ok store =>
      let registryBase := Base store in
      storeKey <- Store_Key store ;;
      (* Open up the cert store. *)
      opened <- registry.OpenKey registryBase storeKey registry.ALL_ACCESS ;;
      match opened with
      | Err err => log.Errorf "Couldn't open cert store: %s" err
      | Ok certStoreKey =>
          (* get all subkey names in the cert store *)
          listed <- registry.ReadSubKeyNames certStoreKey 0 ;;
          match listed with
          | Err err => log.Errorf "Couldn't list certs in cert store: %s" err
          | Ok subKeys => cleanCertsLoop certStoreKey subKeys
          end
      end
  end.

(** ** Notions used in the statements *)

(** The state in which a run ends, and the value it returns. *)
Definition exec {A} (m : M A) (env : Env) (w : World) : World := snd (m env w).
Definition value {A} (m : M A) (env : Env) (w : World) : A := fst (m env w).

(** The sub-key [name] of the store [store], if it is there. *)
Definition entry (w : World) (store : registry.Key) (name : string) : option winreg.KeyData :=
  winreg.get_key (reg w) (winreg.Handle store name).

(** The key carries the marker: an integer value named Namecoin that
    equals 1. *)
Definition marked (d : winreg.KeyData) : bool :=
  match winreg.values d !! cryptoAPIMagicName with
  | Some (winreg.DWORD v) => v =? cryptoAPIMagicValue
  | Some (winreg.QWORD v) => v =? cryptoAPIMagicValue
  | _ => false
  end.

(** No registry call is refused. *)
Definition healthy (env : Env) : Prop := forall op, fault env op = None.

(** The verdict of the comparison on a duration [d] (nanoseconds) and a
    period [p] (seconds). *)
Definition too_old (d : time.Duration) (p : Z) : bool :=
  float64.gt (math.Abs (time.Seconds d)) (float64.of_int p).

(** The verdict of the check on a key that can be read. *)
Definition verdict (env : Env) (d : winreg.KeyData) : bool :=
  marked d && too_old (time.Since (now env) (winreg.modTime d)) (certExpirePeriod (flags env)).

(** The name under which a certificate is filed. *)
Definition fingerprintName (derBytes : list byte) : string :=
  strings.ToUpper (hex.EncodeToString (sha1.Sum derBytes)).

(** An upper-case hexadecimal digit. *)
Definition is_upper_hex (c : ascii) : bool :=
  existsb (Ascii.eqb c) (list_ascii_of_string "0123456789ABCDEF").

(** A float at least the normal number with mantissa [m1] and exponent
    [e1], both of sign [sx]. *)
Definition at_least (f : spec_float) (sx : bool) (m1 : positive) (e1 : Z) : Prop :=
  f = S754_infinity sx \/
  exists m e, f = S754_finite sx m e /\ Zpos (digits2_pos m) = 53 /\
              (e1 < e \/ (e1 = e /\ Zpos m1 <= Zpos m)).

(** A zero, a finite number or an infinity of sign [sx]. *)
Definition of_sign (f : spec_float) (sx : bool) : Prop :=
  f = S754_zero sx \/ f = S754_infinity sx \/ exists m e, f = S754_finite sx m e.

(** The registry after [DeleteKey k p]. *)
Definition deleted (env : Env) (w : World) (k : registry.Key) (p : string) : winreg.Registry :=
  match fault env (winreg.OpDeleteKey k p), winreg.get_store (reg w) k with
  | None, Some sub =>
      match winreg.assoc p sub with
      | Some _ => winreg.set_store (reg w) k (winreg.remove p sub)
      | None => reg w
      end
  | _, _ => reg w
  end.

(** The state after the deletion of an expired key, an error of the
    deletion being logged. *)
Definition after_delete (store : registry.Key) (x : string) (env : Env) (w : World) : World :=
  let r := registry.DeleteKey store x env w in
  match fst r with
  | Some err => log.record "Coudn't delete expired cert: %s" err (snd r)
  | None => snd r
  end.

(** Membership in a list of names. *)
Definition member (n : string) (names : list string) : bool := existsb (String.eqb n) names.

(** The path of the store, and the handle under which it is opened. *)
Definition storePath (env : Env) (store : Store) : string :=
  fmt.Sprintf ("%s\" ++ Logical store) [Physical store; cryptoAPIFlagLogicalStoreName (flags env)].

Definition certStore (env : Env) (store : Store) : registry.Key :=
  winreg.Handle (Base store) (storePath env store).

(** The handle of the key of a certificate. *)
Definition certKeyOf (env : Env) (store : Store) (derBytes : list byte) : registry.Key :=
  winreg.Handle (certStore env store) (fingerprintName derBytes).

(** The calls of an injection that meets no refusal. *)
Definition inject_calls (env : Env) (store : Store) (derBytes blobBytes : list byte)
  : list winreg.Op :=
  [ winreg.OpOpenKey (Base store) (storePath env store);
    winreg.OpCreateKey (certStore env store) (fingerprintName derBytes);
    winreg.OpDeleteValue (certKeyOf env store derBytes) cryptoAPIMagicName;
    winreg.OpSetDWordValue (certKeyOf env store derBytes) cryptoAPIMagicName cryptoAPIMagicValue;
    winreg.OpSetBinaryValue (certKeyOf env store derBytes) "Blob" blobBytes ].

(** A float at most the normal number with mantissa [m1] and exponent
    [e1]: a zero, or a normal number of sign [sx] that is not above it. *)
Definition at_most (f : spec_float) (sx : bool) (m1 : positive) (e1 : Z) : Prop :=
  (exists s0, f = S754_zero s0) \/
  exists m e, f = S754_finite sx m e /\ Zpos (digits2_pos m) = 53 /\
              (e < e1 \/ (e = e1 /\ Zpos m <= Zpos m1)).

(** The names that the flag of the physical store may take. *)
Definition physicalStoreNames : list string :=
  ["current-user"; "system"; "enterprise"; "group-policy"].

(** The string holds no % sign. *)
Definition no_verb (s : string) : bool :=
  forallb (fun c => negb (Ascii.eqb c "%")) (list_ascii_of_string s).

(** The key [(k, p)] apart, the keys of [w'] are those of [w]; the key
    [(k, p)], if it differs, is there in [w']. *)
Definition only_key (k : registry.Key) (p : string) (w w' : World) : Prop :=
  forall k' n', entry w' k' n' = entry w k' n' \/
                (k' = k /\ n' = p /\ entry w' k' n' <> None).

(** The stores of [w] are stores of [w'], and a store whose names are
    distinct in [w] has distinct names in [w']. *)
Definition stores_kept (w w' : World) : Prop :=
  forall k sub, winreg.get_store (reg w) k = Some sub ->
    exists sub', winreg.get_store (reg w') k = Some sub' /\
                 (NoDup (map fst sub) -> NoDup (map fst sub')).

(** ** Sample data *)

Module sample.
Import winreg.

Definition path : string := "SOFTWARE\Microsoft\SystemCertificates\Root\Certificates".

Definition system : Store :=
  mkStore LOCAL_MACHINE "SOFTWARE\Microsoft\SystemCertificates" "%s\Certificates".

Definition store : Key := Handle LOCAL_MACHINE path.

(** A key with the given marker, if any, last modified at [t]. *)
Definition key (marker : option Value) (t : time.Time) : KeyData :=
  mkKeyData (match marker with
             | Some v => {[ cryptoAPIMagicName := v ]}
             | None => ∅
             end) t.

(** A world whose only store is the Root store of the machine. *)
Definition world (sub : SubKeys) : World :=
  mkWorld (mkRegistry ∅ {[ path := sub ]}) [] [].

Definition quiet : Op -> option error := fun _ => None.

(** The environment of a run at instant [t], with the default stores and
    the given period. *)
Definition env (period : Z) (t : time.Time) (refusals : Op -> option error) : Env :=
  mkEnv (mkFlags "Root" "system" period) t refusals.

Definition second : Z := 1000000000.

(** Opening the key BB is refused. *)
Definition refuse_BB (op : Op) : option error :=
  match op with
  | OpOpenKey _ p => if String.eqb p "BB" then Some (Errno 5) else None
  | _ => None
  end.

(** Three marked keys, all of them older than an hour at instant 10000 s. *)
Definition three : SubKeys :=
  [ ("AA", key (Some (DWORD 1)) 0); ("BB", key (Some (DWORD 1)) 0);
    ("CC", key (Some (DWORD 1)) 0) ].

(** Every read of an integer value is refused with "access denied". *)
Definition refuse_marker (op : Op) : option error :=
  match op with
  | OpGetIntegerValue _ _ => Some (Errno 5)
  | _ => None
  end.

(** Keys without marker, with the marker 2 and with a marker that is a
    string, next to a marked one, all of them last modified at instant 0. *)
Definition mixed : SubKeys :=
  [ ("AA", key None 0); ("BB", key (Some (DWORD 2)) 0);
    ("CC", key (Some (SZ "1")) 0); ("DD", key (Some (DWORD 1)) 0) ].

(** One marked key, last modified at instant 0. *)
Definition single : SubKeys := [ ("AA", key (Some (DWORD 1)) 0) ].

(** One marked key, last modified at instant 100 s. *)
Definition ahead_of_time : SubKeys := [ ("AA", key (Some (DWORD 1)) (100 * second)) ].


(** The flag of the physical store names no store of the table. *)
Definition misconfigured : Env :=
  mkEnv (mkFlags "Root" "registry" 3600) 0 quiet.

(** The store cannot be opened, or its names cannot be listed. *)
Definition refuse_store (op : Op) : option error :=
  match op with
  | OpOpenKey LOCAL_MACHINE _ => Some (Errno 5)
  | _ => None
  end.

Definition refuse_listing (op : Op) : option error :=
  match op with
  | OpReadSubKeyNames _ => Some (Errno 5)
  | _ => None
  end.
End sample.

(** * Properties *)

(** ** SHA-1 on the test vectors of the standard *)

Example sha1_empty :
  strings.ToUpper (hex.EncodeToString (sha1.Sum [])) = "DA39A3EE5E6B4B0D3255BFEF95601890AFD80709".
Proof. vm_compute. reflexivity. Qed.

Example sha1_abc :
  hex.EncodeToString (sha1.Sum (bytes_of_string "abc")) = "a9993e364706816aba3e25717850c26c9cd0d89d".
Proof. vm_compute. reflexivity. Qed.

Example sha1_two_blocks :
  hex.EncodeToString
    (sha1.Sum (bytes_of_string "abcdbcdecdefdefgefghfghighijhijkijkljklmklmnlmnomnopnopq"))
  = "84983e441c3bd26ebaae4aa1f95129e5e54670f1".
Proof. vm_compute. reflexivity. Qed.

(** ** The name of a key *)

Section Fingerprint.

Lemma be_bytes_length (n : nat) (x : Z) : length (sha1.be_bytes n x) = n.
Proof.
  revert x. induction n as [| n IH]; intros x; cbn [sha1.be_bytes]; [reflexivity |].
  rewrite length_app, IH. cbn [length]. lia.
Qed.

Lemma Sum_length (data : list byte) : length (sha1.Sum data) = 20%nat.
Proof.
  unfold sha1.Sum. cbv zeta. rewrite length_map, !length_app, !be_bytes_length. reflexivity.
Qed.

Lemma EncodeToString_length (src : list byte) :
  String.length (hex.EncodeToString src) = (2 * length src)%nat.
Proof.
  induction src as [| b tl IH]; cbn [hex.EncodeToString String.length length]; [reflexivity |].
  rewrite IH. lia.
Qed.

Lemma ToUpper_length (s : string) : String.length (strings.ToUpper s) = String.length s.
Proof. induction s as [| c s IH]; cbn [strings.ToUpper String.length]; congruence. Qed.

Lemma upper_digits (b : byte) :
  is_upper_hex (strings.upper_ascii (hex.digit (N.shiftr (Byte.to_N b) 4))) = true /\
  is_upper_hex (strings.upper_ascii (hex.digit (N.land (Byte.to_N b) 15))) = true.
Proof. destruct b; split; reflexivity. Qed.

(** The name of a key: forty upper-case hexadecimal digits. *)
Lemma fingerprintName_format (derBytes : list byte) :
  String.length (fingerprintName derBytes) = 40%nat /\
  forallb is_upper_hex (list_ascii_of_string (fingerprintName derBytes)) = true.
Proof.
  unfold fingerprintName. split.
  - rewrite ToUpper_length, EncodeToString_length, Sum_length. reflexivity.
  - induction (sha1.Sum derBytes) as [| b tl IH];
      cbn [hex.EncodeToString strings.ToUpper list_ascii_of_string forallb]; [reflexivity |].
    destruct (upper_digits b) as [-> ->]. exact IH.
Qed.

End Fingerprint.

(** ** Rounding in binary64 *)

Section Binary64.

Local Abbreviation digits p := (Zpos (digits2_pos p)).

Lemma digits2_pos_bounds (p : positive) :
  2 ^ (digits p - 1) <= Zpos p < 2 ^ digits p.
Proof.
  induction p as [p IH | p IH |]; cbn [digits2_pos].
  - rewrite Pos2Z.inj_succ, (Pos2Z.inj_xI p).
    replace (Z.succ (digits p) - 1) with (Z.succ (digits p - 1)) by lia.
    rewrite !Z.pow_succ_r by lia. lia.
  - rewrite Pos2Z.inj_succ, (Pos2Z.inj_xO p).
    replace (Z.succ (digits p) - 1) with (Z.succ (digits p - 1)) by lia.
    rewrite !Z.pow_succ_r by lia. lia.
  - cbn. lia.
Qed.

Lemma digits2_pos_unique (p : positive) (d : Z) :
  2 ^ (d - 1) <= Zpos p < 2 ^ d -> digits p = d.
Proof.
  intros [Hlo Hhi]. pose proof (digits2_pos_bounds p) as [Blo Bhi].
  destruct (Z.lt_trichotomy (digits p) d) as [Hlt | [Heq | Hgt]]; [| exact Heq |].
  - assert (2 ^ digits p <= 2 ^ (d - 1)) by (apply Z.pow_le_mono_r; lia). lia.
  - destruct (Z.le_gt_cases 0 d) as [Hd | Hd].
    + assert (2 ^ d <= 2 ^ (digits p - 1)) by (apply Z.pow_le_mono_r; lia). lia.
    + rewrite (Z.pow_neg_r 2 d) in Hhi by lia. lia.
Qed.

Lemma digits2_pos_lower (p : positive) (k : Z) :
  2 ^ k <= Zpos p -> k < digits p.
Proof.
  intros Hk. pose proof (digits2_pos_bounds p) as [_ Bhi].
  destruct (Z.le_gt_cases (digits p) k) as [Hle | Hgt]; [| exact Hgt].
  assert (2 ^ digits p <= 2 ^ k) by (apply Z.pow_le_mono_r; lia). lia.
Qed.

Lemma iter_xO_spec (k p : positive) :
  Zpos (Pos.iter xO p k) = Zpos p * 2 ^ Zpos k.
Proof.
  revert p. induction k as [| k IH] using Pos.peano_ind; intros p.
  - cbn. lia.
  - rewrite Pos.iter_succ, (Pos2Z.inj_xO (Pos.iter xO p k)), IH, Pos2Z.inj_succ, Z.pow_succ_r by lia. lia.
Qed.

Lemma shr_1_m (r : shr_record) :
  0 <= shr_m r -> shr_m (shr_1 r) = shr_m r / 2.
Proof.
  destruct r as [m b s]. cbn [shr_m]. intros Hm.
  destruct m as [| [p | p |] | p]; cbn [shr_1 shr_m]; try lia.
  - reflexivity.
  - rewrite (Pos2Z.inj_xI p). apply Z.div_unique with 1; lia.
  - rewrite (Pos2Z.inj_xO p). apply Z.div_unique with 0; lia.
  - reflexivity.
Qed.

Lemma iter_shr_1_m (p : positive) (r : shr_record) :
  0 <= shr_m r ->
  shr_m (SpecFloat.iter_pos shr_1 p r) = shr_m r / 2 ^ Zpos p.
Proof.
  revert r. induction p as [p IH | p IH |]; intros r Hr; cbn [SpecFloat.iter_pos].
  - assert (H1 : 0 <= shr_m (shr_1 r))
      by (rewrite shr_1_m by assumption; apply Z.div_pos; lia).
    assert (H2 : 0 <= shr_m (SpecFloat.iter_pos shr_1 p (shr_1 r)))
      by (rewrite IH by assumption; apply Z.div_pos; lia).
    rewrite IH, IH, shr_1_m by assumption.
    rewrite !Z.div_div by lia. f_equal.
    rewrite (Pos2Z.inj_xI p).
    replace (2 * Z.pos p + 1) with (1 + Z.pos p + Z.pos p) by lia.
    rewrite !Z.pow_add_r by lia. change (2 ^ 1) with 2. lia.
  - assert (H2 : 0 <= shr_m (SpecFloat.iter_pos shr_1 p r))
      by (rewrite IH by assumption; apply Z.div_pos; lia).
    rewrite IH, IH by assumption.
    rewrite Z.div_div by lia. f_equal.
    rewrite (Pos2Z.inj_xO p).
    replace (2 * Z.pos p) with (Z.pos p + Z.pos p) by lia.
    rewrite Z.pow_add_r by lia. reflexivity.
  - rewrite shr_1_m by assumption. reflexivity.
Qed.

(** Shifting right by [n] bits divides the mantissa and moves the
    exponent. *)
Lemma shr_spec (r : shr_record) (e n : Z) :
  0 <= n -> 0 <= shr_m r ->
  shr_m (fst (shr r e n)) = shr_m r / 2 ^ n /\ snd (shr r e n) = e + n.
Proof.
  intros Hn Hr. destruct n as [| p | p]; cbn [shr fst snd]; try lia.
  - rewrite Z.div_1_r. lia.
  - rewrite iter_shr_1_m by assumption. lia.
Qed.

Lemma shr_nonneg (r : shr_record) (e n : Z) :
  0 <= shr_m r -> 0 <= shr_m (fst (shr r e n)).
Proof.
  intros Hr. destruct n as [| p | p]; cbn [shr fst]; try assumption.
  rewrite iter_shr_1_m by assumption. apply Z.div_pos; lia.
Qed.

Lemma shr_record_of_loc_m (m : Z) (l : location) :
  shr_m (shr_record_of_loc m l) = m.
Proof. destruct l as [| []]; reflexivity. Qed.

Lemma round_nearest_even_cases (m : Z) (l : location) :
  round_nearest_even m l = m \/ round_nearest_even m l = m + 1.
Proof.
  destruct l as [| []]; cbn [round_nearest_even]; auto.
  destruct (Z.even m); auto.
Qed.



Lemma round_aux_canonical (sx : bool) (m : positive) (e : Z) :
  digits m = 53 -> -1074 <= e <= 971 ->
  binary_round_aux 53 1024 sx (Zpos m) e loc_Exact = S754_finite sx m e.
Proof.
  intros Hd He. unfold binary_round_aux, shr_fexp, fexp, emin.
  cbn [Zdigits2 shr_record_of_loc]. rewrite Hd.
  replace (Z.max (53 + e - 53) (3 - 1024 - 53) - e) with 0 by lia.
  cbn [shr shr_m loc_of_shr_record round_nearest_even Zdigits2 shr_record_of_loc].
  rewrite Hd.
  replace (Z.max (53 + e - 53) (3 - 1024 - 53) - e) with 0 by lia.
  cbn [shr shr_m].
  replace (e <=? 1024 - 53) with true by (symmetry; apply Z.leb_le; lia).
  reflexivity.
Qed.

Lemma binary_round_exact (sx : bool) (p : positive) (e : Z) :
  digits p <= 53 -> -1074 <= e + digits p - 53 <= 971 ->
  exists m, binary_round 53 1024 sx p e = S754_finite sx m (e + digits p - 53)
            /\ Zpos m = Zpos p * 2 ^ (53 - digits p) /\ digits m = 53.
Proof.
  intros Hd He. pose proof (digits2_pos_bounds p) as [Hlo Hhi].
  unfold binary_round, fexp, emin.
  replace (Z.max (digits p + e - 53) (3 - 1024 - 53)) with (e + digits p - 53) by lia.
  unfold shl_align.
  replace (e + digits p - 53 - e) with (digits p - 53) by lia.
  destruct (digits p - 53) as [| k | k] eqn:K; try lia.
  - exists p. assert (Hp : digits p = 53) by lia.
    replace (e + digits p - 53) with e by lia.
    rewrite round_aux_canonical by lia.
    rewrite Hp. cbn. split; [reflexivity | lia].
  - assert (Hk : Zpos k = 53 - digits p) by lia.
    assert (Hm : Zpos (Pos.iter xO p k) = Zpos p * 2 ^ (53 - digits p))
      by (rewrite iter_xO_spec, Hk; reflexivity).
    assert (Hdm : digits (Pos.iter xO p k) = 53).
    { apply digits2_pos_unique. rewrite Hm.
      assert (E1 : 2 ^ (53 - 1) = 2 ^ (digits p - 1) * 2 ^ (53 - digits p))
        by (rewrite <- Z.pow_add_r by lia; f_equal; lia).
      assert (E2 : 2 ^ 53 = 2 ^ digits p * 2 ^ (53 - digits p))
        by (rewrite <- Z.pow_add_r by lia; f_equal; lia).
      assert (0 < 2 ^ (53 - digits p)) by (apply Z.pow_pos_nonneg; lia).
      rewrite E1, E2. nia. }
    exists (Pos.iter xO p k). rewrite round_aux_canonical by lia. auto.
Qed.

Lemma round_aux_lower (sx : bool) (M ez : Z) (l : location) (m1 : positive) (e1 : Z) :
  digits m1 = 53 -> -1074 <= e1 -> ez <= e1 ->
  Zpos m1 * 2 ^ (e1 - ez) <= M ->
  at_least (binary_round_aux 53 1024 sx M ez l) sx m1 e1.
Proof.
  intros Hd He1 Hez HM.
  pose proof (digits2_pos_bounds m1) as [Hm1lo Hm1hi]. rewrite Hd in Hm1lo, Hm1hi.
  assert (Hpow : 0 < 2 ^ (e1 - ez)) by (apply Z.pow_pos_nonneg; lia).
  destruct M as [| Mp | Mp]; try nia.
  pose proof (digits2_pos_bounds Mp) as [HMlo HMhi].
  assert (HD : 53 + (e1 - ez) <= digits Mp).
  { enough (52 + (e1 - ez) < digits Mp) by lia.
    apply digits2_pos_lower. rewrite Z.pow_add_r by lia.
    change (53 - 1) with 52 in Hm1lo. nia. }
  unfold binary_round_aux.
  destruct (shr_fexp 53 1024 (Zpos Mp) ez l) as [r1 e'] eqn:E1.
  unfold shr_fexp, fexp, emin in E1. cbn [Zdigits2] in E1.
  replace (Z.max (digits Mp + ez - 53) (3 - 1024 - 53) - ez) with (digits Mp - 53) in E1 by lia.
  destruct (shr_spec (shr_record_of_loc (Zpos Mp) l) ez (digits Mp - 53)) as [S1 S2];
    [lia | rewrite shr_record_of_loc_m; lia |].
  rewrite E1 in S1, S2. cbn [fst snd] in S1, S2. rewrite shr_record_of_loc_m in S1.
  assert (E52 : 2 ^ (digits Mp - 1) = 2 ^ (digits Mp - 53) * 2 ^ 52)
    by (rewrite <- Z.pow_add_r by lia; f_equal; lia).
  assert (E53 : 2 ^ digits Mp = 2 ^ (digits Mp - 53) * 2 ^ 53)
    by (rewrite <- Z.pow_add_r by lia; f_equal; lia).
  assert (Hp2 : 0 < 2 ^ (digits Mp - 53)) by (apply Z.pow_pos_nonneg; lia).
  assert (Hmt : 2 ^ 52 <= shr_m r1 < 2 ^ 53).
  { rewrite S1. split.
    - apply Z.div_le_lower_bound; lia.
    - apply Z.div_lt_upper_bound; lia. }
  assert (Hge : e1 = e' -> Zpos m1 <= shr_m r1).
  { intros ->. rewrite S1. apply Z.div_le_lower_bound; [lia |].
    replace (digits Mp - 53) with (ez + (digits Mp - 53) - ez) by lia. rewrite <- S2. lia. }
  set (mr := round_nearest_even (shr_m r1) (loc_of_shr_record r1)).
  assert (Hmr : shr_m r1 <= mr <= shr_m r1 + 1)
    by (destruct (round_nearest_even_cases (shr_m r1) (loc_of_shr_record r1)); subst mr; lia).
  destruct mr as [| mrp | mrp] eqn:Emr; try lia.
  destruct (Z.eq_dec (Zpos mrp) (2 ^ 53)) as [Hcarry | Hnocarry].
  - assert (mrp = 9007199254740992%positive) by (change (2 ^ 53) with 9007199254740992 in Hcarry; lia).
    subst mrp. unfold shr_fexp, fexp, emin. cbn [Zdigits2 shr_record_of_loc].
    change (digits 9007199254740992) with 54.
    replace (Z.max (54 + e' - 53) (3 - 1024 - 53) - e') with 1 by lia.
    cbn [shr SpecFloat.iter_pos shr_1 shr_m].
    destruct (e' + 1 <=? 1024 - 53); [right | left; reflexivity].
    eexists _, _. split; [reflexivity | split; [reflexivity | lia]].
  - assert (Hdr : digits mrp = 53) by (apply digits2_pos_unique; lia).
    unfold shr_fexp, fexp, emin. cbn [Zdigits2 shr_record_of_loc]. rewrite Hdr.
    replace (Z.max (53 + e' - 53) (3 - 1024 - 53) - e') with 0 by lia.
    cbn [shr shr_m].
    destruct (e' <=? 1024 - 53); [right | left; reflexivity].
    eexists _, _. split; [reflexivity | split; [exact Hdr |]].
    destruct (Z.eq_dec e1 e'); [right | left]; lia.
Qed.



Lemma round_aux_sign (sx : bool) (M e : Z) (l : location) :
  0 <= M -> of_sign (binary_round_aux 53 1024 sx M e l) sx.
Proof.
  intros HM. unfold binary_round_aux.
  destruct (shr_fexp 53 1024 M e l) as [r1 e1] eqn:E1.
  assert (H1 : 0 <= shr_m r1).
  { replace r1 with (fst (shr_fexp 53 1024 M e l)) by (rewrite E1; reflexivity).
    unfold shr_fexp. apply shr_nonneg. rewrite shr_record_of_loc_m. exact HM. }
  set (mr := round_nearest_even (shr_m r1) (loc_of_shr_record r1)).
  assert (Hmr : 0 <= mr)
    by (destruct (round_nearest_even_cases (shr_m r1) (loc_of_shr_record r1)); subst mr; lia).
  destruct (shr_fexp 53 1024 mr e1 loc_Exact) as [r2 e2] eqn:E2.
  assert (H2 : 0 <= shr_m r2).
  { replace r2 with (fst (shr_fexp 53 1024 mr e1 loc_Exact)) by (rewrite E2; reflexivity).
    unfold shr_fexp. apply shr_nonneg. rewrite shr_record_of_loc_m. exact Hmr. }
  unfold of_sign. destruct (shr_m r2) as [| m | m]; try lia; [left; reflexivity | right].
  destruct (e2 <=? 1024 - 53); [right | left; reflexivity].
  eexists _, _. reflexivity.
Qed.

Lemma div_sign (sx : bool) (mx : positive) (ex : Z) (my : positive) (ey : Z) :
  of_sign (SFdiv 53 1024 (S754_finite sx mx ex) (S754_finite false my ey)) sx.
Proof.
  unfold SFdiv.
  destruct (SFdiv_core_binary 53 1024 (Zpos mx) ex (Zpos my) ey) as [[mz ez] lz] eqn:E.
  rewrite xorb_false_r. apply round_aux_sign.
  unfold SFdiv_core_binary in E.
  set (s := ex - ey - _) in E.
  set (m' := match s with Zpos _ => Z.shiftl (Zpos mx) s | Z0 => Zpos mx | Zneg _ => 0 end) in E.
  assert (Hm' : 0 <= m').
  { subst m'. destruct s; try lia. apply Z.shiftl_nonneg. lia. }
  destruct (Z.div_eucl m' (Zpos my)) as [q r] eqn:E2.
  assert (Hq : q = m' / Zpos my) by (unfold Z.div; rewrite E2; reflexivity).
  inversion E; subst mz. rewrite Hq. apply Z.div_pos; lia.
Qed.

Lemma digits_shifted (m1 Mp : positive) (k : Z) :
  digits m1 = 53 -> 0 <= k -> Zpos m1 * 2 ^ k <= Zpos Mp -> 53 + k <= digits Mp.
Proof.
  intros Hd Hk HM.
  pose proof (digits2_pos_bounds m1) as [Hlo _]. rewrite Hd in Hlo.
  change (53 - 1) with 52 in Hlo.
  assert (0 < 2 ^ k) by (apply Z.pow_pos_nonneg; lia).
  enough (52 + k < digits Mp) by lia.
  apply digits2_pos_lower. rewrite Z.pow_add_r by lia. nia.
Qed.

Lemma binary_round_lower (sx : bool) (Mp : positive) (ez : Z) (m1 : positive) (e1 : Z) :
  digits m1 = 53 -> -1074 <= e1 -> ez <= e1 ->
  Zpos m1 * 2 ^ (e1 - ez) <= Zpos Mp ->
  at_least (binary_round 53 1024 sx Mp ez) sx m1 e1.
Proof.
  intros Hd He1 Hez HM.
  pose proof (digits_shifted m1 Mp (e1 - ez) Hd ltac:(lia) HM) as HD.
  unfold binary_round, shl_align, fexp, emin.
  destruct (Z.max (digits Mp + ez - 53) (3 - 1024 - 53) - ez) as [| k | k] eqn:K; try lia;
    apply round_aux_lower; assumption.
Qed.

Lemma shl_align_fst (m : positive) (e ez : Z) :
  ez <= e -> Zpos (fst (shl_align m e ez)) = Zpos m * 2 ^ (e - ez).
Proof.
  intros He. unfold shl_align.
  destruct (ez - e) as [| k | k] eqn:K; try lia; cbn [fst].
  - replace (e - ez) with 0 by lia. cbn. lia.
  - rewrite iter_xO_spec. do 2 f_equal. lia.
Qed.

(** Adding a number of the same sign to a normal number does not give
    less. *)
Lemma add_lower (sx : bool) (m1 : positive) (e1 : Z) (m2 : positive) (e2 : Z) :
  digits m1 = 53 -> -1074 <= e1 ->
  at_least (SFadd 53 1024 (S754_finite sx m1 e1) (S754_finite sx m2 e2)) sx m1 e1.
Proof.
  intros Hd He1. unfold SFadd, binary_normalize.
  set (ez := Z.min e1 e2).
  set (a := fst (shl_align m1 e1 ez)). set (b := fst (shl_align m2 e2 ez)).
  assert (Ha : Zpos a = Zpos m1 * 2 ^ (e1 - ez)) by (apply shl_align_fst; lia).
  assert (HM : Zpos m1 * 2 ^ (e1 - ez) <= Zpos (a + b)) by lia.
  destruct sx; cbn [cond_Zopp Z.opp Z.add];
    apply binary_round_lower; try assumption; lia.
Qed.

Lemma at_least_refl (sx : bool) (m : positive) (e : Z) :
  digits m = 53 -> at_least (S754_finite sx m e) sx m e.
Proof. intros Hd. right. exists m, e. split; [reflexivity | split; [exact Hd | lia]]. Qed.

Lemma at_least_weaken (f : spec_float) (sx : bool) (m1 m2 : positive) (e1 e2 : Z) :
  at_least f sx m1 e1 -> e2 < e1 \/ (e2 = e1 /\ Zpos m2 <= Zpos m1) ->
  at_least f sx m2 e2.
Proof.
  intros [-> | (m & e & -> & Hd & H)] Hw; [left; reflexivity |].
  right. exists m, e. split; [reflexivity | split; [exact Hd | lia]].
Qed.

Lemma at_least_abs (f : spec_float) (sx : bool) (m : positive) (e : Z) :
  at_least f sx m e -> at_least (SFabs f) false m e.
Proof.
  intros [-> | (m' & e' & -> & H)]; [left; reflexivity |].
  right. exists m', e'. split; [reflexivity | exact H].
Qed.

(** Adding zero, a finite number or an infinity of the same sign. *)
Lemma add_of_sign_lower (sx : bool) (m1 : positive) (e1 : Z) (q : spec_float) (s0 : bool) :
  digits m1 = 53 -> -1074 <= e1 ->
  q = S754_zero s0 \/ of_sign q sx ->
  at_least (SFadd 53 1024 (S754_finite sx m1 e1) q) sx m1 e1.
Proof.
  intros Hd He1 [-> | [-> | [-> | (m2 & e2 & ->)]]].
  - apply at_least_refl, Hd.
  - apply at_least_refl, Hd.
  - left. reflexivity.
  - apply add_lower; assumption.
Qed.

Lemma digits_le_53 (p : positive) : Zpos p < 2 ^ 53 -> digits p <= 53.
Proof.
  intros Hp. pose proof (digits2_pos_bounds p) as [Hlo Hhi].
  destruct (Z.le_gt_cases (digits p) 53) as [H | H]; [exact H |].
  assert (2 ^ 53 <= 2 ^ (digits p - 1)) by (apply Z.pow_le_mono_r; lia). lia.
Qed.

(** The conversion of an integer below 2^53 in absolute value is exact. *)
Lemma of_int_exact (sx : bool) (p : positive) :
  Zpos p < 2 ^ 53 ->
  exists m, float64.of_int (cond_Zopp sx (Zpos p)) = S754_finite sx m (digits p - 53)
            /\ Zpos m = Zpos p * 2 ^ (53 - digits p) /\ digits m = 53.
Proof.
  intros Hp. pose proof (digits2_pos_bounds p) as [Hlo Hhi].
  pose proof (digits_le_53 p Hp) as Hd.
  destruct (binary_round_exact sx p 0) as (m & E & Hm); [lia | lia |].
  exists m. split; [| exact Hm].
  unfold float64.of_int, float64.prec, float64.emax, binary_normalize.
  destruct sx; cbn [cond_Zopp Z.opp]; exact E.
Qed.

Lemma digits_mono (p q : positive) :
  Zpos p <= Zpos q -> digits p <= digits q.
Proof.
  intros H. pose proof (digits2_pos_bounds p) as [Hlo _].
  pose proof (digits2_pos_lower q (digits p - 1) ltac:(lia)). lia.
Qed.

(** Comparison of an exact integer with a float that is at least a
    larger exact integer. *)
Lemma lt_at_least (P : Z) (q : positive) (m1 : positive) (f : spec_float) :
  0 <= P < Zpos q -> Zpos q < 2 ^ 53 ->
  Zpos m1 = Zpos q * 2 ^ (53 - digits q) ->
  at_least f false m1 (digits q - 53) ->
  SFltb (float64.of_int P) f = true.
Proof.
  intros HP Hq Hm1 Hf.
  destruct P as [| p | p]; try lia.
  - destruct Hf as [-> | (m & e & -> & _ & _)]; reflexivity.
  - destruct (of_int_exact false p) as (mP & EP & HmP & _); [lia |].
    cbn [cond_Zopp] in EP. rewrite EP.
    destruct Hf as [-> | (m & e & -> & _ & Hord)]; [reflexivity |].
    pose proof (digits_mono p q ltac:(lia)) as Hdm.
    unfold SFltb, SFcompare.
    destruct (Z.compare_spec (digits p - 53) e) as [Heq | Hlt | Hgt];
      [| reflexivity | lia].
    assert (Hdd : digits p = digits q) by lia.
    assert (Hlt : (mP < m)%positive).
    { pose proof (digits_le_53 q Hq).
      assert (0 < 2 ^ (53 - digits q)) by (apply Z.pow_pos_nonneg; lia).
      rewrite Hdd in HmP. apply Pos2Z.pos_lt_pos. nia. }
    rewrite Pos.compare_cont_spec. cbn [Pos.switch_Eq].
    apply Pos.compare_lt_iff in Hlt. rewrite Hlt. reflexivity.
Qed.

Lemma quot_cond_Zopp (sx : bool) (a b : Z) :
  b <> 0 -> Z.quot (cond_Zopp sx a) b = cond_Zopp sx (Z.quot a b).
Proof. intros Hb. destruct sx; cbn [cond_Zopp]; [apply Z.quot_opp_l; exact Hb | reflexivity]. Qed.

Lemma rem_cond_Zopp (sx : bool) (a b : Z) :
  Z.rem (cond_Zopp sx a) b = cond_Zopp sx (Z.rem a b).
Proof. destruct sx; cbn [cond_Zopp]; [apply Z.rem_opp_l'|reflexivity]. Qed.

Lemma cond_Zopp_abs (d : Z) : d = cond_Zopp (d <? 0) (Z.abs d).
Proof. destruct (Z.ltb_spec d 0); cbn [cond_Zopp]; lia. Qed.

Lemma of_int_billion :
  float64.of_int 1000000000 = S754_finite false 8388608000000000 (-23).
Proof. reflexivity. Qed.

(** The fraction of a second, as a float, has the sign of the duration
    or is a zero. *)
Lemma fraction_sign (sx : bool) (n : Z) :
  0 <= n < 1000000000 ->
  let q := float64.div (float64.of_int (cond_Zopp sx n)) (float64.of_int 1000000000) in
  q = S754_zero false \/ of_sign q sx.
Proof.
  intros Hn q. subst q. destruct n as [| pn | pn]; try lia.
  - left. destruct sx; reflexivity.
  - right. destruct (of_int_exact sx pn) as (m & E & _); [lia |].
    rewrite E, of_int_billion. apply div_sign.
Qed.

Lemma Seconds_lower (sx : bool) (d : Z) (q : positive) :
  0 <= d -> Z.quot d time.Second = Zpos q -> Zpos q < 2 ^ 53 ->
  exists m1, Zpos m1 = Zpos q * 2 ^ (53 - digits q) /\
             at_least (time.Seconds (cond_Zopp sx d)) sx m1 (digits q - 53).
Proof.
  intros Hd Hq Hq53.
  destruct (of_int_exact sx q Hq53) as (m1 & E & Hm1 & Hdm).
  exists m1. split; [exact Hm1 |].
  unfold time.Seconds.
  rewrite quot_cond_Zopp, rem_cond_Zopp, Hq, E by (unfold time.Second; lia).
  pose proof (digits2_pos_bounds q) as [Hlo _].
  apply add_of_sign_lower with (s0 := false); [exact Hdm | lia |].
  apply fraction_sign. unfold time.Second. apply Z.rem_bound_pos; lia.
Qed.

(** A duration that exceeds the period by a second or more, in either
    direction, is too old. *)
Lemma too_old_above (d P : Z) :
  0 <= P -> P + 1 <= Z.quot (Z.abs d) time.Second -> Z.abs d <= 2 ^ 63 ->
  too_old d P = true.
Proof.
  intros HP Hsec Hd.
  destruct (Z.quot (Z.abs d) time.Second) as [| q | q] eqn:Q; try lia.
  assert (Hq53 : Zpos q < 2 ^ 53).
  { pose proof (Z.quot_rem' (Z.abs d) time.Second) as Hqr.
    pose proof (Z.rem_bound_pos (Z.abs d) time.Second ltac:(lia) ltac:(unfold time.Second; lia)).
    rewrite Q in Hqr. unfold time.Second in *.
    change (2 ^ 63) with 9223372036854775808 in Hd.
    change (2 ^ 53) with 9007199254740992. lia. }
  destruct (Seconds_lower (d <? 0) (Z.abs d) q) as (m1 & Hm1 & Hat); [lia | exact Q | exact Hq53 |].
  rewrite <- cond_Zopp_abs in Hat.
  unfold too_old, float64.gt, math.Abs.
  apply (lt_at_least P q m1); [lia | exact Hq53 | exact Hm1 |].
  apply at_least_abs with (sx := (d <? 0)). exact Hat.
Qed.

Lemma SFltb_irrefl_finite (m : positive) (e : Z) :
  SFltb (S754_finite false m e) (S754_finite false m e) = false.
Proof.
  unfold SFltb, SFcompare. rewrite Z.compare_refl, Pos.compare_cont_refl. reflexivity.
Qed.

(** A duration equal to the period, in either direction, is not too
    old. *)
Lemma too_old_equal (d P : Z) :
  0 <= P < 2 ^ 53 -> Z.abs d = P * time.Second -> too_old d P = false.
Proof.
  intros HP Hd.
  unfold too_old, float64.gt, math.Abs, time.Seconds.
  rewrite (cond_Zopp_abs d), Hd. set (sx := d <? 0).
  rewrite quot_cond_Zopp, rem_cond_Zopp by (unfold time.Second; lia).
  rewrite Z.quot_mul, Z.rem_mul by (unfold time.Second; lia).
  replace (float64.div (float64.of_int (cond_Zopp sx 0)) (float64.of_int 1000000000))
    with (S754_zero false) by (destruct sx; reflexivity).
  destruct P as [| p | p]; try lia.
  - destruct sx; reflexivity.
  - destruct (of_int_exact sx p) as (m & E & Hm & _); [lia |].
    destruct (of_int_exact false p) as (m' & E' & Hm' & _); [lia |].
    cbn [cond_Zopp] in E'. rewrite E, E'.
    assert (m' = m) by lia. subst m'.
    cbn [float64.add SFadd SFabs]. unfold float64.add. cbn [SFadd SFabs].
    apply SFltb_irrefl_finite.
Qed.

Lemma lt_of_at_least (mP : positive) (eP : Z) (m1 : positive) (e1 : Z) (f : spec_float) :
  eP < e1 \/ (eP = e1 /\ Zpos mP < Zpos m1) ->
  at_least f false m1 e1 ->
  SFltb (S754_finite false mP eP) f = true.
Proof.
  intros Hlt [-> | (m & e & -> & _ & Hord)]; [reflexivity |].
  unfold SFltb, SFcompare.
  destruct (Z.compare_spec eP e) as [Heq | Hl | Hg]; [| reflexivity | lia].
  assert (Hm : (mP < m)%positive) by (apply Pos2Z.pos_lt_pos; lia).
  rewrite Pos.compare_cont_spec. cbn [Pos.switch_Eq].
  apply Pos.compare_lt_iff in Hm. rewrite Hm. reflexivity.
Qed.

(** The quotient of a positive number of nanoseconds by 10^9 is at
    least 2^-30. *)
Lemma div_lower (sx : bool) (pn : positive) :
  Zpos pn < 1000000000 ->
  at_least (float64.div (float64.of_int (cond_Zopp sx (Zpos pn)))
                        (float64.of_int 1000000000))
           sx 4503599627370496 (-82).
Proof.
  intros Hn. destruct (of_int_exact sx pn) as (mn & E & Hmn & Hdm); [lia |].
  pose proof (digits2_pos_bounds pn) as [Hlo _].
  pose proof (digits2_pos_bounds mn) as [Hmlo _]. rewrite Hdm in Hmlo.
  assert (H1 : 1 <= digits pn) by lia.
  rewrite E, of_int_billion. unfold float64.div, float64.prec, float64.emax, SFdiv.
  unfold SFdiv_core_binary, fexp, emin. cbn [Zdigits2]. rewrite Hdm.
  change (digits 8388608000000000) with 53.
  set (en := digits pn - 53).
  replace (Z.min (Z.max (53 + en - (53 + -23) - 53) (3 - 1024 - 53)) (en - -23))
    with (en - 30) by lia.
  replace (en - -23 - (en - 30)) with 53 by lia.
  cbn match. rewrite Z.shiftl_mul_pow2 by lia.
  destruct (Z.div_eucl (Zpos mn * 2 ^ 53) (Zpos 8388608000000000)) as [q0 r] eqn:Eq.
  assert (Hq : q0 = Zpos mn * 2 ^ 53 / Zpos 8388608000000000)
    by (unfold Z.div; rewrite Eq; reflexivity).
  rewrite xorb_false_r.
  apply at_least_weaken with (m1 := 4503599627370496%positive) (e1 := en - 30).
  - apply round_aux_lower; [reflexivity | lia | lia |].
    rewrite Z.sub_diag, Z.mul_1_r, Hq. apply Z.div_le_lower_bound; [lia |].
    change (53 - 1) with 52 in Hmlo. change (2 ^ 52) with 4503599627370496 in Hmlo.
    change (2 ^ 53) with 9007199254740992. lia.
  - subst en. lia.
Qed.

(** Adding a number of the same sign that is not below the last place
    of a normal number gives strictly more. *)
Lemma add_strict (sx : bool) (m1 : positive) (e1 : Z) (m2 : positive) (e2 : Z) :
  digits m1 = 53 -> digits m2 = 53 -> -1074 <= e1 -> e1 <= 52 + e2 ->
  exists m1' e1',
    (e1 < e1' \/ (e1 = e1' /\ Zpos m1 < Zpos m1')) /\
    at_least (SFadd 53 1024 (S754_finite sx m1 e1) (S754_finite sx m2 e2)) sx m1' e1'.
Proof.
  intros Hd1 Hd2 He1 He2. unfold SFadd, binary_normalize.
  set (ez := Z.min e1 e2).
  set (a := fst (shl_align m1 e1 ez)). set (b := fst (shl_align m2 e2 ez)).
  assert (Ha : Zpos a = Zpos m1 * 2 ^ (e1 - ez)) by (apply shl_align_fst; lia).
  assert (Hb : Zpos b = Zpos m2 * 2 ^ (e2 - ez)) by (apply shl_align_fst; lia).
  pose proof (digits2_pos_bounds m1) as [H1lo H1hi]. rewrite Hd1 in H1lo, H1hi.
  pose proof (digits2_pos_bounds m2) as [H2lo _]. rewrite Hd2 in H2lo.
  change (53 - 1) with 52 in H1lo, H2lo.
  assert (Hp : 0 < 2 ^ (e1 - ez)) by (apply Z.pow_pos_nonneg; lia).
  assert (Hbig : 2 ^ (e1 - ez) <= Zpos b).
  { rewrite Hb. assert (Hq : 0 < 2 ^ (e2 - ez)) by (apply Z.pow_pos_nonneg; lia).
    assert (Hle : 2 ^ (e1 - ez) <= 2 ^ (52 + (e2 - ez))) by (apply Z.pow_le_mono_r; lia).
    rewrite Z.pow_add_r in Hle by lia. nia. }
  assert (HM : (Zpos m1 + 1) * 2 ^ (e1 - ez) <= Zpos (a + b)) by (rewrite Pos2Z.inj_add; nia).
  assert (Hsum : cond_Zopp sx (Zpos a) + cond_Zopp sx (Zpos b) = cond_Zopp sx (Zpos (a + b)))
    by (destruct sx; cbn [cond_Zopp]; lia).
  rewrite Hsum.
  assert (Hround : forall m1' e1', digits m1' = 53 -> -1074 <= e1' -> ez <= e1' ->
            Zpos m1' * 2 ^ (e1' - ez) <= Zpos (a + b) ->
            at_least match cond_Zopp sx (Zpos (a + b)) with
                     | 0 => S754_zero false
                     | Zpos m => binary_round 53 1024 false m ez
                     | Zneg m => binary_round 53 1024 true m ez
                     end sx m1' e1').
  { intros m1' e1' ? ? ? ?. destruct sx; cbn [cond_Zopp Z.opp];
      apply binary_round_lower; assumption. }
  destruct (Z.eq_dec (Zpos m1 + 1) (2 ^ 53)) as [Hc | Hn].
  - exists 4503599627370496%positive, (e1 + 1). split; [lia |].
    apply Hround; [reflexivity | lia | lia |].
    replace (e1 + 1 - ez) with (1 + (e1 - ez)) by lia.
    rewrite Z.pow_add_r by lia. rewrite Hc in HM.
    change (2 ^ 53) with 9007199254740992 in HM. change (2 ^ 1) with 2. lia.
  - exists (m1 + 1)%positive, e1. split; [lia |].
    apply Hround; [| lia | lia | rewrite Pos2Z.inj_add; exact HM].
    apply digits2_pos_unique. rewrite Pos2Z.inj_add. change (53 - 1) with 52. lia.
Qed.

(** Below 2^23 seconds the comparison sees every nanosecond. *)
Lemma too_old_just_above (d P : Z) :
  0 <= P < 2 ^ 23 -> P * time.Second < Z.abs d -> Z.abs d <= 2 ^ 63 ->
  too_old d P = true.
Proof.
  intros HP Hd H63.
  pose proof (Z.quot_rem' (Z.abs d) time.Second) as Hqr.
  pose proof (Z.rem_bound_pos (Z.abs d) time.Second ltac:(lia) ltac:(unfold time.Second; lia)) as Hr.
  assert (Hq0 : 0 <= Z.quot (Z.abs d) time.Second)
    by (apply Z.quot_pos; unfold time.Second; lia).
  destruct (Z.le_gt_cases (P + 1) (Z.quot (Z.abs d) time.Second)) as [Hge | Hlt].
  { apply too_old_above; lia. }
  assert (Hsec : Z.quot (Z.abs d) time.Second = P) by (unfold time.Second in *; nia).
  assert (Hn : 1 <= Z.rem (Z.abs d) time.Second) by (unfold time.Second in *; nia).
  unfold too_old, float64.gt, math.Abs, time.Seconds.
  rewrite (cond_Zopp_abs d). set (sx := d <? 0).
  rewrite quot_cond_Zopp, rem_cond_Zopp, Hsec by (unfold time.Second; lia).
  destruct (Z.rem (Z.abs d) time.Second) as [| pn | pn] eqn:En; try lia.
  pose proof (div_lower sx pn ltac:(unfold time.Second in Hr; lia)) as Hq.
  set (q := float64.div _ _) in *.
  destruct P as [| p | p]; try lia.
  - replace (float64.of_int (cond_Zopp sx 0)) with (S754_zero false)
      by (destruct sx; reflexivity).
    destruct Hq as [-> | (m2 & e2 & -> & _ & _)]; reflexivity.
  - destruct (of_int_exact sx p) as (m1 & E1 & Hm1 & Hd1);
      [change (2 ^ 23) with 8388608 in HP; change (2 ^ 53) with 9007199254740992; lia |].
    destruct (of_int_exact false p) as (m1' & E1' & Hm1' & _);
      [change (2 ^ 23) with 8388608 in HP; change (2 ^ 53) with 9007199254740992; lia |].
    cbn [cond_Zopp] in E1'. assert (m1' = m1) by lia. subst m1'.
    rewrite E1, E1'.
    assert (Hdp : digits p <= 23).
    { pose proof (digits2_pos_bounds p) as [Hlo _].
      destruct (Z.le_gt_cases (digits p) 23) as [H | H]; [exact H |].
      assert (2 ^ 23 <= 2 ^ (digits p - 1)) by (apply Z.pow_le_mono_r; lia). lia. }
    pose proof (digits2_pos_bounds p) as [Hplo _].
    destruct Hq as [-> | (m2 & e2 & -> & Hd2 & Hord)]; [reflexivity |].
    destruct (add_strict sx m1 (digits p - 53) m2 e2) as (mr & er & Hgt & Hat);
      [assumption | assumption | lia | lia |].
    unfold float64.add, float64.prec, float64.emax.
    apply lt_of_at_least with (m1 := mr) (e1 := er); [lia |].
    apply at_least_abs with (sx := sx). exact Hat.
Qed.

End Binary64.

(** ** The registry model *)

Ltac simp := cbn [fst snd reg logged calls called log.record negb].

Section Tree.
Import winreg.
Context {A : Type}.
Implicit Types (l : list (string * A)) (n x : string).

Lemma assoc_remove x n l :
  assoc n (remove x l) = if String.eqb x n then None else assoc n l.
Proof.
  induction l as [| [m a] l IH]; cbn [assoc remove].
  - destruct (String.eqb x n); reflexivity.
  - destruct (String.eqb_spec m x) as [-> | Hmx].
    + rewrite IH. destruct (String.eqb_spec x n); reflexivity.
    + cbn [assoc]. rewrite IH.
      destruct (String.eqb_spec m n) as [-> | Hmn]; [| reflexivity].
      destruct (String.eqb_spec x n); congruence.
Qed.

Lemma assoc_replace x n (a : A) l :
  assoc n (replace x a l) =
    if String.eqb x n then match assoc x l with Some _ => Some a | None => None end
    else assoc n l.
Proof.
  induction l as [| [m b] l IH]; cbn [assoc replace].
  - destruct (String.eqb x n); reflexivity.
  - destruct (String.eqb_spec m x) as [-> | Hmx]; cbn [assoc].
    + destruct (String.eqb_spec x n); reflexivity.
    + rewrite IH. destruct (String.eqb_spec m n) as [-> | Hmn]; [| reflexivity].
      destruct (String.eqb_spec x n); congruence.
Qed.

Lemma assoc_app n l l' :
  assoc n (l ++ l') = match assoc n l with Some a => Some a | None => assoc n l' end.
Proof.
  induction l as [| [m b] l IH]; cbn [assoc app]; [reflexivity |].
  destruct (String.eqb m n); [reflexivity | exact IH].
Qed.

Lemma assoc_in_names n l : In n (map fst l) -> assoc n l <> None.
Proof.
  induction l as [| [m b] l IH]; cbn [assoc map fst In]; [tauto |].
  intros [-> | H].
  - rewrite String.eqb_refl. discriminate.
  - destruct (String.eqb m n); [discriminate | auto].
Qed.
End Tree.

Section Handles.
Import winreg.

Lemma get_set_store r k s0 s :
  get_store r k = Some s0 -> get_store (set_store r k s) k = Some s.
Proof.
  destruct k as [| | [| |] p]; cbn [get_store set_store]; try discriminate;
    intros _; cbn; apply lookup_insert_eq.
Qed.

Lemma get_key_set_store r k s0 s n :
  get_store r k = Some s0 ->
  get_key (set_store r k s) (Handle k n) = assoc n s.
Proof.
  intros H. cbn [get_key]. rewrite (get_set_store r k s0 s H). reflexivity.
Qed.

Lemma get_key_set_key r k n n' d :
  get_key (set_key r (Handle k n) d) (Handle k n') =
    if String.eqb n n' then match get_key r (Handle k n) with Some _ => Some d | None => None end
    else get_key r (Handle k n').
Proof.
  cbn [get_key set_key]. destruct (get_store r k) as [sub |] eqn:E.
  - rewrite (get_set_store r k sub _ E). apply assoc_replace.
  - rewrite E. destruct (String.eqb n n'); reflexivity.
Qed.

Lemma key_exists_entry r k n d :
  get_key r (Handle k n) = Some d -> key_exists r (Handle k n) = true.
Proof. intros H. unfold key_exists. rewrite H. destruct (get_store _ _); reflexivity. Qed.

Lemma key_exists_store r k s :
  get_store r k = Some s -> key_exists r k = true.
Proof. intros H. unfold key_exists. rewrite H. reflexivity. Qed.

Lemma get_set_store_ne r k k' s :
  k <> k' -> get_store (set_store r k s) k' = get_store r k'.
Proof.
  intros Hne.
  destruct k as [| | [| |] p]; cbn [set_store]; try reflexivity;
    destruct k' as [| | [| |] p']; cbn [get_store current_user local_machine];
    try reflexivity; apply lookup_insert_ne; congruence.
Qed.

Lemma deleted_entry_other env w k p k' n :
  k <> k' -> get_key (deleted env w k p) (Handle k' n) = get_key (reg w) (Handle k' n).
Proof.
  intros Hne. unfold deleted. destruct (fault env _); [reflexivity |].
  destruct (get_store (reg w) k) as [sub |]; [| reflexivity].
  destruct (assoc p sub); [| reflexivity].
  cbn [get_key]. rewrite get_set_store_ne by assumption. reflexivity.
Qed.

End Handles.

Section Run.
Import winreg.
Variables (env : Env) (w : World).

Lemma OpenKey_run k p a :
  registry.OpenKey k p a env w =
    (match fault env (OpOpenKey k p) with
     | Some e => Err e
     | None => if key_exists (reg w) (Handle k p) then Ok (Handle k p)
               else Err registry.ErrNotExist
     end, called (OpOpenKey k p) w).
Proof.
  unfold registry.OpenKey, bind, call, get_reg, ret. simp.
  destruct (fault env _); [reflexivity |]. destruct (key_exists _ _); reflexivity.
Qed.

Lemma GetIntegerValue_run k name :
  registry.GetIntegerValue k name env w =
    (match fault env (OpGetIntegerValue k name) with
     | Some e => Err e
     | None =>
         match get_key (reg w) k with
         | None => Err registry.ERROR_INVALID_HANDLE
         | Some d =>
             match values d !! name with
             | None => Err registry.ErrNotExist
             | Some (DWORD v) => Ok v
             | Some (QWORD v) => Ok v
             | Some _ => Err registry.ErrUnexpectedType
             end
         end
     end, called (OpGetIntegerValue k name) w).
Proof.
  unfold registry.GetIntegerValue, bind, call, get_reg, ret. simp.
  destruct (fault env _); [reflexivity |].
  destruct (get_key _ _) as [d |]; [| reflexivity].
  destruct (values d !! name) as [[] |]; reflexivity.
Qed.

Lemma Stat_run k :
  registry.Stat k env w =
    (match fault env (OpStat k) with
     | Some e => Err e
     | None =>
         match get_key (reg w) k with
         | None => Err registry.ERROR_INVALID_HANDLE
         | Some d => Ok (mkKeyInfo (modTime d))
         end
     end, called (OpStat k) w).
Proof.
  unfold registry.Stat, bind, call, get_reg, ret. simp.
  destruct (fault env _); [reflexivity |].
  destruct (get_key _ _); reflexivity.
Qed.

Lemma ReadSubKeyNames_run k n :
  registry.ReadSubKeyNames k n env w =
    (match fault env (OpReadSubKeyNames k) with
     | Some e => Err e
     | None =>
         match get_store (reg w) k with
         | None => Err registry.ERROR_INVALID_HANDLE
         | Some sub => Ok (map fst sub)
         end
     end, called (OpReadSubKeyNames k) w).
Proof.
  unfold registry.ReadSubKeyNames, bind, call, get_reg, ret. simp.
  destruct (fault env _); [reflexivity |].
  destruct (get_store _ _); reflexivity.
Qed.

Lemma DeleteKey_run k p :
  registry.DeleteKey k p env w =
    (match fault env (OpDeleteKey k p) with
     | Some e => Some e
     | None =>
         match get_store (reg w) k with
         | None => Some registry.ERROR_INVALID_HANDLE
         | Some sub =>
             match assoc p sub with
             | None => Some registry.ErrNotExist
             | Some _ => None
             end
         end
     end, mkWorld (deleted env w k p) (logged w) (calls w ++ [OpDeleteKey k p])).
Proof.
  unfold registry.DeleteKey, deleted, bind, call, get_reg, put_reg, ret. simp.
  destruct (fault env _); [reflexivity |].
  destruct (get_store _ _) as [sub |]; [| reflexivity].
  destruct (assoc p sub); reflexivity.
Qed.

Lemma deleted_entry k p n :
  get_key (deleted env w k p) (Handle k n) =
    match fault env (OpDeleteKey k p) with
    | Some _ => get_key (reg w) (Handle k n)
    | None => if String.eqb p n then None else get_key (reg w) (Handle k n)
    end.
Proof.
  unfold deleted. destruct (fault env _); [reflexivity |].
  destruct (get_store (reg w) k) as [sub |] eqn:E.
  - destruct (assoc p sub) eqn:Ea.
    + rewrite (get_key_set_store _ _ _ _ _ E), assoc_remove.
      cbn [get_key]. rewrite E. reflexivity.
    + cbn [get_key]. rewrite E.
      destruct (String.eqb_spec p n) as [<- |]; [exact Ea | reflexivity].
  - cbn [get_key]. rewrite E. destruct (String.eqb p n); reflexivity.
Qed.
End Run.

Ltac run :=
  unfold bind, ask, ret, log.Errorf;
  repeat (first [ rewrite OpenKey_run | rewrite GetIntegerValue_run | rewrite Stat_run
                | rewrite ReadSubKeyNames_run | rewrite DeleteKey_run ]; simp).

(** ** The check of one key *)

Section Check.
Import winreg.
Variables (env : Env) (w : World) (store : registry.Key) (name : string).

Lemma check_open_refused (e : error) :
  fault env (OpOpenKey store name) = Some e ->
  checkCertExpiredCryptoAPI store name env w =
    ((false, Some (Errorf "Couldn't open cert registry key: %s" e)),
     called (OpOpenKey store name) w).
Proof.
  intros H. unfold checkCertExpiredCryptoAPI. run. rewrite H. reflexivity.
Qed.

Lemma check_missing :
  fault env (OpOpenKey store name) = None ->
  key_exists (reg w) (Handle store name) = false ->
  checkCertExpiredCryptoAPI store name env w =
    ((false, Some (Errorf "Couldn't open cert registry key: %s" registry.ErrNotExist)),
     called (OpOpenKey store name) w).
Proof.
  intros H K. unfold checkCertExpiredCryptoAPI. run. rewrite H, K. reflexivity.
Qed.

(** The check changes neither the registry nor the log. *)
Lemma check_pure :
  reg (exec (checkCertExpiredCryptoAPI store name) env w) = reg w /\
  logged (exec (checkCertExpiredCryptoAPI store name) env w) = logged w.
Proof.
  unfold exec, checkCertExpiredCryptoAPI.
  repeat (run; try case_match); auto.
Qed.

(** What the check answers when no call is refused. *)
Lemma check_healthy (d : KeyData) :
  healthy env -> entry w store name = Some d ->
  value (checkCertExpiredCryptoAPI store name) env w = (verdict env d, None).
Proof.
  intros Hh Hd. unfold entry in Hd.
  unfold value, checkCertExpiredCryptoAPI. run.
  rewrite Hh, (key_exists_entry _ _ _ _ Hd). run. rewrite Hh, Hd.
  unfold verdict, marked.
  destruct (values d !! cryptoAPIMagicName) as [[v | v | b | s] |]; simp;
    try reflexivity;
    destruct (v =? cryptoAPIMagicValue); simp; try reflexivity;
    run; rewrite Hh, Hd; unfold too_old; reflexivity.
Qed.

(** A positive answer is given for marked keys only. *)
Lemma check_true_marked (e : option error) :
  value (checkCertExpiredCryptoAPI store name) env w = (true, e) ->
  exists d, entry w store name = Some d /\ marked d = true.
Proof.
  unfold value, checkCertExpiredCryptoAPI.
  repeat (run; try case_match); intros Hv; cbn [fst] in Hv; try discriminate;
    simplify_eq;
    match goal with
    | Hk : get_key _ _ = Some ?k, Hm : values ?k !! _ = Some _, Hn : negb _ = false |- _ =>
        exists k; split;
        [exact Hk | unfold marked; rewrite Hm; apply negb_false_iff; exact Hn]
    end.
Qed.
End Check.

(** ** The loop of the sweep *)

Section Loop.
Import winreg.
Variables (env : Env) (store : registry.Key).

Lemma loop_cons (x : string) (rest : list string) (w : World) :
  cleanCertsLoop store (x :: rest) env w =
    let r := checkCertExpiredCryptoAPI store x env w in
    match fst r with
    | (_, Some err) => (tt, log.record "Couldn't check if cert is expired: %s" err (snd r))
    | (expired, None) =>
        cleanCertsLoop store rest env
          (if expired then after_delete store x env (snd r) else snd r)
    end.
Proof.
  cbn [cleanCertsLoop]. unfold bind at 1. cbn zeta.
  destruct (checkCertExpiredCryptoAPI store x env w) as [[b [e |]] w1]; simp.
  - reflexivity.
  - unfold bind at 1. cbn zeta. destruct b; [| reflexivity].
    unfold after_delete, bind at 1. cbn zeta.
    destruct (registry.DeleteKey store x env w1) as [[e |] w2]; reflexivity.
Qed.

Lemma after_delete_reg (x : string) (w : World) :
  reg (after_delete store x env w) = deleted env w store x.
Proof.
  unfold after_delete. rewrite DeleteKey_run. simp.
  repeat case_match; reflexivity.
Qed.

Lemma after_delete_entry (x n : string) (w : World) :
  entry (after_delete store x env w) store n =
    match fault env (OpDeleteKey store x) with
    | Some _ => entry w store n
    | None => if String.eqb x n then None else entry w store n
    end.
Proof. unfold entry. rewrite after_delete_reg. apply deleted_entry. Qed.

Lemma after_delete_logged (x : string) (w : World) (d : KeyData) :
  fault env (OpDeleteKey store x) = None -> entry w store x = Some d ->
  logged (after_delete store x env w) = logged w.
Proof.
  intros Hf Hd. unfold after_delete, entry in *. rewrite DeleteKey_run. simp.
  rewrite Hf. cbn [get_key] in Hd.
  destruct (get_store (reg w) store) as [sub |]; [| discriminate].
  rewrite Hd. reflexivity.
Qed.

Lemma check_entry (x n : string) (w : World) :
  entry (snd (checkCertExpiredCryptoAPI store x env w)) store n = entry w store n.
Proof.
  unfold entry. destruct (check_pure env w store x) as [R _].
  unfold exec in R. rewrite R. reflexivity.
Qed.

Lemma check_entry_any (x : string) (w : World) (k : Key) (n : string) :
  entry (snd (checkCertExpiredCryptoAPI store x env w)) k n = entry w k n.
Proof.
  unfold entry. destruct (check_pure env w store x) as [R _].
  unfold exec in R. rewrite R. reflexivity.
Qed.

(** The sweep keeps every key that does not carry the marker, in the
    store it sweeps and elsewhere. *)
Lemma loop_keeps_unmarked_any (names : list string) (w : World)
      (k : Key) (n : string) (d : KeyData) :
  entry w k n = Some d -> marked d = false ->
  entry (exec (cleanCertsLoop store names) env w) k n = Some d.
Proof.
  revert w. induction names as [| x rest IH]; intros w Hd Hm; [exact Hd |].
  unfold exec. rewrite loop_cons. cbn zeta.
  pose proof (check_entry_any x w k n) as Hc.
  destruct (checkCertExpiredCryptoAPI store x env w) as [[b [e |]] w1] eqn:E; simp;
    cbn [snd] in Hc.
  - unfold entry, log.record in *. simp. rewrite Hc. exact Hd.
  - apply IH; [| exact Hm]. rewrite <- Hc in Hd.
    destruct b; [| exact Hd].
    unfold entry. rewrite after_delete_reg.
    destruct (decide (store = k)) as [<- | Hne].
    + rewrite deleted_entry.
      destruct (fault env (OpDeleteKey store x)); [exact Hd |].
      destruct (String.eqb_spec x n) as [-> | Hxn]; [| exact Hd].
      destruct (check_true_marked env w store n None) as (d' & Hd' & Hm').
      { unfold value. rewrite E. reflexivity. }
      rewrite Hc in Hd. congruence.
    + rewrite deleted_entry_other by assumption. exact Hd.
Qed.

(** The sweep stops at the first key whose check fails: the names after
    it play no part. *)
Lemma loop_stops (pre : list string) (x : string) (post : list string) (w : World) (e : error) :
  fault env (OpOpenKey store x) = Some e ->
  cleanCertsLoop store (pre ++ x :: post) env w = cleanCertsLoop store (pre ++ [x]) env w.
Proof.
  intros Hf. revert w. induction pre as [| y pre IH]; intros w; cbn [app].
  - rewrite !loop_cons. cbn zeta. rewrite (check_open_refused env w store x e Hf). reflexivity.
  - rewrite !loop_cons. cbn zeta.
    destruct (checkCertExpiredCryptoAPI store y env w) as [[b [e' |]] w1]; simp;
      [reflexivity | apply IH].
Qed.

Lemma member_In (n : string) (names : list string) : member n names = true <-> n ∈ names.
Proof.
  rewrite list_elem_of_In. unfold member. rewrite existsb_exists. split.
  - intros (y & Hy & E). apply String.eqb_eq in E. subst. exact Hy.
  - intros H. exists n. split; [exact H | apply String.eqb_refl].
Qed.

(** The sweep when no call is refused: a key is deleted exactly when it
    is listed and the verdict on it is positive. *)
Lemma loop_healthy (names : list string) (w : World) :
  healthy env -> NoDup names ->
  (forall n, n ∈ names -> entry w store n <> None) ->
  logged (exec (cleanCertsLoop store names) env w) = logged w /\
  forall n, entry (exec (cleanCertsLoop store names) env w) store n =
            match entry w store n with
            | Some d => if member n names && verdict env d then None else Some d
            | None => None
            end.
Proof.
  intros Hh. revert w. induction names as [| x rest IH]; intros w Hnd Hall.
  - split; [reflexivity |]. intros n. unfold exec, member.
    cbn [cleanCertsLoop existsb andb]. unfold ret. cbn [snd].
    destruct (entry w store n); reflexivity.
  - inversion Hnd as [| ? ? Hx Hrest]; subst.
    destruct (entry w store x) as [dx |] eqn:Ex; [| destruct (Hall x ltac:(left) Ex)].
    pose proof (check_healthy env w store x dx Hh Ex) as Hv.
    pose proof (check_pure env w store x) as [_ Hl].
    unfold exec. rewrite loop_cons. cbn zeta.
    unfold value in Hv. unfold exec in Hl. rewrite Hv.
    set (w1 := snd (checkCertExpiredCryptoAPI store x env w)) in *.
    assert (E1 : forall n, entry w1 store n = entry w store n) by (intros n; apply check_entry).
    destruct (verdict env dx) eqn:V.
    + destruct (IH (after_delete store x env w1)) as [IHl IHe]; [exact Hrest | |].
      { intros n Hn. rewrite after_delete_entry, Hh, E1.
        destruct (String.eqb_spec x n) as [-> | _]; [contradiction |].
        apply Hall. right. exact Hn. }
      unfold exec in IHl, IHe. split.
      * rewrite IHl, (after_delete_logged x w1 dx), Hl; [reflexivity | apply Hh |].
        rewrite E1. exact Ex.
      * intros n. rewrite IHe, after_delete_entry, Hh, E1.
        cbn [member existsb]. rewrite (String.eqb_sym n x).
        destruct (String.eqb_spec x n) as [<- | Hne]; [| reflexivity].
        rewrite Ex, V. reflexivity.
    + destruct (IH w1) as [IHl IHe]; [exact Hrest | |].
      { intros n Hn. rewrite E1. apply Hall. right. exact Hn. }
      unfold exec in IHl, IHe. split; [rewrite IHl; exact Hl |].
      intros n. rewrite IHe, E1. cbn [member existsb]. rewrite (String.eqb_sym n x).
      destruct (String.eqb_spec x n) as [<- | Hne]; [| reflexivity].
      rewrite Ex, V, !andb_false_r. reflexivity.
Qed.
End Loop.

(** ** The sweep as a whole *)

Section Clean.
Import winreg.
Variables (env : Env) (w : World).

Lemma Store_Key_run (store : Store) : Store_Key store env w = (storePath env store, w).
Proof. reflexivity. Qed.

(** The sweep either stops before its loop, the registry untouched, or
    runs the loop over the names of the store. *)
Lemma clean_cases :
  (exists w', cleanCertsCryptoAPI env w = (tt, w') /\ reg w' = reg w) \/
  exists store w1 sub,
    cryptoAPINameToStore (cryptoAPIFlagPhysicalStoreName (flags env)) = Ok store /\
    reg w1 = reg w /\ logged w1 = logged w /\
    get_store (reg w) (certStore env store) = Some sub /\
    cleanCertsCryptoAPI env w = cleanCertsLoop (certStore env store) (map fst sub) env w1.
Proof.
  unfold cleanCertsCryptoAPI, Store_Key. unfold bind, ask, ret, log.Errorf. simp.
  destruct (cryptoAPINameToStore _) as [store | e] eqn:Es;
    [| left; eexists; split; reflexivity].
  fold (storePath env store). rewrite OpenKey_run. simp. fold (certStore env store).
  destruct (fault env (OpOpenKey _ _)); [left; eexists; split; reflexivity |].
  destruct (key_exists (reg w) (certStore env store)); [| left; eexists; split; reflexivity].
  rewrite ReadSubKeyNames_run. simp.
  destruct (fault env (OpReadSubKeyNames _)); [left; eexists; split; reflexivity |].
  destruct (get_store (reg w) (certStore env store)) as [sub |] eqn:Esub;
    [| left; eexists; split; reflexivity].
  right. exists store.
  exists (called (OpReadSubKeyNames (certStore env store))
            (called (OpOpenKey (Base store) (storePath env store)) w)).
  exists sub. repeat split; try reflexivity. exact Esub.
Qed.

Lemma clean_healthy_run (store : Store) (sub : SubKeys) :
  healthy env ->
  cryptoAPINameToStore (cryptoAPIFlagPhysicalStoreName (flags env)) = Ok store ->
  get_store (reg w) (certStore env store) = Some sub ->
  cleanCertsCryptoAPI env w =
    cleanCertsLoop (certStore env store) (map fst sub) env
      (called (OpReadSubKeyNames (certStore env store))
         (called (OpOpenKey (Base store) (storePath env store)) w)).
Proof.
  intros Hh Hs Hsub. unfold cleanCertsCryptoAPI, Store_Key.
  unfold bind, ask, ret, log.Errorf. simp.
  rewrite Hs. fold (storePath env store). rewrite OpenKey_run. simp.
  fold (certStore env store). rewrite Hh, (key_exists_store _ _ _ Hsub).
  rewrite ReadSubKeyNames_run. simp. rewrite Hh, Hsub. reflexivity.
Qed.
End Clean.

Section Sweep.
Import winreg.

Lemma assoc_names {A} (n : string) (l : list (string * A)) (a : A) :
  assoc n l = Some a -> member n (map fst l) = true.
Proof.
  unfold member. induction l as [| [m b] l IH]; cbn [assoc map fst existsb]; [discriminate |].
  rewrite (String.eqb_sym n m). destruct (String.eqb m n); [reflexivity | exact IH].
Qed.

(** The sweep as a whole when no call is refused and the names of the
    store are distinct. *)
Lemma clean_healthy (env : Env) (w : World) (store : Store) (sub : SubKeys) :
  healthy env ->
  cryptoAPINameToStore (cryptoAPIFlagPhysicalStoreName (flags env)) = Ok store ->
  get_store (reg w) (certStore env store) = Some sub ->
  NoDup (map fst sub) ->
  logged (exec cleanCertsCryptoAPI env w) = logged w /\
  forall n, entry (exec cleanCertsCryptoAPI env w) (certStore env store) n =
            match entry w (certStore env store) n with
            | Some d => if verdict env d then None else Some d
            | None => None
            end.
Proof.
  intros Hh Hs Hsub Hnd. unfold exec.
  rewrite (clean_healthy_run env w store sub Hh Hs Hsub).
  set (w1 := called _ _).
  destruct (loop_healthy env (certStore env store) (map fst sub) w1 Hh Hnd) as [Hl He].
  { intros n Hn. unfold entry, w1. cbn [get_key reg called]. rewrite Hsub.
    apply assoc_in_names. apply list_elem_of_In. exact Hn. }
  split; [exact Hl |]. intros n. unfold exec in He. rewrite He.
  unfold entry, w1. cbn [get_key reg called]. rewrite Hsub.
  destruct (assoc n sub) as [d |] eqn:Ea; [| reflexivity].
  rewrite (assoc_names n sub d Ea). reflexivity.
Qed.
End Sweep.

(** ** Ages and verdicts *)

Section Time.

Lemma Since_bound (t u : time.Time) : Z.abs (time.Since t u) <= 2 ^ 63.
Proof.
  unfold time.Since, time.Sub, time.minDuration, time.maxDuration.
  change (2 ^ 63) with 9223372036854775808.
  repeat match goal with |- context [?a <? ?b] => destruct (Z.ltb_spec a b) end; lia.
Qed.

Lemma Since_exact (t u : time.Time) :
  Z.abs (t - u) <= time.maxDuration -> time.Since t u = t - u.
Proof.
  unfold time.Since, time.Sub, time.minDuration, time.maxDuration.
  change (2 ^ 63) with 9223372036854775808. intros H.
  repeat match goal with |- context [?a <? ?b] => destruct (Z.ltb_spec a b) end; lia.
Qed.

Lemma Since_far (t u : time.Time) (x : Z) :
  x <= time.maxDuration -> x <= Z.abs (t - u) -> x <= Z.abs (time.Since t u).
Proof.
  unfold time.Since, time.Sub, time.minDuration, time.maxDuration.
  change (2 ^ 63) with 9223372036854775808. intros Hx H.
  repeat match goal with |- context [?a <? ?b] => destruct (Z.ltb_spec a b) end; lia.
Qed.

End Time.

Section Verdict.
Variables (env : Env) (d : winreg.KeyData).

Let P := certExpirePeriod (flags env).
Let age := Z.abs (now env - winreg.modTime d).

Hypothesis Hmarked : marked d = true.
Hypothesis HP : 0 <= P.

(** An age equal to the period: not expired. *)
Lemma verdict_equal :
  age = P * time.Second -> P * time.Second <= time.maxDuration ->
  verdict env d = false.
Proof.
  intros Hage Hfit. unfold verdict. rewrite Hmarked. cbn [andb].
  apply too_old_equal.
  - subst P. unfold time.maxDuration, time.Second in Hfit.
    change (2 ^ 63) with 9223372036854775808 in Hfit.
    change (2 ^ 53) with 9007199254740992. lia.
  - rewrite Since_exact; subst age P; lia.
Qed.

(** An age that exceeds the period by a second or more: expired. *)
Lemma verdict_far :
  (P + 1) * time.Second <= age -> (P + 1) * time.Second <= time.maxDuration ->
  verdict env d = true.
Proof.
  intros Hage Hfit. unfold verdict. rewrite Hmarked. cbn [andb].
  pose proof (Since_far (now env) (winreg.modTime d) _ Hfit Hage) as Hs.
  apply too_old_above; [exact HP | | apply Since_bound].
  apply Z.quot_le_lower_bound; [unfold time.Second; lia |].
  fold P. lia.
Qed.

(** Below 2^23 seconds, an age that exceeds the period: expired. *)
Lemma verdict_near :
  P < 2 ^ 23 -> P * time.Second < age -> verdict env d = true.
Proof.
  intros Hsmall Hage. unfold verdict. rewrite Hmarked. cbn [andb].
  apply too_old_just_above; [fold P; lia | | apply Since_bound].
  fold P. enough (P * time.Second + 1 <= Z.abs (time.Since (now env) (winreg.modTime d))) by lia.
  apply Since_far; [| subst age; lia].
  unfold time.maxDuration, time.Second. change (2 ^ 63) with 9223372036854775808.
  change (2 ^ 23) with 8388608 in Hsmall. lia.
Qed.
End Verdict.

Section Expiry.
Import winreg.
Variables (env : Env) (w : World) (store : Store) (sub : SubKeys).
Variables (name : string) (d : KeyData).

Hypothesis Hhealthy : healthy env.
Hypothesis Hstore :
  cryptoAPINameToStore (cryptoAPIFlagPhysicalStoreName (flags env)) = Ok store.
Hypothesis Hsub : get_store (reg w) (certStore env store) = Some sub.
Hypothesis Hnames : NoDup (map fst sub).
Hypothesis Hentry : entry w (certStore env store) name = Some d.

(** The check and the sweep follow the verdict. *)
Lemma sweep_follows_verdict :
  value (checkCertExpiredCryptoAPI (certStore env store) name) env w = (verdict env d, None) /\
  entry (exec cleanCertsCryptoAPI env w) (certStore env store) name =
    if verdict env d then None else Some d.
Proof.
  split; [apply check_healthy; assumption |].
  destruct (clean_healthy env w store sub Hhealthy Hstore Hsub Hnames) as [_ He].
  rewrite He, Hentry. reflexivity.
Qed.
End Expiry.

(** ** Writes, and the injection *)

Section Blob.

Lemma Marshal_singleton (tag : Z) (payload : list byte) :
  certblob.Marshal {[ tag := payload ]} =
    if Z.of_nat (length payload) <? 2 ^ 32 then Ok (certblob.record tag payload)
    else Err (ErrorString "EncodingOverflow").
Proof.
  unfold certblob.Marshal. rewrite map_to_list_singleton.
  cbn [forallb map concat andb]. rewrite andb_true_r, app_nil_r. reflexivity.
Qed.

Lemma record_length (tag : Z) (payload : list byte) :
  length (certblob.record tag payload) = (12 + length payload)%nat.
Proof. unfold certblob.record. rewrite !length_app. reflexivity. Qed.

End Blob.

Section Writes.
Import winreg.
Variables (env : Env) (w : World) (k : registry.Key) (p : string).

Lemma CreateKey_ok (a : Z) (sub : SubKeys) :
  fault env (OpCreateKey k p) = None ->
  get_store (reg w) k = Some sub ->
  exists w' b,
    registry.CreateKey k p a env w = (Ok (Handle k p, b), w') /\
    logged w' = logged w /\ calls w' = calls w ++ [OpCreateKey k p] /\
    entry w' k p = Some (match entry w k p with
                         | Some d => d
                         | None => mkKeyData ∅ (now env)
                         end) /\
    forall n, n <> p -> entry w' k n = entry w k n.
Proof.
  intros Hf Hs. unfold registry.CreateKey, bind, call, get_reg, put_reg, ask, ret. simp.
  rewrite Hf. simp. rewrite Hs. unfold entry. cbn [get_key]. rewrite Hs.
  destruct (assoc p sub) as [d |] eqn:Ea; simp.
  - eexists _, _. split; [reflexivity |]. simp. cbn [get_key]. rewrite Hs, Ea. auto.
  - eexists _, _. split; [reflexivity |]. simp.
    rewrite (get_set_store _ _ _ _ Hs).
    repeat split.
    + rewrite assoc_app, Ea. cbn [assoc]. rewrite String.eqb_refl. reflexivity.
    + intros n Hn. rewrite assoc_app. destruct (assoc n sub); [reflexivity |].
      cbn [assoc]. destruct (String.eqb_spec p n); [congruence | reflexivity].
Qed.

Lemma DeleteValue_any (name : string) (d : KeyData) :
  entry w k p = Some d ->
  exists w' e d',
    registry.DeleteValue (Handle k p) name env w = (e, w') /\
    logged w' = logged w /\ calls w' = calls w ++ [OpDeleteValue (Handle k p) name] /\
    entry w' k p = Some d' /\
    (forall v, <[name := v]> (values d') = <[name := v]> (values d)) /\
    (fault env (OpDeleteValue (Handle k p) name) = None ->
     values d' !! name = None /\ (values d !! name <> None -> modTime d' = now env)) /\
    forall n, n <> p -> entry w' k n = entry w k n.
Proof.
  intros Hd. unfold entry in *.
  unfold registry.DeleteValue, bind, call, get_reg, put_reg, ask, ret. simp.
  destruct (fault env _) as [e |]; simp.
  - eexists _, _, d. split; [reflexivity |]. simp. repeat split; auto; discriminate.
  - rewrite Hd. destruct (values d !! name) as [v0 |] eqn:Ev; simp.
    + eexists _, _, _. split; [reflexivity |]. simp.
      rewrite get_key_set_key, String.eqb_refl, Hd. repeat split.
      * intros v. cbn [values]. apply insert_delete_eq.
      * cbn [values]. apply lookup_delete_eq.
      * intros n Hn. rewrite get_key_set_key.
        destruct (String.eqb_spec p n); [congruence | reflexivity].
    + eexists _, _, d. split; [reflexivity |]. simp. repeat split; auto. congruence.
Qed.

Lemma setValue_refused (op : Op) (name : string) (v : Value) (e : error) :
  fault env op = Some e ->
  registry.setValue op (Handle k p) name v env w = (Some e, called op w).
Proof.
  intros Hf. unfold registry.setValue, bind, call, ret. simp. rewrite Hf. reflexivity.
Qed.

Lemma setValue_ok (op : Op) (name : string) (v : Value) (d : KeyData) :
  fault env op = None -> entry w k p = Some d ->
  exists w' t,
    registry.setValue op (Handle k p) name v env w = (None, w') /\
    logged w' = logged w /\ calls w' = calls w ++ [op] /\
    entry w' k p = Some (mkKeyData (<[name := v]> (values d)) t) /\
    (values d !! name = None -> t = now env) /\
    (t = now env \/ t = modTime d) /\
    forall n, n <> p -> entry w' k n = entry w k n.
Proof.
  intros Hf Hd. unfold entry in *.
  unfold registry.setValue, bind, call, get_reg, put_reg, ask, ret. simp.
  rewrite Hf. simp. rewrite Hd. simp. eexists _, _. split; [reflexivity |]. simp.
  rewrite get_key_set_key, String.eqb_refl, Hd. repeat split.
  - intros ->. reflexivity.
  - destruct (values d !! name) as [old |]; [| auto].
    destruct (registry.value_eqb old v); auto.
  - intros n Hn. rewrite get_key_set_key.
    destruct (String.eqb_spec p n); [congruence | reflexivity].
Qed.
End Writes.

Section Inject.
Import winreg.
Variables (env : Env) (w : World) (derBytes : list byte).
Variables (store : Store) (blobBytes : list byte) (sub : SubKeys).

Hypothesis Hstore :
  cryptoAPINameToStore (cryptoAPIFlagPhysicalStoreName (flags env)) = Ok store.
Hypothesis Hblob : certblob.Marshal {[ 0x20 := derBytes ]} = Ok blobBytes.
Hypothesis Hopen : fault env (OpOpenKey (Base store) (storePath env store)) = None.
Hypothesis Hsub : get_store (reg w) (certStore env store) = Some sub.
Hypothesis Hcreate :
  fault env (OpCreateKey (certStore env store) (fingerprintName derBytes)) = None.
Hypothesis Hmagic :
  fault env (OpSetDWordValue (certKeyOf env store derBytes)
               cryptoAPIMagicName cryptoAPIMagicValue) = None.
Hypothesis Hset :
  fault env (OpSetBinaryValue (certKeyOf env store derBytes) "Blob" blobBytes) = None.

(** An injection whose writes are accepted, whatever becomes of the
    deletion of the old marker. *)
Lemma inject_run :
  let w' := exec (injectCertCryptoAPI derBytes) env w in
  logged w' = logged w /\
  calls w' = calls w ++ inject_calls env store derBytes blobBytes /\
  (exists t,
      entry w' (certStore env store) (fingerprintName derBytes) =
        Some (mkKeyData
                (<["Blob" := BINARY blobBytes]>
                   (<[cryptoAPIMagicName := DWORD cryptoAPIMagicValue]>
                      (values (match entry w (certStore env store) (fingerprintName derBytes) with
                               | Some d => d
                               | None => mkKeyData ∅ (now env)
                               end)))) t) /\
      (fault env (OpDeleteValue (certKeyOf env store derBytes) cryptoAPIMagicName) = None ->
       t = now env)) /\
  forall n, n <> fingerprintName derBytes ->
            entry w' (certStore env store) n = entry w (certStore env store) n.
Proof.
  unfold exec, injectCertCryptoAPI, Store_Key. unfold bind, ask, ret. simp.
  rewrite Hstore. simp. rewrite Hblob. fold (storePath env store).
  rewrite OpenKey_run. simp. rewrite Hopen.
  fold (certStore env store). rewrite (key_exists_store _ _ _ Hsub). simp.
  fold (fingerprintName derBytes).
  destruct (CreateKey_ok env (called (OpOpenKey (Base store) (storePath env store)) w)
              (certStore env store) (fingerprintName derBytes) registry.ALL_ACCESS sub Hcreate Hsub)
    as (w2 & b & E2 & L2 & C2 & K2 & O2).
  rewrite E2. simp. fold (certKeyOf env store derBytes).
  destruct (DeleteValue_any env w2 (certStore env store) (fingerprintName derBytes)
              cryptoAPIMagicName _ K2)
    as (w3 & e3 & d3 & E3 & L3 & C3 & K3 & V3 & F3 & O3).
  unfold certKeyOf in *. rewrite E3. simp.
  unfold registry.SetDWordValue, registry.SetBinaryValue.
  destruct (setValue_ok env w3 (certStore env store) (fingerprintName derBytes)
              _ cryptoAPIMagicName (DWORD cryptoAPIMagicValue) d3 Hmagic K3)
    as (w4 & t4 & E4 & L4 & C4 & K4 & N4 & T4 & O4).
  rewrite E4. simp.
  destruct (setValue_ok env w4 (certStore env store) (fingerprintName derBytes)
              _ "Blob" (BINARY blobBytes) _ Hset K4)
    as (w5 & t5 & E5 & L5 & C5 & K5 & N5 & T5 & O5).
  rewrite E5. simp.
  split; [rewrite L5, L4, L3, L2; reflexivity |]. split.
  { rewrite C5, C4, C3, C2. simp. unfold inject_calls, certKeyOf.
    rewrite <- !app_assoc. reflexivity. }
  split.
  { exists t5. split.
    - rewrite K5. cbn [values]. rewrite V3. reflexivity.
    - intros Hd. destruct (F3 Hd) as [Hnone _]. cbn [modTime] in T5.
      specialize (N4 Hnone). destruct T5; congruence. }
  intros n Hn. rewrite O5, O4, O3, O2 by assumption. reflexivity.
Qed.
End Inject.

Section InjectCreates.
Import winreg.
Variables (env : Env) (w : World) (derBytes : list byte).
Variables (store : Store) (blobBytes : list byte) (sub : SubKeys).

Hypothesis Hstore :
  cryptoAPINameToStore (cryptoAPIFlagPhysicalStoreName (flags env)) = Ok store.
Hypothesis Hblob : certblob.Marshal {[ 0x20 := derBytes ]} = Ok blobBytes.
Hypothesis Hopen : fault env (OpOpenKey (Base store) (storePath env store)) = None.
Hypothesis Hsub : get_store (reg w) (certStore env store) = Some sub.
Hypothesis Hcreate :
  fault env (OpCreateKey (certStore env store) (fingerprintName derBytes)) = None.

(** An injection that gets as far as the key of the certificate,
    whatever becomes of the writes. *)
Lemma inject_creates :
  let w' := exec (injectCertCryptoAPI derBytes) env w in
  (exists rest,
      calls w' = calls w ++ [OpOpenKey (Base store) (storePath env store);
                             OpCreateKey (certStore env store) (fingerprintName derBytes)]
                           ++ rest) /\
  entry w' (certStore env store) (fingerprintName derBytes) <> None.
Proof.
  unfold exec, injectCertCryptoAPI, Store_Key. unfold bind, ask, ret. simp.
  rewrite Hstore. simp. rewrite Hblob. fold (storePath env store).
  rewrite OpenKey_run. simp. rewrite Hopen.
  fold (certStore env store). rewrite (key_exists_store _ _ _ Hsub). simp.
  fold (fingerprintName derBytes).
  destruct (CreateKey_ok env (called (OpOpenKey (Base store) (storePath env store)) w)
              (certStore env store) (fingerprintName derBytes) registry.ALL_ACCESS sub Hcreate Hsub)
    as (w2 & b & E2 & L2 & C2 & K2 & O2).
  rewrite E2. simp.
  destruct (DeleteValue_any env w2 (certStore env store) (fingerprintName derBytes)
              cryptoAPIMagicName _ K2)
    as (w3 & e3 & d3 & E3 & L3 & C3 & K3 & V3 & F3 & O3).
  rewrite E3. simp.
  unfold registry.SetDWordValue, registry.SetBinaryValue.
  destruct (fault env (OpSetDWordValue (Handle (certStore env store) (fingerprintName derBytes))
                         cryptoAPIMagicName cryptoAPIMagicValue)) as [e4 |] eqn:F4.
  { rewrite (setValue_refused env w3 _ _ _ _ _ e4 F4). unfold log.Errorf. simp. split.
    - eexists. rewrite C3, C2. simp. rewrite <- !app_assoc. reflexivity.
    - unfold entry in *. simp. rewrite K3. discriminate. }
  destruct (setValue_ok env w3 (certStore env store) (fingerprintName derBytes)
              _ cryptoAPIMagicName (DWORD cryptoAPIMagicValue) d3 F4 K3)
    as (w4 & t4 & E4 & L4 & C4 & K4 & N4 & T4 & O4).
  rewrite E4. simp.
  destruct (fault env (OpSetBinaryValue (Handle (certStore env store) (fingerprintName derBytes))
                         "Blob" blobBytes)) as [e5 |] eqn:F5.
  { rewrite (setValue_refused env w4 _ _ _ _ _ e5 F5). unfold log.Errorf. simp. split.
    - eexists. rewrite C4, C3, C2. simp. rewrite <- !app_assoc. reflexivity.
    - unfold entry in *. simp. rewrite K4. discriminate. }
  destruct (setValue_ok env w4 (certStore env store) (fingerprintName derBytes)
              _ "Blob" (BINARY blobBytes) _ F5 K4)
    as (w5 & t5 & E5 & L5 & C5 & K5 & N5 & T5 & O5).
  rewrite E5. simp. split.
  - eexists. rewrite C5, C4, C3, C2. simp. rewrite <- !app_assoc. reflexivity.
  - rewrite K5. discriminate.
Qed.
End InjectCreates.

(** ** Upper bounds in binary64 *)

Section Binary64Upper.

Local Abbreviation digits p := (Zpos (digits2_pos p)).

Lemma shr_1_exact (k : Z) :
  0 <= k ->
  shr_1 {| shr_m := 2 * k; shr_r := false; shr_s := false |} =
    {| shr_m := k; shr_r := false; shr_s := false |}.
Proof. intros Hk. destruct k as [| p | p]; [reflexivity | reflexivity | lia]. Qed.

Lemma iter_shr_1_exact (p : positive) (m : Z) :
  0 <= m ->
  SpecFloat.iter_pos shr_1 p {| shr_m := m * 2 ^ Zpos p; shr_r := false; shr_s := false |} =
    {| shr_m := m; shr_r := false; shr_s := false |}.
Proof.
  revert m. induction p as [p IH | p IH |]; intros m Hm; cbn [SpecFloat.iter_pos].
  - assert (Hp : 0 < 2 ^ Zpos p) by (apply Z.pow_pos_nonneg; lia).
    replace (m * 2 ^ Zpos p~1) with (2 * ((m * 2 ^ Zpos p) * 2 ^ Zpos p)).
    + rewrite shr_1_exact by nia. rewrite IH by nia. apply IH. exact Hm.
    + rewrite (Pos2Z.inj_xI p).
      replace (2 * Z.pos p + 1) with (1 + Z.pos p + Z.pos p) by lia.
      rewrite !Z.pow_add_r by lia. change (2 ^ 1) with 2. lia.
  - assert (Hp : 0 < 2 ^ Zpos p) by (apply Z.pow_pos_nonneg; lia).
    replace (m * 2 ^ Zpos p~0) with ((m * 2 ^ Zpos p) * 2 ^ Zpos p).
    + rewrite IH by nia. apply IH. exact Hm.
    + rewrite (Pos2Z.inj_xO p).
      replace (2 * Z.pos p) with (Z.pos p + Z.pos p) by lia.
      rewrite Z.pow_add_r by lia. lia.
  - replace (m * 2 ^ 1) with (2 * m) by (change (2 ^ 1) with 2; lia).
    apply shr_1_exact. exact Hm.
Qed.

(** Shifting out zeros leaves an exact record. *)
Lemma shr_exact (m e n : Z) :
  0 <= n -> 0 <= m ->
  shr {| shr_m := m * 2 ^ n; shr_r := false; shr_s := false |} e n =
    ({| shr_m := m; shr_r := false; shr_s := false |}, e + n).
Proof.
  intros Hn Hm. destruct n as [| p | p]; cbn [shr]; try lia.
  - rewrite Z.mul_1_r, Z.add_0_r. reflexivity.
  - rewrite iter_shr_1_exact by assumption. reflexivity.
Qed.

(** Rounding a number that does not exceed a normal number does not
    exceed it. *)
Lemma round_aux_upper (sx : bool) (Mp : positive) (ez : Z) (l : location)
      (m1 : positive) (e1 : Z) :
  digits m1 = 53 -> e1 <= 971 -> ez <= e1 ->
  53 <= digits Mp -> -1074 <= digits Mp + ez - 53 ->
  Zpos Mp < Zpos m1 * 2 ^ (e1 - ez) \/ (Zpos Mp <= Zpos m1 * 2 ^ (e1 - ez) /\ l = loc_Exact) ->
  at_most (binary_round_aux 53 1024 sx (Zpos Mp) ez l) sx m1 e1.
Proof.
  intros Hd He1 Hez HD53 Hnorm HM.
  pose proof (digits2_pos_bounds m1) as [Hm1lo Hm1hi]. rewrite Hd in Hm1lo, Hm1hi.
  change (53 - 1) with 52 in Hm1lo.
  assert (Hpow : 0 < 2 ^ (e1 - ez)) by (apply Z.pow_pos_nonneg; lia).
  pose proof (digits2_pos_bounds Mp) as [HMlo HMhi].
  set (n := digits Mp - 53) in *.
  assert (Hn : 0 <= n) by (subst n; lia).
  assert (HMle : Zpos Mp <= Zpos m1 * 2 ^ (e1 - ez)) by lia.
  assert (Hne : n <= e1 - ez).
  { destruct (Z.le_gt_cases n (e1 - ez)) as [H | H]; [exact H |].
    assert (2 ^ (53 + (e1 - ez)) <= 2 ^ (digits Mp - 1)) by (apply Z.pow_le_mono_r; lia).
    rewrite Z.pow_add_r in * by lia. nia. }
  unfold binary_round_aux.
  destruct (shr_fexp 53 1024 (Zpos Mp) ez l) as [r1 e'] eqn:E1.
  unfold shr_fexp, fexp, emin in E1. cbn [Zdigits2] in E1.
  replace (Z.max (digits Mp + ez - 53) (3 - 1024 - 53) - ez) with n in E1 by lia.
  destruct (shr_spec (shr_record_of_loc (Zpos Mp) l) ez n) as [S1 S2];
    [lia | rewrite shr_record_of_loc_m; lia |].
  rewrite E1 in S1, S2. cbn [fst snd] in S1, S2. rewrite shr_record_of_loc_m in S1.
  assert (E52 : 2 ^ (digits Mp - 1) = 2 ^ n * 2 ^ 52)
    by (rewrite <- Z.pow_add_r by lia; f_equal; lia).
  assert (E53 : 2 ^ digits Mp = 2 ^ n * 2 ^ 53)
    by (rewrite <- Z.pow_add_r by lia; f_equal; lia).
  assert (Hp2 : 0 < 2 ^ n) by (apply Z.pow_pos_nonneg; lia).
  assert (Hmt : 2 ^ 52 <= shr_m r1 < 2 ^ 53).
  { rewrite S1. split.
    - apply Z.div_le_lower_bound; lia.
    - apply Z.div_lt_upper_bound; lia. }
  set (mr := round_nearest_even (shr_m r1) (loc_of_shr_record r1)).
  assert (Hmr : shr_m r1 <= mr <= shr_m r1 + 1)
    by (destruct (round_nearest_even_cases (shr_m r1) (loc_of_shr_record r1)); subst mr; lia).
  assert (Hle : e' = e1 -> mr <= Zpos m1).
  { intros He. assert (Hn1 : e1 - ez = n) by lia. rewrite Hn1 in HM, HMle.
    destruct HM as [Hlt | [_ ->]].
    - enough (shr_m r1 < Zpos m1) by lia.
      rewrite S1. apply Z.div_lt_upper_bound; lia.
    - destruct (Z.eq_dec (Zpos Mp) (Zpos m1 * 2 ^ n)) as [Heq | Hneq].
      + cbn [shr_record_of_loc] in E1. rewrite Heq, shr_exact in E1 by lia.
        injection E1 as <- _. subst mr. cbn. lia.
      + enough (shr_m r1 < Zpos m1) by lia.
        rewrite S1. apply Z.div_lt_upper_bound; lia. }
  destruct mr as [| mrp | mrp] eqn:Emr; try lia.
  destruct (Z.eq_dec (Zpos mrp) (2 ^ 53)) as [Hcarry | Hnocarry].
  - assert (mrp = 9007199254740992%positive)
      by (change (2 ^ 53) with 9007199254740992 in Hcarry; lia).
    subst mrp. unfold shr_fexp, fexp, emin. cbn [Zdigits2 shr_record_of_loc].
    change (digits 9007199254740992) with 54.
    replace (Z.max (54 + e' - 53) (3 - 1024 - 53) - e') with 1 by lia.
    cbn [shr SpecFloat.iter_pos shr_1 shr_m].
    assert (He' : e' + 1 <= e1).
    { destruct (Z.eq_dec e' e1) as [He | He]; [| lia].
      specialize (Hle He). change (2 ^ 53) with 9007199254740992 in Hm1hi. lia. }
    replace (e' + 1 <=? 1024 - 53) with true by (symmetry; apply Z.leb_le; lia).
    right. eexists _, _. split; [reflexivity | split; [reflexivity |]].
    destruct (Z.eq_dec (e' + 1) e1); [right | left]; [| lia].
    split; [assumption |]. change (2 ^ 52) with 4503599627370496 in Hm1lo. lia.
  - assert (Hdr : digits mrp = 53) by (apply digits2_pos_unique; lia).
    unfold shr_fexp, fexp, emin. cbn [Zdigits2 shr_record_of_loc]. rewrite Hdr.
    replace (Z.max (53 + e' - 53) (3 - 1024 - 53) - e') with 0 by lia.
    cbn [shr shr_m].
    replace (e' <=? 1024 - 53) with true by (symmetry; apply Z.leb_le; lia).
    right. eexists _, _. split; [reflexivity | split; [exact Hdr |]].
    destruct (Z.eq_dec e' e1) as [He | He]; [right | left]; [| lia].
    split; [exact He | apply Hle; exact He].
Qed.


Lemma at_most_abs (f : spec_float) (sx : bool) (m : positive) (e : Z) :
  at_most f sx m e -> at_most (SFabs f) false m e.
Proof.
  intros [[s0 ->] | (m' & e' & -> & H)]; [left; exists false; reflexivity |].
  right. exists m', e'. split; [reflexivity | exact H].
Qed.

(** A float that is at most a number is not above a float that is at
    least this number. *)
Lemma not_lt_between (g f : spec_float) (m : positive) (e : Z) :
  at_least g false m e -> at_most f false m e -> SFltb g f = false.
Proof.
  intros [-> | (mg & eg & -> & _ & Hg)] [[s0 ->] | (mf & ef & -> & _ & Hf)];
    try reflexivity.
  unfold SFltb, SFcompare.
  destruct (Z.compare_spec eg ef) as [Heq | Hlt | Hgt]; [| lia | reflexivity].
  assert (Hm : (mf <= mg)%positive) by (apply Pos2Z.pos_le_pos; lia).
  rewrite Pos.compare_cont_spec. cbn [Pos.switch_Eq].
  destruct (Pos.compare_spec mg mf); [reflexivity | lia | reflexivity].
Qed.

(** The conversion of an integer is at least any smaller integer that a
    float holds exactly. *)
Lemma of_int_lower (P : Z) (x mX : positive) :
  Zpos x <= P -> Zpos x < 2 ^ 53 ->
  Zpos mX = Zpos x * 2 ^ (53 - digits x) ->
  at_least (float64.of_int P) false mX (digits x - 53).
Proof.
  intros HP Hx HmX. destruct P as [| p | p]; try lia.
  pose proof (digits_le_53 x Hx) as Hdx.
  pose proof (digits2_pos_bounds x) as [Hxlo _].
  destruct (Z.lt_ge_cases (Zpos p) (2 ^ 53)) as [Hp | Hp].
  - destruct (of_int_exact false p Hp) as (mP & E & HmP & HdP).
    cbn [cond_Zopp] in E. rewrite E.
    pose proof (digits_mono x p HP) as Hmono.
    pose proof (digits_le_53 p Hp) as Hdp.
    right. exists mP, (digits p - 53). split; [reflexivity | split; [exact HdP |]].
    destruct (Z.eq_dec (digits x) (digits p)) as [He | He]; [right | left; lia].
    split; [lia |]. rewrite HmX, HmP, He.
    assert (0 < 2 ^ (53 - digits p)) by (apply Z.pow_pos_nonneg; lia). nia.
  - apply at_least_weaken with (m1 := 4503599627370496%positive) (e1 := 1); [| lia].
    unfold float64.of_int, float64.prec, float64.emax, binary_normalize.
    apply binary_round_lower; [reflexivity | lia | lia |].
    change (2 ^ 53) with 9007199254740992 in Hp. change (2 ^ (1 - 0)) with 2. lia.
Qed.

(** The quotient of a number of nanoseconds below 10^9 by 10^9 is at
    most 1. *)
Lemma div_upper (sx : bool) (pn : positive) :
  Zpos pn < 1000000000 ->
  at_most (float64.div (float64.of_int (cond_Zopp sx (Zpos pn)))
                       (float64.of_int 1000000000))
          sx 4503599627370496 (-52).
Proof.
  intros Hn. destruct (of_int_exact sx pn) as (mn & E & Hmn & Hdm); [lia |].
  pose proof (digits2_pos_bounds pn) as [Hlo _].
  pose proof (digits2_pos_bounds mn) as [Hmlo _]. rewrite Hdm in Hmlo.
  assert (H1 : 1 <= digits pn) by lia.
  assert (H30 : digits pn <= 30).
  { destruct (Z.le_gt_cases (digits pn) 30) as [H | H]; [exact H |].
    assert (2 ^ 30 <= 2 ^ (digits pn - 1)) by (apply Z.pow_le_mono_r; lia).
    change (2 ^ 30) with 1073741824 in *. lia. }
  rewrite E, of_int_billion. unfold float64.div, float64.prec, float64.emax, SFdiv.
  unfold SFdiv_core_binary, fexp, emin. cbn [Zdigits2]. rewrite Hdm.
  change (digits 8388608000000000) with 53.
  set (en := digits pn - 53).
  replace (Z.min (Z.max (53 + en - (53 + -23) - 53) (3 - 1024 - 53)) (en - -23))
    with (en - 30) by lia.
  replace (en - -23 - (en - 30)) with 53 by lia.
  cbn match. rewrite Z.shiftl_mul_pow2 by lia.
  destruct (Z.div_eucl (Zpos mn * 2 ^ 53) (Zpos 8388608000000000)) as [q0 r] eqn:Eq.
  assert (Hq : q0 = Zpos mn * 2 ^ 53 / Zpos 8388608000000000)
    by (unfold Z.div; rewrite Eq; reflexivity).
  rewrite xorb_false_r.
  change (53 - 1) with 52 in Hmlo. change (2 ^ 52) with 4503599627370496 in Hmlo.
  assert (Hq52 : 2 ^ 52 <= q0).
  { rewrite Hq. apply Z.div_le_lower_bound; [lia |].
    change (2 ^ 52) with 4503599627370496. change (2 ^ 53) with 9007199254740992. lia. }
  assert (HX : 0 < 2 ^ (31 - digits pn)) by (apply Z.pow_pos_nonneg; lia).
  assert (Hsplit : 2 ^ (53 - digits pn) = 2 ^ 22 * 2 ^ (31 - digits pn))
    by (rewrite <- Z.pow_add_r by lia; f_equal; lia).
  assert (Hqup : q0 < Zpos 4503599627370496 * 2 ^ (31 - digits pn)).
  { rewrite Hq. apply Z.div_lt_upper_bound; [lia |].
    rewrite Hmn, Hsplit.
    change (2 ^ 53) with 9007199254740992. change (2 ^ 22) with 4194304. nia. }
  destruct q0 as [| q0 | q0]; try (change (2 ^ 52) with 4503599627370496 in Hq52; lia).
  pose proof (digits2_pos_lower q0 52 Hq52) as Hdq.
  apply round_aux_upper; [reflexivity | lia | subst en; lia | lia | subst en; lia |].
  left. replace (-52 - (en - 30)) with (31 - digits pn) by (subst en; lia). exact Hqup.
Qed.

(** Adding a number of the same sign that is at most 1 to an integer
    gives at most the next integer. *)
Lemma add_upper (sx : bool) (q ms mq : positive) (e2 : Z) (x mX : positive) :
  Zpos q < 2 ^ 52 ->
  Zpos ms = Zpos q * 2 ^ (53 - digits q) ->
  -1074 <= e2 -> e2 < -52 \/ (e2 = -52 /\ Zpos mq <= 2 ^ 52) -> digits mq = 53 ->
  Zpos x = Zpos q + 1 -> Zpos mX = Zpos x * 2 ^ (53 - digits x) -> digits mX = 53 ->
  at_most (SFadd 53 1024 (S754_finite sx ms (digits q - 53)) (S754_finite sx mq e2))
          sx mX (digits x - 53).
Proof.
  intros Hq Hms He2 Hle Hdq Hx HmX HdX.
  pose proof (digits2_pos_bounds q) as [Hqlo Hqhi].
  pose proof (digits2_pos_bounds mq) as [_ Hmqhi]. rewrite Hdq in Hmqhi.
  assert (Hdq53 : digits q <= 53)
    by (apply digits_le_53; change (2 ^ 53) with 9007199254740992;
        change (2 ^ 52) with 4503599627370496 in Hq; lia).
  assert (Hdq1 : 1 <= digits q) by lia.
  assert (Hx53 : Zpos x < 2 ^ 53)
    by (change (2 ^ 53) with 9007199254740992;
        change (2 ^ 52) with 4503599627370496 in Hq; lia).
  pose proof (digits_le_53 x Hx53) as Hdx53.
  pose proof (digits_mono q x ltac:(lia)) as Hmono.
  unfold SFadd, binary_normalize.
  replace (Z.min (digits q - 53) e2) with e2 by lia.
  set (a := fst (shl_align ms (digits q - 53) e2)).
  set (b := fst (shl_align mq e2 e2)).
  assert (Ha : Zpos a = Zpos ms * 2 ^ (digits q - 53 - e2)) by (apply shl_align_fst; lia).
  assert (Hb : Zpos b = Zpos mq)
    by (unfold b; rewrite shl_align_fst by lia; rewrite Z.sub_diag; lia).
  assert (Ha' : Zpos a = Zpos q * 2 ^ (- e2)).
  { rewrite Ha, Hms, <- Z.mul_assoc, <- Z.pow_add_r by lia. do 2 f_equal. lia. }
  assert (HX' : Zpos mX * 2 ^ (digits x - 53 - e2) = (Zpos q + 1) * 2 ^ (- e2)).
  { rewrite HmX, Hx, <- Z.mul_assoc, <- Z.pow_add_r by lia. do 2 f_equal. lia. }
  assert (Hbb : Zpos b <= 2 ^ (- e2)).
  { rewrite Hb. destruct Hle as [Hlt | [-> Hm]]; [| exact Hm].
    assert (2 ^ 53 <= 2 ^ (- e2)) by (apply Z.pow_le_mono_r; lia). lia. }
  assert (Hsum : cond_Zopp sx (Zpos a) + cond_Zopp sx (Zpos b) = cond_Zopp sx (Zpos (a + b)))
    by (destruct sx; cbn [cond_Zopp]; lia).
  rewrite Hsum.
  assert (HD : 53 <= digits (a + b)).
  { enough (52 < digits (a + b)) by lia. apply digits2_pos_lower.
    rewrite Pos2Z.inj_add, Ha.
    pose proof (digits2_pos_bounds ms) as [Hmslo _].
    assert (Hdms : digits ms = 53).
    { apply digits2_pos_unique. rewrite Hms.
      assert (E1 : 2 ^ (53 - 1) = 2 ^ (digits q - 1) * 2 ^ (53 - digits q))
        by (rewrite <- Z.pow_add_r by lia; f_equal; lia).
      assert (E2 : 2 ^ 53 = 2 ^ digits q * 2 ^ (53 - digits q))
        by (rewrite <- Z.pow_add_r by lia; f_equal; lia).
      assert (0 < 2 ^ (53 - digits q)) by (apply Z.pow_pos_nonneg; lia).
      rewrite E1, E2. nia. }
    rewrite Hdms in Hmslo. change (53 - 1) with 52 in Hmslo.
    assert (0 < 2 ^ (digits q - 53 - e2)) by (apply Z.pow_pos_nonneg; lia). nia. }
  assert (Hround : at_most (binary_round 53 1024 sx (a + b) e2) sx mX (digits x - 53)).
  { unfold binary_round, shl_align, fexp, emin.
    destruct (Z.max (digits (a + b) + e2 - 53) (3 - 1024 - 53) - e2) as [| k | k] eqn:K;
      try lia;
      (apply round_aux_upper; [exact HdX | lia | lia | exact HD | lia |];
       right; split; [| reflexivity];
       rewrite HX', Pos2Z.inj_add, Ha'; lia). }
  destruct sx; cbn [cond_Zopp Z.opp]; exact Hround.
Qed.

(** The number of seconds of a duration, as a float, is at most the
    integer above its whole seconds. *)
Lemma Seconds_upper (sx : bool) (a : Z) (x mX : positive) :
  0 <= a -> a <= 2 ^ 63 ->
  Zpos x = Z.quot a time.Second + 1 ->
  Zpos mX = Zpos x * 2 ^ (53 - digits x) -> digits mX = 53 ->
  at_most (time.Seconds (cond_Zopp sx a)) sx mX (digits x - 53).
Proof.
  intros Ha H63 Hx HmX HdX.
  pose proof (Z.quot_rem' a time.Second) as Hqr.
  pose proof (Z.rem_bound_pos a time.Second Ha ltac:(unfold time.Second; lia)) as Hr.
  assert (Hs0 : 0 <= Z.quot a time.Second) by (apply Z.quot_pos; unfold time.Second; lia).
  assert (Hs52 : Z.quot a time.Second < 2 ^ 52).
  { unfold time.Second in *. change (2 ^ 63) with 9223372036854775808 in H63.
    change (2 ^ 52) with 4503599627370496. lia. }
  unfold time.Seconds.
  rewrite quot_cond_Zopp, rem_cond_Zopp by (unfold time.Second; lia).
  destruct (Z.quot a time.Second) as [| q | q] eqn:Q; try lia;
    destruct (Z.rem a time.Second) as [| pn | pn] eqn:R; try lia;
    unfold time.Second in Hr.
  - left. exists false. destruct sx; reflexivity.
  - replace (float64.of_int (cond_Zopp sx 0)) with (S754_zero false)
      by (destruct sx; reflexivity).
    assert (x = 1%positive) by lia. subst x.
    assert (mX = 4503599627370496%positive) by (cbn in HmX; lia). subst mX.
    pose proof (div_upper sx pn ltac:(lia)) as Hq.
    destruct Hq as [[s0 Hz] | (m & e & Hf & H)].
    + left. rewrite Hz. exists false. destruct s0; reflexivity.
    + right. rewrite Hf. exists m, e. split; [reflexivity | exact H].
  - replace (float64.div (float64.of_int (cond_Zopp sx 0)) (float64.of_int 1000000000))
      with (S754_zero false) by (destruct sx; reflexivity).
    destruct (of_int_exact sx q) as (ms & E & Hms & Hdms);
      [change (2 ^ 53) with 9007199254740992; change (2 ^ 52) with 4503599627370496 in Hs52; lia |].
    rewrite E. unfold float64.add. cbn [SFadd].
    assert (Hx53 : Zpos x < 2 ^ 53)
      by (change (2 ^ 53) with 9007199254740992;
          change (2 ^ 52) with 4503599627370496 in Hs52; lia).
    pose proof (digits_le_53 x Hx53) as Hdx53.
    pose proof (digits_mono q x ltac:(lia)) as Hmono.
    right. exists ms, (digits q - 53). split; [reflexivity | split; [exact Hdms |]].
    destruct (Z.eq_dec (digits q) (digits x)) as [He | He]; [right | left; lia].
    split; [lia |]. rewrite Hms, HmX, He.
    assert (0 < 2 ^ (53 - digits x)) by (apply Z.pow_pos_nonneg; lia). nia.
  - destruct (of_int_exact sx q) as (ms & E & Hms & Hdms);
      [change (2 ^ 53) with 9007199254740992; change (2 ^ 52) with 4503599627370496 in Hs52; lia |].
    rewrite E.
    pose proof (div_upper sx pn ltac:(lia)) as Hq.
    pose proof (div_lower sx pn ltac:(lia)) as Hql.
    destruct Hq as [[s0 Hz] | (mq & e2 & Hf & Hdq & Hle)].
    + rewrite Hz in Hql. destruct Hql as [Hql | (? & ? & Hql & _)]; discriminate Hql.
    + rewrite Hf in Hql |- *.
      assert (He2 : -1074 <= e2).
      { destruct Hql as [Hql | (m' & e' & Hql & _ & Hord)]; [discriminate Hql |].
        injection Hql as <- <-. lia. }
      unfold float64.add, float64.prec, float64.emax.
      apply add_upper with (q := q); try assumption; lia.
Qed.

(** A duration that does not exceed the period, in either direction, is
    not too old. *)
Lemma too_old_below (d P : Z) :
  0 <= P -> Z.abs d <= P * time.Second -> Z.abs d <= 2 ^ 63 -> too_old d P = false.
Proof.
  intros HP Hd H63.
  pose proof (Z.quot_rem' (Z.abs d) time.Second) as Hqr.
  pose proof (Z.rem_bound_pos (Z.abs d) time.Second ltac:(lia) ltac:(unfold time.Second; lia)) as Hr.
  assert (Hs0 : 0 <= Z.quot (Z.abs d) time.Second)
    by (apply Z.quot_pos; unfold time.Second; lia).
  destruct (Z.le_gt_cases P (Z.quot (Z.abs d) time.Second)) as [Hge | Hlt].
  { apply too_old_equal.
    - unfold time.Second in *. change (2 ^ 63) with 9223372036854775808 in H63.
      change (2 ^ 53) with 9007199254740992. lia.
    - unfold time.Second in *. nia. }
  set (s := Z.quot (Z.abs d) time.Second) in *.
  assert (Hs34 : s + 1 < 2 ^ 53).
  { unfold time.Second in *. change (2 ^ 63) with 9223372036854775808 in H63.
    change (2 ^ 53) with 9007199254740992. lia. }
  destruct (s + 1) as [| x | x] eqn:X; try lia.
  destruct (of_int_exact false x Hs34) as (mX & _ & HmX & HdX).
  pose proof (Seconds_upper (d <? 0) (Z.abs d) x mX ltac:(lia) H63 ltac:(fold s; lia) HmX HdX)
    as Hup.
  rewrite <- cond_Zopp_abs in Hup.
  unfold too_old, float64.gt, math.Abs.
  apply not_lt_between with (m := mX) (e := digits x - 53).
  - apply of_int_lower; [lia | exact Hs34 | exact HmX].
  - apply at_most_abs with (sx := (d <? 0)). exact Hup.
Qed.

(** Below 2^23 seconds the comparison is that of the nanoseconds. *)
Lemma too_old_exact (d P : Z) :
  0 <= P < 2 ^ 23 -> Z.abs d <= 2 ^ 63 ->
  too_old d P = (P * time.Second <? Z.abs d).
Proof.
  intros HP H63. destruct (Z.ltb_spec (P * time.Second) (Z.abs d)) as [H | H].
  - apply too_old_just_above; assumption.
  - apply too_old_below; [lia | exact H | exact H63].
Qed.

(** The conversion of a negative integer is negative. *)
Lemma of_int_negative (P : Z) :
  P < 0 ->
  float64.of_int P = S754_infinity true \/ exists m e, float64.of_int P = S754_finite true m e.
Proof.
  intros HP. destruct P as [| p | p]; try lia.
  destruct (Z.lt_ge_cases (Zpos p) (2 ^ 53)) as [Hp | Hp].
  - destruct (of_int_exact true p Hp) as (m & E & _). cbn [cond_Zopp Z.opp] in E.
    right. eauto.
  - assert (H : at_least (float64.of_int (Zneg p)) true 4503599627370496 1).
    { unfold float64.of_int, float64.prec, float64.emax, binary_normalize.
      apply binary_round_lower; [reflexivity | lia | lia |].
      change (2 ^ 53) with 9007199254740992 in Hp. change (2 ^ (1 - 0)) with 2. lia. }
    destruct H as [H | (m & e & H & _)]; [left; exact H | right; eauto].
Qed.

(** The absolute value of a number of seconds: a zero, a positive
    number or the positive infinity. *)
Lemma Seconds_abs (d : Z) :
  Z.abs d <= 2 ^ 63 -> of_sign (SFabs (time.Seconds d)) false.
Proof.
  intros H63.
  pose proof (Z.quot_rem' (Z.abs d) time.Second) as Hqr.
  pose proof (Z.rem_bound_pos (Z.abs d) time.Second ltac:(lia) ltac:(unfold time.Second; lia)) as Hr.
  assert (Hs0 : 0 <= Z.quot (Z.abs d) time.Second)
    by (apply Z.quot_pos; unfold time.Second; lia).
  destruct (Z.quot (Z.abs d) time.Second) as [| q | q] eqn:Q; try lia.
  - rewrite (cond_Zopp_abs d). set (sx := d <? 0). unfold time.Seconds.
    rewrite quot_cond_Zopp, rem_cond_Zopp, Q by (unfold time.Second; lia).
    replace (float64.of_int (cond_Zopp sx 0)) with (S754_zero false)
      by (destruct sx; reflexivity).
    destruct (fraction_sign sx (Z.rem (Z.abs d) time.Second) Hr)
      as [-> | [-> | [-> | (m & e & ->)]]]; unfold of_sign; cbn; eauto.
    destruct sx; cbn; eauto.
  - assert (Hq53 : Zpos q < 2 ^ 53).
    { unfold time.Second in *. change (2 ^ 63) with 9223372036854775808 in H63.
      change (2 ^ 53) with 9007199254740992. lia. }
    destruct (Seconds_lower (d <? 0) (Z.abs d) q) as (m1 & _ & Hat);
      [lia | exact Q | exact Hq53 |].
    rewrite <- cond_Zopp_abs in Hat.
    destruct Hat as [-> | (m & e & -> & _)]; unfold of_sign; cbn; eauto.
Qed.

(** With a negative period every duration is too old. *)
Lemma too_old_negative (d P : Z) :
  P < 0 -> Z.abs d <= 2 ^ 63 -> too_old d P = true.
Proof.
  intros HP H63. unfold too_old, float64.gt, math.Abs.
  destruct (Seconds_abs d H63) as [-> | [-> | (m & e & ->)]];
    destruct (of_int_negative P HP) as [-> | (m' & e' & ->)]; reflexivity.
Qed.

End Binary64Upper.

(** ** Saturated ages and the limits of the period *)

Section Saturation.
Import winreg.

Lemma Since_le (t u : time.Time) : Z.abs (time.Since t u) <= Z.abs (t - u).
Proof.
  unfold time.Since, time.Sub, time.minDuration, time.maxDuration.
  change (2 ^ 63) with 9223372036854775808.
  repeat match goal with |- context [?a <? ?b] => destruct (Z.ltb_spec a b) end; lia.
Qed.

(** Saturation does not change the side of a bound below the largest
    duration on which an age lies. *)
Lemma Since_ltb (t u : time.Time) (x : Z) :
  0 <= x < time.maxDuration ->
  (x <? Z.abs (time.Since t u)) = (x <? Z.abs (t - u)).
Proof.
  unfold time.Since, time.Sub, time.minDuration, time.maxDuration.
  change (2 ^ 63) with 9223372036854775808. intros Hx.
  repeat match goal with
         | |- context [if ?a <? ?b then _ else _] => destruct (Z.ltb_spec a b)
         end;
    repeat match goal with |- context [?a <? ?b] => destruct (Z.ltb_spec a b) end; lia.
Qed.

Lemma verdict_fresh (env : Env) (d : KeyData) :
  0 <= certExpirePeriod (flags env) ->
  Z.abs (now env - modTime d) <= certExpirePeriod (flags env) * time.Second ->
  verdict env d = false.
Proof.
  intros HP Hage. unfold verdict. apply andb_false_iff. right.
  pose proof (Since_le (now env) (modTime d)).
  apply too_old_below; [exact HP | lia | apply Since_bound].
Qed.

Lemma verdict_exact (env : Env) (d : KeyData) :
  0 <= certExpirePeriod (flags env) < 2 ^ 23 ->
  verdict env d =
    marked d && (certExpirePeriod (flags env) * time.Second <? Z.abs (now env - modTime d)).
Proof.
  intros HP. unfold verdict. f_equal.
  rewrite too_old_exact by (try apply Since_bound; exact HP).
  apply Since_ltb. unfold time.maxDuration, time.Second.
  change (2 ^ 63) with 9223372036854775808. change (2 ^ 23) with 8388608 in HP. lia.
Qed.

Lemma verdict_negative (env : Env) (d : KeyData) :
  certExpirePeriod (flags env) < 0 -> verdict env d = marked d.
Proof.
  intros HP. unfold verdict.
  rewrite too_old_negative by (try apply Since_bound; exact HP). apply andb_true_r.
Qed.

(** The largest period that fits in a duration: past it by a second or
    more, an age is too old even where the duration saturates. *)
Lemma verdict_beyond (env : Env) (d : KeyData) :
  marked d = true ->
  0 <= certExpirePeriod (flags env) ->
  certExpirePeriod (flags env) * time.Second <= time.maxDuration ->
  (certExpirePeriod (flags env) + 1) * time.Second <= Z.abs (now env - modTime d) ->
  verdict env d = true.
Proof.
  intros Hm HP Hfit Hage.
  destruct (Z.le_gt_cases ((certExpirePeriod (flags env) + 1) * time.Second) time.maxDuration)
    as [Hin | Hout].
  { apply verdict_far; assumption. }
  assert (HPv : certExpirePeriod (flags env) = 9223372036).
  { unfold time.maxDuration, time.Second in *.
    change (2 ^ 63) with 9223372036854775808 in *. lia. }
  unfold verdict. rewrite Hm, HPv. cbn [andb].
  assert (Hs : time.Since (now env) (modTime d) = time.maxDuration \/
               time.Since (now env) (modTime d) = time.minDuration).
  { rewrite HPv in Hage. revert Hage.
    unfold time.Since, time.Sub, time.minDuration, time.maxDuration, time.Second.
    change (2 ^ 63) with 9223372036854775808. intros Hage.
    repeat match goal with |- context [?a <? ?b] => destruct (Z.ltb_spec a b) end;
      auto; lia. }
  destruct Hs as [-> | ->]; vm_compute; reflexivity.
Qed.

(** A period that does not fit in a duration is never exceeded. *)
Lemma verdict_never (env : Env) (d : KeyData) :
  time.maxDuration < certExpirePeriod (flags env) * time.Second ->
  verdict env d = false.
Proof.
  intros Hout. unfold verdict. apply andb_false_iff. right.
  pose proof (Since_bound (now env) (modTime d)) as Hb.
  apply too_old_below; [| | exact Hb];
    unfold time.maxDuration, time.Second in *;
    change (2 ^ 63) with 9223372036854775808 in *; lia.
Qed.
End Saturation.

(** * The claims *)

Import winreg.

(** [C1], as the code has it.  When the check of the key [x] fails, be it
    that the key cannot be opened or that its metadata cannot be read, the
    loop of the sweep logs the error and returns: the names after [x] play
    no part.  When [OpenKey] is refused for [x] this holds whatever
    precedes [x] in the enumeration.  The claim asks for the remaining
    names to be processed. *)
Theorem sweep_stops_at_failed_entry
    (env : Env) (w : World) (store : registry.Key) (x : string) (post : list string) :
  (forall b err,
      value (checkCertExpiredCryptoAPI store x) env w = (b, Some err) ->
      cleanCertsLoop store (x :: post) env w =
        (tt, log.record "Couldn't check if cert is expired: %s" err
               (exec (checkCertExpiredCryptoAPI store x) env w))) /\
  (forall e,
      fault env (OpOpenKey store x) = Some e ->
      exec (checkCertExpiredCryptoAPI store x) env w = called (OpOpenKey store x) w /\
      forall pre, cleanCertsLoop store (pre ++ x :: post) env w
                  = cleanCertsLoop store (pre ++ [x]) env w).
Proof.
  split.
  - intros b err Hv. unfold value, exec in *. rewrite loop_cons. cbn zeta.
    rewrite Hv. reflexivity.
  - intros e Hf. split.
    + unfold exec. rewrite (check_open_refused env w store x e Hf). reflexivity.
    + intros pre. apply loop_stops with (e := e). exact Hf.
Qed.

(** Of three marked keys that are all too old, the second cannot be
    opened: the first is deleted, the third is left in place and no call
    names it. *)
Lemma sweep_stops_at_failed_entry_witness :
  let env := sample.env 3600 (10000 * sample.second) sample.refuse_BB in
  let w' := exec cleanCertsCryptoAPI env (sample.world sample.three) in
  verdict env (sample.key (Some (DWORD 1)) 0) = true /\
  entry w' sample.store "AA" = None /\
  entry w' sample.store "CC" = Some (sample.key (Some (DWORD 1)) 0) /\
  logged w' = [("Couldn't check if cert is expired: %s",
                Errorf "Couldn't open cert registry key: %s" (Errno 5))] /\
  calls w' = [OpOpenKey LOCAL_MACHINE sample.path; OpReadSubKeyNames sample.store;
              OpOpenKey sample.store "AA";
              OpGetIntegerValue (Handle sample.store "AA") cryptoAPIMagicName;
              OpStat (Handle sample.store "AA"); OpDeleteKey sample.store "AA";
              OpOpenKey sample.store "BB"] /\
  cleanCertsLoop sample.store ["BB"; "CC"] env (sample.world sample.three)
  = cleanCertsLoop sample.store ["BB"] env (sample.world sample.three).
Proof.
  cbv zeta. do 5 (split; [vm_compute; reflexivity |]).
  exact (proj2 (proj2 (sweep_stops_at_failed_entry
                         (sample.env 3600 (10000 * sample.second) sample.refuse_BB)
                         (sample.world sample.three) sample.store "BB" ["CC"])
                  (Errno 5) eq_refl) []).
Defined.

(** [C9].  When the key opens and the read of the marker fails, with
    whatever error, the check answers "not expired" without an error: the
    registry and the log are as before, and the sweep goes on to the next
    name. *)
Theorem marker_read_failure_is_silent
    (env : Env) (w : World) (store : registry.Key) (name : string) (rest : list string)
    (e : error) :
  fault env (OpOpenKey store name) = None ->
  key_exists (reg w) (Handle store name) = true ->
  value (registry.GetIntegerValue (Handle store name) cryptoAPIMagicName) env w = Err e ->
  let w' := called (OpGetIntegerValue (Handle store name) cryptoAPIMagicName)
              (called (OpOpenKey store name) w) in
  checkCertExpiredCryptoAPI store name env w = ((false, None), w') /\
  reg w' = reg w /\ logged w' = logged w /\
  cleanCertsLoop store (name :: rest) env w = cleanCertsLoop store rest env w'.
Proof.
  intros Hf Hk He. cbv zeta.
  assert (Hc : checkCertExpiredCryptoAPI store name env w =
               ((false, None),
                called (OpGetIntegerValue (Handle store name) cryptoAPIMagicName)
                  (called (OpOpenKey store name) w))).
  { unfold value in He. rewrite GetIntegerValue_run in He. cbn [fst] in He.
    unfold checkCertExpiredCryptoAPI. run. rewrite Hf, Hk. run. rewrite He. reflexivity. }
  split; [exact Hc |]. split; [reflexivity |]. split; [reflexivity |].
  rewrite loop_cons. cbn zeta. rewrite Hc. reflexivity.
Qed.

Lemma marker_read_failure_is_silent_witness :
  let env := sample.env 3600 (10000 * sample.second) sample.refuse_marker in
  let w := sample.world sample.three in
  value (checkCertExpiredCryptoAPI sample.store "AA") env w = (false, None) /\
  logged (exec cleanCertsCryptoAPI env w) = [] /\
  reg (exec cleanCertsCryptoAPI env w) = reg w.
Proof.
  cbv zeta. split; [| split; vm_compute; reflexivity].
  unfold value.
  rewrite (proj1 (marker_read_failure_is_silent
                    (sample.env 3600 (10000 * sample.second) sample.refuse_marker)
                    (sample.world sample.three) sample.store "AA" [] (Errno 5)
                    eq_refl eq_refl eq_refl)).
  reflexivity.
Defined.

(** [C3].  A key whose marker is absent, or present and other than the
    integer 1, is still there after the sweep, with what it held: whatever
    its time of last modification, whichever calls are refused. *)
Theorem sweep_never_deletes_unmarked
    (env : Env) (w : World) (k : registry.Key) (name : string) (d : KeyData) :
  entry w k name = Some d ->
  (values d !! cryptoAPIMagicName = None \/
   exists v, values d !! cryptoAPIMagicName = Some v /\
             v <> DWORD cryptoAPIMagicValue /\ v <> QWORD cryptoAPIMagicValue) ->
  entry (exec cleanCertsCryptoAPI env w) k name = Some d.
Proof.
  intros Hd Hm.
  assert (Hu : marked d = false).
  { unfold marked. destruct Hm as [-> | (v & -> & H1 & H2)]; [reflexivity |].
    destruct v as [x | x | |]; try reflexivity.
    - destruct (Z.eqb_spec x cryptoAPIMagicValue); [congruence | reflexivity].
    - destruct (Z.eqb_spec x cryptoAPIMagicValue); [congruence | reflexivity]. }
  unfold exec.
  destruct (clean_cases env w) as [(w' & -> & Hr) | (store & w1 & sub & _ & Hr & _ & _ & ->)].
  - unfold entry. cbn [snd]. rewrite Hr. exact Hd.
  - apply (loop_keeps_unmarked_any env (certStore env store) (map fst sub) w1 k name d);
      [| exact Hu].
    unfold entry. rewrite Hr. exact Hd.
Qed.

Lemma sweep_never_deletes_unmarked_witness :
  let env := sample.env 3600 (10000 * sample.second) sample.quiet in
  let w' := exec cleanCertsCryptoAPI env (sample.world sample.mixed) in
  entry w' sample.store "AA" = Some (sample.key None 0) /\
  entry w' sample.store "BB" = Some (sample.key (Some (DWORD 2)) 0) /\
  entry w' sample.store "DD" = None.
Proof.
  cbv zeta. split; [| split].
  - apply sweep_never_deletes_unmarked; [reflexivity | left; reflexivity].
  - apply sweep_never_deletes_unmarked; [reflexivity | right].
    exists (DWORD 2). split; [reflexivity | split; discriminate].
  - vm_compute. reflexivity.
Defined.

(** [C5], amended.  The comparison is made on float64 numbers of seconds
    and is strict.  For a marked key, a non-negative period and a sweep in
    which no call is refused: a key whose age equals the period is not
    judged expired and is kept; when the period fits in a Duration, a key
    whose age exceeds it by a second or more is judged expired and is
    deleted; so is, when the period is below 2^23 seconds, a key whose age
    exceeds it by any amount; when the period does not fit in a Duration,
    no key is judged expired, whatever its age, and the key is kept. *)
Theorem expiry_comparison_is_strict
    (env : Env) (w : World) (store : Store) (sub : SubKeys) (name : string) (d : KeyData) :
  healthy env ->
  cryptoAPINameToStore (cryptoAPIFlagPhysicalStoreName (flags env)) = Ok store ->
  get_store (reg w) (certStore env store) = Some sub ->
  NoDup (map fst sub) ->
  entry w (certStore env store) name = Some d ->
  marked d = true ->
  0 <= certExpirePeriod (flags env) ->
  let period := certExpirePeriod (flags env) * time.Second in
  let age := now env - modTime d in
  let judged := value (checkCertExpiredCryptoAPI (certStore env store) name) env w in
  let after := entry (exec cleanCertsCryptoAPI env w) (certStore env store) name in
  (age = period -> judged = (false, None) /\ after = Some d) /\
  (period + time.Second <= age -> period <= time.maxDuration ->
   judged = (true, None) /\ after = None) /\
  (certExpirePeriod (flags env) < 2 ^ 23 -> period < age ->
   judged = (true, None) /\ after = None) /\
  (time.maxDuration < period -> judged = (false, None) /\ after = Some d).
Proof.
  intros Hh Hs Hsub Hnd He Hm HP. cbv zeta.
  destruct (sweep_follows_verdict env w store sub name d Hh Hs Hsub Hnd He) as [-> ->].
  split; [| split; [| split]].
  - intros Hage.
    rewrite (verdict_fresh env d HP); [auto |]. unfold time.Second in *. lia.
  - intros Hage Hfit.
    rewrite (verdict_beyond env d Hm HP Hfit); [auto |]. unfold time.Second in *. lia.
  - intros Hsmall Hage.
    rewrite (verdict_near env d Hm HP Hsmall); [auto |]. unfold time.Second in *. lia.
  - intros Hout.
    rewrite (verdict_never env d Hout). auto.
Qed.

Lemma expiry_comparison_is_strict_witness :
  (let env := sample.env 3600 (3600 * sample.second) sample.quiet in
   value (checkCertExpiredCryptoAPI sample.store "AA") env (sample.world sample.single) = (false, None) /\
   entry (exec cleanCertsCryptoAPI env (sample.world sample.single)) sample.store "AA"
   = Some (sample.key (Some (DWORD 1)) 0)) /\
  (let env := sample.env 3600 (3601 * sample.second) sample.quiet in
   value (checkCertExpiredCryptoAPI sample.store "AA") env (sample.world sample.single) = (true, None) /\
   entry (exec cleanCertsCryptoAPI env (sample.world sample.single)) sample.store "AA" = None) /\
  (let env := sample.env 3600 (3600 * sample.second + 1) sample.quiet in
   value (checkCertExpiredCryptoAPI sample.store "AA") env (sample.world sample.single) = (true, None) /\
   entry (exec cleanCertsCryptoAPI env (sample.world sample.single)) sample.store "AA" = None) /\
  (let env := sample.env 9223372037 (10000000000 * sample.second) sample.quiet in
   value (checkCertExpiredCryptoAPI sample.store "AA") env (sample.world sample.single) = (false, None) /\
   entry (exec cleanCertsCryptoAPI env (sample.world sample.single)) sample.store "AA"
   = Some (sample.key (Some (DWORD 1)) 0)).
Proof.
  assert (Hnd : NoDup (map fst sample.single))
    by (apply NoDup_cons; split; [apply not_elem_of_nil | apply NoDup_nil; exact I]).
  split; [| split; [| split]]; cbv zeta.
  - refine (proj1 (expiry_comparison_is_strict
                     (sample.env 3600 (3600 * sample.second) sample.quiet)
                     (sample.world sample.single) sample.system sample.single "AA"
                     (sample.key (Some (DWORD 1)) 0)
                     (fun _ => eq_refl) eq_refl eq_refl Hnd eq_refl eq_refl _) _);
      vm_compute; congruence.
  - refine (proj1 (proj2 (expiry_comparison_is_strict
                     (sample.env 3600 (3601 * sample.second) sample.quiet)
                     (sample.world sample.single) sample.system sample.single "AA"
                     (sample.key (Some (DWORD 1)) 0)
                     (fun _ => eq_refl) eq_refl eq_refl Hnd eq_refl eq_refl _)) _ _);
      vm_compute; congruence.
  - refine (proj1 (proj2 (proj2 (expiry_comparison_is_strict
                     (sample.env 3600 (3600 * sample.second + 1) sample.quiet)
                     (sample.world sample.single) sample.system sample.single "AA"
                     (sample.key (Some (DWORD 1)) 0)
                     (fun _ => eq_refl) eq_refl eq_refl Hnd eq_refl eq_refl _))) _ _);
      vm_compute; congruence.
  - refine (proj2 (proj2 (proj2 (expiry_comparison_is_strict
                     (sample.env 9223372037 (10000000000 * sample.second) sample.quiet)
                     (sample.world sample.single) sample.system sample.single "AA"
                     (sample.key (Some (DWORD 1)) 0)
                     (fun _ => eq_refl) eq_refl eq_refl Hnd eq_refl eq_refl _))) _);
      vm_compute; congruence.
Defined.

(** [C5], against the claim as stated.  With a period of 2^25 seconds a
    marked key whose age exceeds the period by a nanosecond is not judged
    expired, and the sweep keeps it: the sum of the seconds and of the
    fraction rounds to 2^25. *)
Lemma a_nanosecond_over_is_not_expired :
  let env := sample.env (2 ^ 25) (2 ^ 25 * sample.second + 1) sample.quiet in
  let w := sample.world sample.single in
  marked (sample.key (Some (DWORD 1)) 0) = true /\
  certExpirePeriod (flags env) * time.Second < now env - modTime (sample.key (Some (DWORD 1)) 0) /\
  time.Seconds (time.Since (now env) 0) = float64.of_int (2 ^ 25) /\
  value (checkCertExpiredCryptoAPI sample.store "AA") env w = (false, None) /\
  entry (exec cleanCertsCryptoAPI env w) sample.store "AA"
  = Some (sample.key (Some (DWORD 1)) 0).
Proof. cbv zeta. repeat split; vm_compute; reflexivity. Qed.

(** [C2], against the claim as stated.  A marked key last modified 100
    seconds after the current time, more than the period of 10 seconds, is
    judged expired and the sweep deletes it. *)
Lemma future_key_is_deleted :
  let env := sample.env 10 0 sample.quiet in
  let w := sample.world [("AA", sample.key (Some (DWORD 1)) (100 * sample.second))] in
  certExpirePeriod (flags env) * time.Second
    < modTime (sample.key (Some (DWORD 1)) (100 * sample.second)) - now env /\
  value (checkCertExpiredCryptoAPI sample.store "AA") env w = (true, None) /\
  entry w sample.store "AA" = Some (sample.key (Some (DWORD 1)) (100 * sample.second)) /\
  entry (exec cleanCertsCryptoAPI env w) sample.store "AA" = None.
Proof. cbv zeta. repeat split; vm_compute; reflexivity. Qed.

(** [C2], amended.  The elapsed time is taken in absolute value, so a time
    of last modification in the future counts as much as one in the past.
    For a marked key, a non-negative period and a sweep in which no call
    is refused: a key last modified in the future by the period and a
    second or more is judged expired and is deleted; so is, when the
    period is below 2^23 seconds, a key last modified in the future by
    more than the period. *)
Theorem future_keys_are_expired
    (env : Env) (w : World) (store : Store) (sub : SubKeys) (name : string) (d : KeyData) :
  healthy env ->
  cryptoAPINameToStore (cryptoAPIFlagPhysicalStoreName (flags env)) = Ok store ->
  get_store (reg w) (certStore env store) = Some sub ->
  NoDup (map fst sub) ->
  entry w (certStore env store) name = Some d ->
  marked d = true ->
  0 <= certExpirePeriod (flags env) ->
  let period := certExpirePeriod (flags env) * time.Second in
  let ahead := modTime d - now env in
  let judged := value (checkCertExpiredCryptoAPI (certStore env store) name) env w in
  let after := entry (exec cleanCertsCryptoAPI env w) (certStore env store) name in
  (period + time.Second <= ahead -> period + time.Second <= time.maxDuration ->
   judged = (true, None) /\ after = None) /\
  (certExpirePeriod (flags env) < 2 ^ 23 -> period < ahead ->
   judged = (true, None) /\ after = None).
Proof.
  intros Hh Hs Hsub Hnd He Hm HP. cbv zeta.
  destruct (sweep_follows_verdict env w store sub name d Hh Hs Hsub Hnd He) as [-> ->].
  split.
  - intros Hahead Hfit.
    rewrite (verdict_far env d Hm HP); [auto | |]; unfold time.Second in *; lia.
  - intros Hsmall Hahead.
    rewrite (verdict_near env d Hm HP Hsmall); [auto |]. unfold time.Second in *. lia.
Qed.

Lemma future_keys_are_expired_witness :
  (let env := sample.env 99 0 sample.quiet in
   value (checkCertExpiredCryptoAPI sample.store "AA") env (sample.world sample.ahead_of_time)
   = (true, None) /\
   entry (exec cleanCertsCryptoAPI env (sample.world sample.ahead_of_time)) sample.store "AA" = None) /\
  (let env := sample.env 99 (sample.second - 1) sample.quiet in
   value (checkCertExpiredCryptoAPI sample.store "AA") env (sample.world sample.ahead_of_time)
   = (true, None) /\
   entry (exec cleanCertsCryptoAPI env (sample.world sample.ahead_of_time)) sample.store "AA" = None).
Proof.
  assert (Hnd : NoDup (map fst sample.ahead_of_time))
    by (apply NoDup_cons; split; [apply not_elem_of_nil | apply NoDup_nil; exact I]).
  split; cbv zeta.
  - refine (proj1 (future_keys_are_expired
                     (sample.env 99 0 sample.quiet)
                     (sample.world sample.ahead_of_time) sample.system sample.ahead_of_time "AA"
                     (sample.key (Some (DWORD 1)) (100 * sample.second))
                     (fun _ => eq_refl) eq_refl eq_refl Hnd eq_refl eq_refl _) _ _);
      vm_compute; congruence.
  - refine (proj2 (future_keys_are_expired
                     (sample.env 99 (sample.second - 1) sample.quiet)
                     (sample.world sample.ahead_of_time) sample.system sample.ahead_of_time "AA"
                     (sample.key (Some (DWORD 1)) (100 * sample.second))
                     (fun _ => eq_refl) eq_refl eq_refl Hnd eq_refl eq_refl _) _ _);
      vm_compute; congruence.
Defined.

(** [C6].  The key of a certificate is named by the upper-case hexadecimal
    rendering of the SHA-1 digest of its bytes, forty digits among 0-9 and
    A-F: that is the name given to [CreateKey], in whatever state the
    injection starts.  A second injection of the same bytes asks for the
    same name, and finds the key of the first. *)
Theorem inject_names_key_by_fingerprint
    (env : Env) (w : World) (derBytes : list byte)
    (store : Store) (blobBytes : list byte) (sub : SubKeys) :
  cryptoAPINameToStore (cryptoAPIFlagPhysicalStoreName (flags env)) = Ok store ->
  certblob.Marshal {[ 0x20 := derBytes ]} = Ok blobBytes ->
  fault env (OpOpenKey (Base store) (storePath env store)) = None ->
  get_store (reg w) (certStore env store) = Some sub ->
  fault env (OpCreateKey (certStore env store)
               (strings.ToUpper (hex.EncodeToString (sha1.Sum derBytes)))) = None ->
  let name := strings.ToUpper (hex.EncodeToString (sha1.Sum derBytes)) in
  let opened := [OpOpenKey (Base store) (storePath env store);
                 OpCreateKey (certStore env store) name] in
  let w1 := exec (injectCertCryptoAPI derBytes) env w in
  let w2 := exec (injectCertCryptoAPI derBytes) env w1 in
  String.length name = 40%nat /\
  forallb is_upper_hex (list_ascii_of_string name) = true /\
  (exists rest, calls w1 = calls w ++ opened ++ rest) /\
  entry w1 (certStore env store) name <> None /\
  (exists rest, calls w2 = calls w1 ++ opened ++ rest) /\
  value (registry.CreateKey (certStore env store) name registry.ALL_ACCESS) env w1
  = Ok (Handle (certStore env store) name, true).
Proof.
  intros Hs Hb Ho Hsub Hc. cbv zeta. fold (fingerprintName derBytes) in *.
  destruct (fingerprintName_format derBytes) as [Hlen Hhex].
  split; [exact Hlen |]. split; [exact Hhex |].
  destruct (inject_creates env w derBytes store blobBytes sub Hs Hb Ho Hsub Hc) as [C1 E1].
  split; [exact C1 |]. split; [exact E1 |].
  set (w1 := exec (injectCertCryptoAPI derBytes) env w) in *.
  destruct (get_store (reg w1) (certStore env store)) as [sub1 |] eqn:Hsub1.
  - destruct (inject_creates env w1 derBytes store blobBytes sub1 Hs Hb Ho Hsub1 Hc) as [C2 _].
    split; [exact C2 |].
    unfold value, registry.CreateKey, bind, call, get_reg, ret. simp.
    rewrite Hc. simp. rewrite Hsub1.
    unfold entry in E1. cbn [get_key] in E1. rewrite Hsub1 in E1.
    destruct (assoc (fingerprintName derBytes) sub1); [reflexivity | congruence].
  - unfold entry in E1. cbn [get_key] in E1. rewrite Hsub1 in E1. congruence.
Qed.

Lemma inject_names_key_by_fingerprint_witness :
  let env := sample.env 3600 0 sample.quiet in
  let w1 := exec (injectCertCryptoAPI [x01; x02]) env (sample.world []) in
  let w2 := exec (injectCertCryptoAPI [x01; x02]) env w1 in
  strings.ToUpper (hex.EncodeToString (sha1.Sum [x01; x02]))
  = "0CA623E2855F2C75C842AD302FE820E41B4D197D" /\
  entry w1 sample.store "0CA623E2855F2C75C842AD302FE820E41B4D197D" <> None /\
  option_map (map fst) (get_store (reg w2) sample.store)
  = Some ["0CA623E2855F2C75C842AD302FE820E41B4D197D"].
Proof.
  cbv zeta. split; [vm_compute; reflexivity |]. split; [| vm_compute; reflexivity].
  change "0CA623E2855F2C75C842AD302FE820E41B4D197D"
    with (strings.ToUpper (hex.EncodeToString (sha1.Sum [x01; x02]))).
  exact (proj1 (proj2 (proj2 (proj2 (inject_names_key_by_fingerprint
                         (sample.env 3600 0 sample.quiet) (sample.world []) [x01; x02]
                         sample.system (certblob.record 0x20 [x01; x02]) []
                         eq_refl eq_refl eq_refl eq_refl eq_refl))))).
Defined.

(** [C7].  The bytes that the injection writes as the value Blob encode
    one record and no more: the tag 0x20, the reserved word 1 and the
    length, each on four bytes, then the bytes of the certificate as they
    were given. *)
Theorem inject_stores_single_record
    (env : Env) (w : World) (derBytes : list byte)
    (store : Store) (blobBytes : list byte) (sub : SubKeys) :
  cryptoAPINameToStore (cryptoAPIFlagPhysicalStoreName (flags env)) = Ok store ->
  certblob.Marshal {[ 0x20 := derBytes ]} = Ok blobBytes ->
  fault env (OpOpenKey (Base store) (storePath env store)) = None ->
  get_store (reg w) (certStore env store) = Some sub ->
  fault env (OpCreateKey (certStore env store) (fingerprintName derBytes)) = None ->
  fault env (OpSetDWordValue (certKeyOf env store derBytes)
               cryptoAPIMagicName cryptoAPIMagicValue) = None ->
  fault env (OpSetBinaryValue (certKeyOf env store derBytes) "Blob" blobBytes) = None ->
  let w' := exec (injectCertCryptoAPI derBytes) env w in
  map_to_list ({[ 0x20 := derBytes ]} : certblob.Blob) = [(0x20, derBytes)] /\
  blobBytes = [x20; x00; x00; x00] ++ [x01; x00; x00; x00]
              ++ certblob.le32 (Z.of_nat (length derBytes)) ++ derBytes /\
  length blobBytes = (12 + length derBytes)%nat /\
  calls w' = calls w ++ inject_calls env store derBytes blobBytes /\
  exists d, entry w' (certStore env store) (fingerprintName derBytes) = Some d /\
            values d !! "Blob" = Some (BINARY blobBytes).
Proof.
  intros Hs Hb Ho Hsub Hc Hm Hset. cbv zeta.
  destruct (inject_run env w derBytes store blobBytes sub Hs Hb Ho Hsub Hc Hm Hset)
    as (_ & Hcalls & (t & He & _) & _).
  assert (Hbytes : blobBytes = certblob.record 0x20 derBytes).
  { rewrite Marshal_singleton in Hb.
    destruct (Z.of_nat (length derBytes) <? 2 ^ 32); congruence. }
  split; [apply map_to_list_singleton |].
  split; [rewrite Hbytes; reflexivity |].
  split; [rewrite Hbytes; apply record_length |].
  split; [exact Hcalls |].
  eexists. split; [exact He |]. cbn [values]. apply lookup_insert_eq.
Qed.

Lemma inject_stores_single_record_witness :
  let env := sample.env 3600 0 sample.quiet in
  let w' := exec (injectCertCryptoAPI [x30; x03; x02; x01; x00]) env (sample.world []) in
  exists d, entry w' sample.store (fingerprintName [x30; x03; x02; x01; x00]) = Some d /\
            values d !! "Blob"
            = Some (BINARY [x20; x00; x00; x00; x01; x00; x00; x00; x05; x00; x00; x00;
                            x30; x03; x02; x01; x00]).
Proof.
  cbv zeta.
  exact (proj2 (proj2 (proj2 (proj2 (inject_stores_single_record
           (sample.env 3600 0 sample.quiet) (sample.world []) [x30; x03; x02; x01; x00]
           sample.system
           [x20; x00; x00; x00; x01; x00; x00; x00; x05; x00; x00; x00;
            x30; x03; x02; x01; x00] []
           eq_refl eq_refl eq_refl eq_refl eq_refl eq_refl eq_refl))))).
Defined.



(** [C10].  No test is made of the bytes on the way: whatever they are,
    the empty sequence included, when no call is refused and the encoder
    returns the Blob (it does for every sequence shorter than 2^32 bytes)
    the injection logs nothing and leaves, under the upper-case
    hexadecimal SHA-1 of the bytes, a key with the marker and the Blob. *)
Theorem inject_accepts_any_bytes
    (env : Env) (w : World) (derBytes : list byte) (store : Store) (sub : SubKeys) :
  healthy env ->
  cryptoAPINameToStore (cryptoAPIFlagPhysicalStoreName (flags env)) = Ok store ->
  get_store (reg w) (certStore env store) = Some sub ->
  Z.of_nat (length derBytes) < 2 ^ 32 ->
  let name := strings.ToUpper (hex.EncodeToString (sha1.Sum derBytes)) in
  let w' := exec (injectCertCryptoAPI derBytes) env w in
  let before := match entry w (certStore env store) name with
                | Some d => values d
                | None => ∅
                end in
  certblob.Marshal {[ 0x20 := derBytes ]} = Ok (certblob.record 0x20 derBytes) /\
  logged w' = logged w /\
  entry w' (certStore env store) name =
    Some (mkKeyData (<["Blob" := BINARY (certblob.record 0x20 derBytes)]>
                       (<["Namecoin" := DWORD 1]> before))
                    (now env)).
Proof.
  intros Hh Hs Hsub Hlen. cbv zeta. fold (fingerprintName derBytes).
  assert (Hb : certblob.Marshal {[ 0x20 := derBytes ]} = Ok (certblob.record 0x20 derBytes)).
  { rewrite Marshal_singleton. apply Z.ltb_lt in Hlen. rewrite Hlen. reflexivity. }
  destruct (inject_run env w derBytes store _ sub Hs Hb (Hh _) Hsub (Hh _) (Hh _) (Hh _))
    as (Hlog & _ & (t & He & Ht) & _).
  split; [exact Hb |]. split; [exact Hlog |].
  rewrite He, (Ht (Hh _)).
  destruct (entry w (certStore env store) (fingerprintName derBytes)); reflexivity.
Qed.

Lemma inject_accepts_any_bytes_witness :
  let env := sample.env 3600 7 sample.quiet in
  let w' := exec (injectCertCryptoAPI []) env (sample.world []) in
  logged w' = [] /\
  entry w' sample.store "DA39A3EE5E6B4B0D3255BFEF95601890AFD80709" =
    Some (mkKeyData (<["Blob" := BINARY [x20; x00; x00; x00; x01; x00; x00; x00;
                                         x00; x00; x00; x00]]>
                       (<["Namecoin" := DWORD 1]> ∅)) 7).
Proof.
  cbv zeta.
  exact (proj2 (inject_accepts_any_bytes
                  (sample.env 3600 7 sample.quiet) (sample.world []) [] sample.system []
                  (fun _ => eq_refl) eq_refl eq_refl eq_refl)).
Defined.

(** [C4], against the claim as stated.  Neither function returns a value:
    with a physical store that is not in the table each of them returns
    what it returns after a run without error, so that nothing computed
    from the returned value tells the failure from the success. *)
Lemma failure_is_not_returned :
  let good := sample.env 3600 0 sample.quiet in
  let w := sample.world [] in
  cryptoAPINameToStore (cryptoAPIFlagPhysicalStoreName (flags sample.misconfigured))
  = Err (ErrorString
           "invalid choice for physical store, consider: current-user, system, enterprise, group-policy") /\
  logged (exec (injectCertCryptoAPI [x01]) good w) = [] /\
  logged (exec cleanCertsCryptoAPI good w) = [] /\
  ~ (exists failed : unit -> bool,
        failed (value (injectCertCryptoAPI [x01]) sample.misconfigured w) = true /\
        failed (value (injectCertCryptoAPI [x01]) good w) = false) /\
  ~ (exists failed : unit -> bool,
        failed (value cleanCertsCryptoAPI sample.misconfigured w) = true /\
        failed (value cleanCertsCryptoAPI good w) = false).
Proof.
  cbv zeta. do 3 (split; [vm_compute; reflexivity |]).
  split; intros (failed & Hbad & Hgood);
    match type of Hbad with failed ?a = _ => destruct a end;
    match type of Hgood with failed ?a = _ => destruct a end; congruence.
Qed.

(** [C4], amended.  An unknown physical store, a store that cannot be
    opened and, for the sweep, names that cannot be listed stop the run at
    once: the error is written to the log, the registry is as it was, and
    nothing is returned to the caller. *)
Theorem failure_is_logged_and_stops_the_run
    (env : Env) (w : World) (derBytes : list byte) :
  (forall e,
      cryptoAPINameToStore (cryptoAPIFlagPhysicalStoreName (flags env)) = Err e ->
      injectCertCryptoAPI derBytes env w = (tt, log.record "error: %s" e w) /\
      cleanCertsCryptoAPI env w = (tt, log.record "error: %s" e w)) /\
  (forall store e,
      cryptoAPINameToStore (cryptoAPIFlagPhysicalStoreName (flags env)) = Ok store ->
      value (registry.OpenKey (Base store) (storePath env store) registry.ALL_ACCESS) env w
      = Err e ->
      let w1 := called (OpOpenKey (Base store) (storePath env store)) w in
      cleanCertsCryptoAPI env w = (tt, log.record "Couldn't open cert store: %s" e w1) /\
      (forall blobBytes,
          certblob.Marshal {[ 0x20 := derBytes ]} = Ok blobBytes ->
          injectCertCryptoAPI derBytes env w
          = (tt, log.record "Couldn't open cert store: %s" e w1))) /\
  (forall store certStoreKey e,
      cryptoAPINameToStore (cryptoAPIFlagPhysicalStoreName (flags env)) = Ok store ->
      value (registry.OpenKey (Base store) (storePath env store) registry.ALL_ACCESS) env w
      = Ok certStoreKey ->
      let w1 := called (OpOpenKey (Base store) (storePath env store)) w in
      value (registry.ReadSubKeyNames certStoreKey 0) env w1 = Err e ->
      cleanCertsCryptoAPI env w
      = (tt, log.record "Couldn't list certs in cert store: %s" e
               (called (OpReadSubKeyNames certStoreKey) w1))).
Proof.
  split; [| split].
  - intros e He. unfold injectCertCryptoAPI, cleanCertsCryptoAPI.
    unfold bind, ask, log.Errorf. simp. rewrite He. split; reflexivity.
  - intros store e Hs Ho. cbv zeta. unfold value in Ho.
    unfold injectCertCryptoAPI, cleanCertsCryptoAPI, Store_Key.
    unfold bind, ask, ret, log.Errorf. simp. rewrite Hs. simp.
    fold (storePath env store).
    assert (Hw : snd (registry.OpenKey (Base store) (storePath env store) registry.ALL_ACCESS env w)
                 = called (OpOpenKey (Base store) (storePath env store)) w)
      by (rewrite OpenKey_run; reflexivity).
    split.
    + rewrite Ho, Hw. reflexivity.
    + intros blobBytes Hb. rewrite Hb, Ho, Hw. reflexivity.
  - intros store k e Hs Ho. cbv zeta. intros Hr. unfold value in Ho, Hr.
    unfold cleanCertsCryptoAPI, Store_Key.
    unfold bind, ask, ret, log.Errorf. simp. rewrite Hs. simp.
    fold (storePath env store).
    assert (Hw : snd (registry.OpenKey (Base store) (storePath env store) registry.ALL_ACCESS env w)
                 = called (OpOpenKey (Base store) (storePath env store)) w)
      by (rewrite OpenKey_run; reflexivity).
    rewrite Ho, Hw. simp.
    assert (Hw' : forall w1, snd (registry.ReadSubKeyNames k 0 env w1)
                             = called (OpReadSubKeyNames k) w1)
      by (intros w1; rewrite ReadSubKeyNames_run; reflexivity).
    rewrite Hr, Hw'. reflexivity.
Qed.

Lemma failure_is_logged_and_stops_the_run_witness :
  let w := sample.world sample.three in
  injectCertCryptoAPI [x01] sample.misconfigured w
  = (tt, log.record "error: %s"
           (ErrorString
              "invalid choice for physical store, consider: current-user, system, enterprise, group-policy")
           w) /\
  cleanCertsCryptoAPI (sample.env 3600 0 sample.refuse_store) w
  = (tt, log.record "Couldn't open cert store: %s" (Errno 5)
           (called (OpOpenKey LOCAL_MACHINE sample.path) w)) /\
  cleanCertsCryptoAPI (sample.env 3600 0 sample.refuse_listing) w
  = (tt, log.record "Couldn't list certs in cert store: %s" (Errno 5)
           (called (OpReadSubKeyNames sample.store)
              (called (OpOpenKey LOCAL_MACHINE sample.path) w))).
Proof.
  cbv zeta. split; [| split].
  - exact (proj1 (proj1 (failure_is_logged_and_stops_the_run
                           sample.misconfigured (sample.world sample.three) [x01]) _ eq_refl)).
  - exact (proj1 (proj1 (proj2 (failure_is_logged_and_stops_the_run
                           (sample.env 3600 0 sample.refuse_store) (sample.world sample.three) [x01]))
                    sample.system (Errno 5) eq_refl eq_refl)).
  - exact (proj2 (proj2 (failure_is_logged_and_stops_the_run
                           (sample.env 3600 0 sample.refuse_listing) (sample.world sample.three) [x01]))
             sample.system sample.store (Errno 5) eq_refl eq_refl eq_refl).
Defined.

(** * A run from injection to expiry

    A certificate is injected at instant 0 into an empty Root store; a
    sweep with a period of 24 hours at the same instant keeps its key; a
    sweep 25 hours later deletes it. *)

Example inject_then_sweep :
  let hour := 3600 * sample.second in
  let cert := [x30; x03; x02; x01; x00] in
  let name := fingerprintName cert in
  let w1 := exec (injectCertCryptoAPI cert) (sample.env 86400 0 sample.quiet) (sample.world []) in
  let w2 := exec cleanCertsCryptoAPI (sample.env 86400 0 sample.quiet) w1 in
  let w3 := exec cleanCertsCryptoAPI (sample.env 86400 (25 * hour) sample.quiet) w2 in
  entry w1 sample.store name
  = Some (mkKeyData (<["Blob" := BINARY (certblob.record 0x20 cert)]>
                       (<["Namecoin" := DWORD 1]> ∅)) 0) /\
  entry w2 sample.store name = entry w1 sample.store name /\
  entry w3 sample.store name = None /\
  logged w3 = [].
Proof. cbv zeta. repeat split; vm_compute; reflexivity. Qed.

(** * Further properties of the code

    What the functions do besides: the paths of the stores, the reads of
    the check, the frame of the sweep and of the injection, their
    behaviour on the errors of each step, and the life of an injected
    key. *)

(** ** The stores and their paths *)

Section Table.

Lemma table_cases (name : string) :
  match cryptoAPINameToStore name with
  | Ok store =>
      (name = "current-user" /\
       store = mkStore CURRENT_USER "SOFTWARE\Microsoft\SystemCertificates" "%s\Certificates") \/
      (name = "system" /\
       store = mkStore LOCAL_MACHINE "SOFTWARE\Microsoft\SystemCertificates" "%s\Certificates") \/
      (name = "enterprise" /\
       store = mkStore LOCAL_MACHINE "SOFTWARE\Microsoft\EnterpriseCertificates" "%s\Certificates") \/
      (name = "group-policy" /\
       store = mkStore LOCAL_MACHINE "SOFTWARE\Policies\Microsoft\SystemCertificates"
                 "%s\Certificates")
  | Err e =>
      (name ∉ physicalStoreNames) /\
      e = ErrorString
            "invalid choice for physical store, consider: current-user, system, enterprise, group-policy"
  end.
Proof.
  unfold cryptoAPINameToStore, cryptoAPIStores, physicalStoreNames.
  cbn [list_to_map foldr fst snd uncurry].
  destruct (decide (name = "current-user")) as [-> | H1];
    [rewrite lookup_insert_eq; auto |].
  rewrite lookup_insert_ne by congruence.
  destruct (decide (name = "system")) as [-> | H2];
    [rewrite lookup_insert_eq; auto |].
  rewrite lookup_insert_ne by congruence.
  destruct (decide (name = "enterprise")) as [-> | H3];
    [rewrite lookup_insert_eq; auto |].
  rewrite lookup_insert_ne by congruence.
  destruct (decide (name = "group-policy")) as [-> | H4];
    [rewrite lookup_insert_eq; auto 6 |].
  rewrite lookup_insert_ne by congruence.
  rewrite lookup_empty. split; [| reflexivity].
  rewrite !elem_of_cons, elem_of_nil. tauto.
Qed.

(** The path of a store whose pattern is that of the table. *)
Lemma storePath_pattern (env : Env) (base : registry.Key) (physical : string) :
  storePath env (mkStore base physical "%s\Certificates") =
    (physical ++ "\" ++ cryptoAPIFlagLogicalStoreName (flags env) ++ "\Certificates")%string.
Proof. reflexivity. Qed.

Lemma append_cons (c : ascii) (s t : string) :
  (String c s ++ t)%string = String c (s ++ t).
Proof. reflexivity. Qed.

Lemma list_ascii_app (s t : string) :
  list_ascii_of_string (s ++ t) = list_ascii_of_string s ++ list_ascii_of_string t.
Proof.
  induction s as [| c s IH]; [reflexivity |].
  rewrite append_cons. cbn [list_ascii_of_string app]. rewrite IH. reflexivity.
Qed.

Lemma append_inv_tail (s1 s2 t : string) : (s1 ++ t = s2 ++ t)%string -> s1 = s2.
Proof.
  intros H. apply (f_equal list_ascii_of_string) in H.
  rewrite !list_ascii_app in H. apply app_inv_tail in H.
  rewrite <- (string_of_list_ascii_of_string s1), <- (string_of_list_ascii_of_string s2).
  congruence.
Qed.

Lemma append_inv_head (s t1 t2 : string) : (s ++ t1 = s ++ t2)%string -> t1 = t2.
Proof.
  induction s as [| c s IH]; [auto |].
  rewrite !append_cons. intros H. injection H. exact IH.
Qed.

(** Without verb in the format nothing is consumed: the operands left
    over are listed at the end. *)
Lemma Sprintf_no_verb (format : string) (a : string) (args : list string) :
  no_verb format = true ->
  fmt.Sprintf format (a :: args) =
    (format ++ "%!(EXTRA " ++ fmt.extra (a :: args) ++ ")")%string.
Proof.
  unfold no_verb. induction format as [| c rest IH]; intros H; [reflexivity |].
  cbn [list_ascii_of_string forallb] in H. apply andb_prop in H as [Hc Hrest].
  cbn [fmt.Sprintf].
  destruct c as [[] [] [] [] [] [] [] []]; try discriminate Hc;
    rewrite append_cons, <- (IH Hrest); try reflexivity.
  all: destruct rest as [| [[] [] [] [] [] [] [] []] rest']; reflexivity.
Qed.
End Table.

(** [X1].  [Store.Key] and [cryptoAPINameToStore].  The flag of the
    physical store is accepted exactly when it is one of the four names of
    the table, and the key of the store it names is the registry path of
    the scope, the logical name as the flag gives it, character by
    character, and Certificates, separated by backslashes. *)
Theorem store_key_of_choice (env : Env) (w : World) :
  match cryptoAPINameToStore (cryptoAPIFlagPhysicalStoreName (flags env)) with
  | Ok store =>
      cryptoAPIFlagPhysicalStoreName (flags env) ∈ physicalStoreNames /\
      Store_Key store env w =
        ((Physical store ++ "\" ++ cryptoAPIFlagLogicalStoreName (flags env)
            ++ "\Certificates")%string, w)
  | Err _ => cryptoAPIFlagPhysicalStoreName (flags env) ∉ physicalStoreNames
  end.
Proof.
  pose proof (table_cases (cryptoAPIFlagPhysicalStoreName (flags env))) as H.
  destruct (cryptoAPINameToStore _) as [store | e]; [| exact (proj1 H)].
  unfold physicalStoreNames.
  destruct H as [[-> ->] | [[-> ->] | [[-> ->] | [-> ->]]]];
    (split; [rewrite !elem_of_cons; auto 6 | reflexivity]).
Qed.

(** [X2].  [Store.Key] over the table.  Two settings of the flags that
    lead to the same store handle agree on the physical and on the logical
    name: no two scopes share a path, whatever the logical names. *)
Theorem store_paths_do_not_collide (env1 env2 : Env) (s1 s2 : Store) :
  cryptoAPINameToStore (cryptoAPIFlagPhysicalStoreName (flags env1)) = Ok s1 ->
  cryptoAPINameToStore (cryptoAPIFlagPhysicalStoreName (flags env2)) = Ok s2 ->
  certStore env1 s1 = certStore env2 s2 ->
  cryptoAPIFlagPhysicalStoreName (flags env1) = cryptoAPIFlagPhysicalStoreName (flags env2) /\
  cryptoAPIFlagLogicalStoreName (flags env1) = cryptoAPIFlagLogicalStoreName (flags env2).
Proof.
  intros H1 H2.
  pose proof (table_cases (cryptoAPIFlagPhysicalStoreName (flags env1))) as T1.
  pose proof (table_cases (cryptoAPIFlagPhysicalStoreName (flags env2))) as T2.
  rewrite H1 in T1. rewrite H2 in T2.
  unfold certStore.
  destruct T1 as [[-> ->] | [[-> ->] | [[-> ->] | [-> ->]]]];
    destruct T2 as [[-> ->] | [[-> ->] | [[-> ->] | [-> ->]]]];
    rewrite !storePath_pattern; cbn [Base]; intros E; try discriminate E;
    injection E as E;
    (split; [reflexivity | exact (append_inv_tail _ _ "\Certificates" E)]).
Qed.

Lemma store_paths_do_not_collide_witness :
  certStore (sample.env 3600 0 sample.quiet) sample.system = sample.store /\
  "system" = "system" /\ "Root" = "Root".
Proof.
  split; [reflexivity |].
  exact (store_paths_do_not_collide (sample.env 3600 0 sample.quiet)
           (sample.env 60 5 sample.refuse_BB) sample.system sample.system
           eq_refl eq_refl eq_refl).
Defined.

(** [X3].  [Store.Key] on a pattern without verb.  The logical name is an
    operand of the format all the same: left over, it is reported at the
    end of the key, after the pattern. *)
Theorem key_without_verb (env : Env) (w : World) (s : Store) :
  no_verb (Logical s) = true ->
  Store_Key s env w =
    ((Physical s ++ "\" ++ Logical s ++ "%!(EXTRA string="
        ++ cryptoAPIFlagLogicalStoreName (flags env) ++ ")")%string, w).
Proof.
  intros H. unfold Store_Key, bind, ask, ret. cbn [fst snd]. f_equal.
  change (fmt.Sprintf ("%s\" ++ Logical s) [Physical s; cryptoAPIFlagLogicalStoreName (flags env)])
    with (Physical s ++ String "\" (fmt.Sprintf (Logical s) [cryptoAPIFlagLogicalStoreName (flags env)]))%string.
  rewrite (Sprintf_no_verb _ _ _ H). reflexivity.
Qed.

Lemma key_without_verb_witness :
  Store_Key (mkStore LOCAL_MACHINE "SOFTWARE\Microsoft\SystemCertificates" "Root\Certificates")
    (sample.env 3600 0 sample.quiet) (sample.world []) =
    ("SOFTWARE\Microsoft\SystemCertificates\Root\Certificates%!(EXTRA string=Root)",
     sample.world []).
Proof.
  exact (key_without_verb (sample.env 3600 0 sample.quiet) (sample.world [])
           (mkStore LOCAL_MACHINE "SOFTWARE\Microsoft\SystemCertificates" "Root\Certificates")
           eq_refl).
Defined.

(** ** The check and the loop on their own *)

Section CheckVerdict.
Variables (env : Env) (w : World) (store : registry.Key) (name : string).

(** A positive answer comes without error, for a key on which the verdict
    is positive. *)
Lemma check_true_verdict (e : option error) :
  value (checkCertExpiredCryptoAPI store name) env w = (true, e) ->
  e = None /\ exists d, entry w store name = Some d /\ verdict env d = true.
Proof.
  unfold value, checkCertExpiredCryptoAPI.
  repeat (run; try case_match); intros Hv; cbn [fst] in Hv; try discriminate;
    simplify_eq.
  all: split; [reflexivity |].
  all: match goal with
  | Hk : get_key _ _ = Some ?k, Hm : values ?k !! _ = Some _, Hn : negb _ = false |- _ =>
      exists k; split; [exact Hk |];
      unfold verdict, marked; rewrite Hm;
      apply negb_false_iff in Hn; rewrite Hn; cbn [andb]
  end.
  all: unfold too_old; assumption.
Qed.
End CheckVerdict.

Section Effect.
Variables (env : Env).

(** What the loop does to a key: nothing, or the deletion of a key of the
    store on which the verdict is positive. *)
Lemma loop_effect (store : registry.Key) (names : list string) (w : World)
      (k : Key) (n : string) :
  entry (exec (cleanCertsLoop store names) env w) k n = entry w k n \/
  (entry (exec (cleanCertsLoop store names) env w) k n = None /\ k = store /\
   exists d, entry w k n = Some d /\ verdict env d = true).
Proof.
  revert w. induction names as [| x rest IH]; intros w; [left; reflexivity |].
  unfold exec. rewrite loop_cons. cbn zeta.
  pose proof (check_entry_any env store x w k n) as Hc.
  destruct (checkCertExpiredCryptoAPI store x env w) as [[b [e |]] w1] eqn:E; simp;
    cbn [snd] in Hc.
  - left. unfold entry, log.record in *. simp. exact Hc.
  - destruct b.
    + specialize (IH (after_delete store x env w1)). unfold exec in IH.
      assert (Hd : entry (after_delete store x env w1) k n = entry w k n \/
                   (entry (after_delete store x env w1) k n = None /\ k = store /\
                    exists d, entry w k n = Some d /\ verdict env d = true)).
      { destruct (decide (store = k)) as [<- | Hne].
        - rewrite after_delete_entry, Hc.
          destruct (fault env (OpDeleteKey store x)); [left; reflexivity |].
          destruct (String.eqb_spec x n) as [-> | Hxn]; [| left; reflexivity].
          right. split; [reflexivity |]. split; [reflexivity |].
          destruct (check_true_verdict env w store n None) as (_ & d & Hd & Hv).
          { unfold value. rewrite E. reflexivity. }
          exists d. split; assumption.
        - left. unfold entry. rewrite after_delete_reg, deleted_entry_other by assumption.
          exact Hc. }
      destruct Hd as [Hd | (Hd & -> & d & Hw & Hv)].
      * rewrite <- Hd. exact IH.
      * right. split; [| split; [reflexivity | exists d; split; assumption]].
        destruct IH as [-> | (-> & _)]; [exact Hd | reflexivity].
    + rewrite <- Hc. apply IH.
Qed.

(** The same for the sweep as a whole: the store is the one the flags
    name. *)
Lemma clean_effect (w : World) (k : Key) (n : string) :
  entry (exec cleanCertsCryptoAPI env w) k n = entry w k n \/
  (entry (exec cleanCertsCryptoAPI env w) k n = None /\
   exists store d,
     cryptoAPINameToStore (cryptoAPIFlagPhysicalStoreName (flags env)) = Ok store /\
     k = certStore env store /\ entry w k n = Some d /\ verdict env d = true).
Proof.
  unfold exec.
  destruct (clean_cases env w) as [(w' & -> & Hr) | (store & w1 & sub & Hs & Hr & _ & _ & ->)].
  - left. unfold entry. cbn [snd]. rewrite Hr. reflexivity.
  - assert (Hw : entry w1 k n = entry w k n) by (unfold entry; rewrite Hr; reflexivity).
    destruct (loop_effect (certStore env store) (map fst sub) w1 k n)
      as [H | (H & -> & d & Hd & Hv)]; unfold exec in H.
    + left. rewrite H. exact Hw.
    + right. split; [exact H |]. exists store, d. rewrite <- Hw. auto.
Qed.
End Effect.

(** [X4].  [checkCertExpiredCryptoAPI] only reads.  In every environment
    the check leaves the registry and the log as they were and makes at
    most three calls, on the key it is given: [OpenKey], then
    [GetIntegerValue] on the marker, then [Stat], the latter for a key
    that carries the marker only. *)
Theorem check_only_reads (env : Env) (w : World) (store : registry.Key) (name : string) :
  let w' := exec (checkCertExpiredCryptoAPI store name) env w in
  let certKey := Handle store name in
  reg w' = reg w /\ logged w' = logged w /\
  (calls w' = calls w ++ [OpOpenKey store name] \/
   calls w' = calls w ++ [OpOpenKey store name;
                          OpGetIntegerValue certKey cryptoAPIMagicName] \/
   (calls w' = calls w ++ [OpOpenKey store name;
                           OpGetIntegerValue certKey cryptoAPIMagicName;
                           OpStat certKey] /\
    exists d, entry w store name = Some d /\ marked d = true)).
Proof.
  cbv zeta. unfold exec, checkCertExpiredCryptoAPI.
  repeat (run; try case_match); simplify_eq; simp; rewrite <- ?app_assoc;
    (split; [reflexivity |]); (split; [reflexivity |]); auto.
  all: right; right; split; [reflexivity |].
  all: match goal with
       | Hk : get_key _ _ = Some ?k, Hm : values ?k !! _ = Some _, Hn : negb _ = false |- _ =>
           exists k; split;
           [exact Hk | unfold marked; rewrite Hm; apply negb_false_iff; exact Hn]
       end.
Qed.

(** [X5].  [checkCertExpiredCryptoAPI], [cleanCertsCryptoAPI]: a failure
    of [Stat].  Unlike a failed read of the marker, a failed read of the
    metadata of a marked key is an error of the check: the loop logs it
    and returns, the registry as it was. *)
Theorem metadata_failure_stops_the_sweep
    (env : Env) (w : World) (store : registry.Key) (x : string) (rest : list string)
    (d : KeyData) (e : error) :
  fault env (OpOpenKey store x) = None ->
  fault env (OpGetIntegerValue (Handle store x) cryptoAPIMagicName) = None ->
  entry w store x = Some d -> marked d = true ->
  fault env (OpStat (Handle store x)) = Some e ->
  let err := Errorf "Couldn't read metadata for cert registry key: %s" e in
  let w' := exec (cleanCertsLoop store (x :: rest)) env w in
  value (checkCertExpiredCryptoAPI store x) env w = (false, Some err) /\
  reg w' = reg w /\
  logged w' = logged w ++ [("Couldn't check if cert is expired: %s", err)] /\
  calls w' = calls w ++ [OpOpenKey store x;
                         OpGetIntegerValue (Handle store x) cryptoAPIMagicName;
                         OpStat (Handle store x)].
Proof.
  intros Ho Hg Hd Hm Hs. cbv zeta.
  assert (Hc : checkCertExpiredCryptoAPI store x env w =
               ((false, Some (Errorf "Couldn't read metadata for cert registry key: %s" e)),
                called (OpStat (Handle store x))
                  (called (OpGetIntegerValue (Handle store x) cryptoAPIMagicName)
                     (called (OpOpenKey store x) w)))).
  { unfold entry in Hd. unfold checkCertExpiredCryptoAPI. run.
    rewrite Ho, (key_exists_entry _ _ _ _ Hd). run. rewrite Hg, Hd.
    unfold marked in Hm.
    destruct (values d !! cryptoAPIMagicName) as [[v | v | b | s] |]; try discriminate Hm;
      rewrite Hm; simp; run; rewrite Hs; reflexivity. }
  unfold value, exec. rewrite loop_cons. cbn zeta. rewrite Hc. simp.
  rewrite <- !app_assoc. auto.
Qed.

Lemma metadata_failure_stops_the_sweep_witness :
  let refuse_stat := fun op => match op with OpStat _ => Some (Errno 5) | _ => None end in
  let env := sample.env 3600 (10000 * sample.second) refuse_stat in
  let w' := exec cleanCertsCryptoAPI env (sample.world sample.three) in
  reg w' = reg (sample.world sample.three) /\
  logged w' = [("Couldn't check if cert is expired: %s",
                Errorf "Couldn't read metadata for cert registry key: %s" (Errno 5))] /\
  value (checkCertExpiredCryptoAPI sample.store "AA") env (sample.world sample.three)
  = (false, Some (Errorf "Couldn't read metadata for cert registry key: %s" (Errno 5))).
Proof.
  cbv zeta. do 2 (split; [vm_compute; reflexivity |]).
  exact (proj1 (metadata_failure_stops_the_sweep
                  (sample.env 3600 (10000 * sample.second)
                     (fun op => match op with OpStat _ => Some (Errno 5) | _ => None end))
                  (sample.world sample.three) sample.store "AA" ["BB"; "CC"]
                  (sample.key (Some (DWORD 1)) 0) (Errno 5)
                  eq_refl eq_refl eq_refl eq_refl eq_refl)).
Defined.

(** [X6].  [cleanCertsCryptoAPI]: a failure of [DeleteKey].  When the
    deletion of an expired key is refused the loop logs the error and goes
    on with the names that follow; the key stays. *)
Theorem failed_deletion_does_not_stop_the_sweep
    (env : Env) (w : World) (store : registry.Key) (x : string) (rest : list string)
    (e : error) :
  value (checkCertExpiredCryptoAPI store x) env w = (true, None) ->
  fault env (OpDeleteKey store x) = Some e ->
  let w1 := log.record "Coudn't delete expired cert: %s" e
              (called (OpDeleteKey store x)
                 (exec (checkCertExpiredCryptoAPI store x) env w)) in
  cleanCertsLoop store (x :: rest) env w = cleanCertsLoop store rest env w1 /\
  reg w1 = reg w /\
  logged w1 = logged w ++ [("Coudn't delete expired cert: %s", e)].
Proof.
  intros Hv Hf. cbv zeta. unfold value, exec in *.
  destruct (check_pure env w store x) as [Hr Hl]. unfold exec in Hr, Hl.
  rewrite loop_cons. cbn zeta. rewrite Hv.
  unfold after_delete. rewrite DeleteKey_run. simp. rewrite Hf.
  unfold deleted. rewrite Hf. simp.
  split; [reflexivity |]. unfold log.record, called. simp. rewrite Hl. auto.
Qed.

Lemma failed_deletion_does_not_stop_the_sweep_witness :
  let refuse_AA := fun op => match op with
                             | OpDeleteKey _ p => if String.eqb p "AA" then Some (Errno 5) else None
                             | _ => None
                             end in
  let env := sample.env 3600 (10000 * sample.second) refuse_AA in
  let w' := exec (cleanCertsLoop sample.store ["AA"; "BB"]) env (sample.world sample.three) in
  entry w' sample.store "AA" = Some (sample.key (Some (DWORD 1)) 0) /\
  entry w' sample.store "BB" = None /\
  logged w' = [("Coudn't delete expired cert: %s", Errno 5)] /\
  cleanCertsLoop sample.store ["AA"; "BB"] env (sample.world sample.three) =
    cleanCertsLoop sample.store ["BB"] env
      (log.record "Coudn't delete expired cert: %s" (Errno 5)
         (called (OpDeleteKey sample.store "AA")
            (exec (checkCertExpiredCryptoAPI sample.store "AA") env
               (sample.world sample.three)))).
Proof.
  cbv zeta. do 3 (split; [vm_compute; reflexivity |]).
  exact (proj1 (failed_deletion_does_not_stop_the_sweep
                  (sample.env 3600 (10000 * sample.second)
                     (fun op => match op with
                                | OpDeleteKey _ p =>
                                    if String.eqb p "AA" then Some (Errno 5) else None
                                | _ => None
                                end))
                  (sample.world sample.three) sample.store "AA" ["BB"] (Errno 5)
                  eq_refl eq_refl)).
Defined.

(** [X7].  [cleanCertsCryptoAPI] only deletes, and only what is expired.
    In every environment and for every key of the registry, in whichever
    store: after the sweep the key is as it was, or it is gone, and then
    it was a key of the store that the flags name, it carried the marker
    and its age was beyond the period.  No key is created, none is
    changed. *)
Theorem sweep_only_removes_expired (env : Env) (w : World) (k : registry.Key) (n : string) :
  entry (exec cleanCertsCryptoAPI env w) k n = entry w k n \/
  (entry (exec cleanCertsCryptoAPI env w) k n = None /\
   exists store d,
     cryptoAPINameToStore (cryptoAPIFlagPhysicalStoreName (flags env)) = Ok store /\
     k = certStore env store /\ entry w k n = Some d /\
     marked d = true /\
     too_old (time.Since (now env) (modTime d)) (certExpirePeriod (flags env)) = true).
Proof.
  destruct (clean_effect env w k n) as [H | (H & store & d & Hs & Hk & Hd & Hv)];
    [left; exact H | right].
  split; [exact H |]. exists store, d.
  unfold verdict in Hv. apply andb_prop in Hv as [Hm Ht]. auto.
Qed.

(** [X8].  [cleanCertsCryptoAPI] at rest.  When no call is refused and the
    names of a store are distinct, a second sweep at the same instant
    finds nothing to do: every key is as the first sweep left it. *)
Theorem second_sweep_changes_nothing (env : Env) (w : World) (k : registry.Key) (n : string) :
  healthy env ->
  (forall store sub,
      cryptoAPINameToStore (cryptoAPIFlagPhysicalStoreName (flags env)) = Ok store ->
      get_store (reg w) (certStore env store) = Some sub -> NoDup (map fst sub)) ->
  let w1 := exec cleanCertsCryptoAPI env w in
  entry (exec cleanCertsCryptoAPI env w1) k n = entry w1 k n.
Proof.
  intros Hh Hnd. cbv zeta.
  destruct (clean_effect env (exec cleanCertsCryptoAPI env w) k n)
    as [H | (_ & store & d & Hs & -> & Hd & Hv)]; [exact H | exfalso].
  destruct (clean_effect env w (certStore env store) n) as [H1 | (H1 & _)];
    [| congruence].
  rewrite H1 in Hd.
  destruct (get_store (reg w) (certStore env store)) as [sub |] eqn:Hsub.
  - destruct (clean_healthy env w store sub Hh Hs Hsub (Hnd _ _ Hs Hsub)) as [_ He].
    rewrite He, Hd, Hv in H1. discriminate H1.
  - unfold entry in Hd. cbn [get_key] in Hd. rewrite Hsub in Hd. discriminate Hd.
Qed.

Lemma second_sweep_changes_nothing_witness :
  let env := sample.env 3600 (10000 * sample.second) sample.quiet in
  let w1 := exec cleanCertsCryptoAPI env (sample.world sample.mixed) in
  entry w1 sample.store "DD" = None /\
  entry (exec cleanCertsCryptoAPI env w1) sample.store "AA" = entry w1 sample.store "AA".
Proof.
  cbv zeta. split; [vm_compute; reflexivity |].
  apply (second_sweep_changes_nothing (sample.env 3600 (10000 * sample.second) sample.quiet)
           (sample.world sample.mixed) sample.store "AA").
  - intros op. reflexivity.
  - intros store sub Hs H. vm_compute in Hs. injection Hs as <-.
    vm_compute in H. injection H as <-.
    refine (bool_decide_unpack _ _). vm_compute. exact I.
Defined.

(** ** Periods and ages *)

(** [X9].  [cleanCertsCryptoAPI], [checkCertExpiredCryptoAPI]: young keys
    stay.  With a period that is not negative, a key whose time of last
    modification is within the period of the current time, before or after
    it, is still there after the sweep, as it was: whichever calls are
    refused, whatever its marker, however long the period. *)
Theorem fresh_keys_survive_the_sweep
    (env : Env) (w : World) (k : registry.Key) (n : string) (d : KeyData) :
  entry w k n = Some d ->
  0 <= certExpirePeriod (flags env) ->
  Z.abs (now env - modTime d) <= certExpirePeriod (flags env) * time.Second ->
  entry (exec cleanCertsCryptoAPI env w) k n = Some d.
Proof.
  intros Hd HP Hage.
  destruct (clean_effect env w k n) as [H | (_ & store & d' & _ & _ & Hd' & Hv)].
  - rewrite H. exact Hd.
  - rewrite Hd in Hd'. injection Hd' as <-.
    rewrite (verdict_fresh env d HP Hage) in Hv. discriminate Hv.
Qed.

Lemma fresh_keys_survive_the_sweep_witness :
  entry (exec cleanCertsCryptoAPI (sample.env 3600 (3600 * sample.second) sample.quiet)
           (sample.world sample.single)) sample.store "AA"
  = Some (sample.key (Some (DWORD 1)) 0).
Proof.
  apply (fresh_keys_survive_the_sweep (sample.env 3600 (3600 * sample.second) sample.quiet)
           (sample.world sample.single) sample.store "AA" (sample.key (Some (DWORD 1)) 0)).
  - reflexivity.
  - vm_compute. discriminate.
  - vm_compute. discriminate.
Defined.

(** [X10].  [checkCertExpiredCryptoAPI]: the comparison for periods below
    2^23 seconds.  There the float64 comparison decides as the integers
    do: when no call is refused a key is judged expired exactly when it
    carries the marker and the distance between its time of last
    modification and the current time exceeds the period, counted in
    nanoseconds; the sweep deletes the keys so judged and no other. *)
Theorem expiry_is_exact_for_short_periods
    (env : Env) (w : World) (store : Store) (sub : SubKeys) (name : string) (d : KeyData) :
  healthy env ->
  cryptoAPINameToStore (cryptoAPIFlagPhysicalStoreName (flags env)) = Ok store ->
  get_store (reg w) (certStore env store) = Some sub ->
  NoDup (map fst sub) ->
  entry w (certStore env store) name = Some d ->
  0 <= certExpirePeriod (flags env) < 2 ^ 23 ->
  let expired :=
    marked d && (certExpirePeriod (flags env) * time.Second <? Z.abs (now env - modTime d)) in
  value (checkCertExpiredCryptoAPI (certStore env store) name) env w = (expired, None) /\
  entry (exec cleanCertsCryptoAPI env w) (certStore env store) name =
    if expired then None else Some d.
Proof.
  intros Hh Hs Hsub Hnd Hd HP. cbv zeta.
  rewrite <- (verdict_exact env d HP).
  apply (sweep_follows_verdict env w store sub name d Hh Hs Hsub Hnd Hd).
Qed.

Lemma expiry_is_exact_for_short_periods_witness :
  let env := sample.env 3600 (3600 * sample.second + 1) sample.quiet in
  value (checkCertExpiredCryptoAPI sample.store "AA") env (sample.world sample.single)
  = (true, None) /\
  entry (exec cleanCertsCryptoAPI env (sample.world sample.single)) sample.store "AA" = None.
Proof.
  assert (Hnd : NoDup (map fst sample.single))
    by (apply NoDup_cons; split; [apply not_elem_of_nil | apply NoDup_nil; exact I]).
  refine (expiry_is_exact_for_short_periods
            (sample.env 3600 (3600 * sample.second + 1) sample.quiet)
            (sample.world sample.single) sample.system sample.single "AA"
            (sample.key (Some (DWORD 1)) 0)
            (fun _ => eq_refl) eq_refl eq_refl Hnd eq_refl _).
  split; [vm_compute; discriminate | reflexivity].
Defined.

(** [X11].  [checkCertExpiredCryptoAPI] with a negative period.  Every key
    that carries the marker is judged expired, whatever its age, the age
    zero included: when no call is refused the sweep deletes all the
    marked keys of the store. *)
Theorem negative_period_expires_every_marked_key
    (env : Env) (w : World) (store : Store) (sub : SubKeys) (name : string) (d : KeyData) :
  healthy env ->
  cryptoAPINameToStore (cryptoAPIFlagPhysicalStoreName (flags env)) = Ok store ->
  get_store (reg w) (certStore env store) = Some sub ->
  NoDup (map fst sub) ->
  entry w (certStore env store) name = Some d ->
  certExpirePeriod (flags env) < 0 ->
  value (checkCertExpiredCryptoAPI (certStore env store) name) env w = (marked d, None) /\
  entry (exec cleanCertsCryptoAPI env w) (certStore env store) name =
    if marked d then None else Some d.
Proof.
  intros Hh Hs Hsub Hnd Hd HP.
  rewrite <- (verdict_negative env d HP).
  apply (sweep_follows_verdict env w store sub name d Hh Hs Hsub Hnd Hd).
Qed.

Lemma negative_period_expires_every_marked_key_witness :
  let env := sample.env (-1) 0 sample.quiet in
  value (checkCertExpiredCryptoAPI sample.store "AA") env (sample.world sample.single)
  = (true, None) /\
  entry (exec cleanCertsCryptoAPI env (sample.world sample.single)) sample.store "AA" = None.
Proof.
  assert (Hnd : NoDup (map fst sample.single))
    by (apply NoDup_cons; split; [apply not_elem_of_nil | apply NoDup_nil; exact I]).
  exact (negative_period_expires_every_marked_key
           (sample.env (-1) 0 sample.quiet)
           (sample.world sample.single) sample.system sample.single "AA"
           (sample.key (Some (DWORD 1)) 0)
           (fun _ => eq_refl) eq_refl eq_refl Hnd eq_refl eq_refl).
Defined.

(** ** The frame of the injection *)

Section Names.
Context {A : Type}.
Implicit Types (l : list (string * A)) (n x : string).

Lemma replace_names x (a : A) l : map fst (replace x a l) = map fst l.
Proof.
  induction l as [| [m b] l IH]; cbn [replace map fst]; [reflexivity |].
  destruct (String.eqb m x); cbn [map fst]; [reflexivity | rewrite IH; reflexivity].
Qed.

Lemma assoc_none_names x l : assoc x l = None -> x ∉ map fst l.
Proof.
  induction l as [| [m b] l IH]; cbn [assoc map fst]; intros H.
  - apply not_elem_of_nil.
  - destruct (String.eqb_spec m x) as [-> | Hne]; [discriminate H |].
    rewrite not_elem_of_cons. split; [congruence | apply IH, H].
Qed.

Lemma NoDup_snoc_names x (a : A) l :
  assoc x l = None -> NoDup (map fst l) -> NoDup (map fst (l ++ [(x, a)])).
Proof.
  intros Hx Hnd. rewrite map_app. cbn [map fst]. apply NoDup_app.
  split; [exact Hnd |]. split.
  - intros y Hy Hin. apply list_elem_of_singleton in Hin. subst y.
    exact (assoc_none_names x l Hx Hy).
  - apply NoDup_singleton.
Qed.
End Names.

Section Frames.
Variables (env : Env).

Lemma get_key_set_key_other r k p d k' n' :
  Handle k p <> Handle k' n' ->
  get_key (set_key r (Handle k p) d) (Handle k' n') = get_key r (Handle k' n').
Proof.
  intros Hne. destruct (decide (k = k')) as [<- | Hk].
  - rewrite get_key_set_key. destruct (String.eqb_spec p n'); [congruence | reflexivity].
  - cbn [set_key]. destruct (get_store r k) as [sub |]; [| reflexivity].
    cbn [get_key]. rewrite get_set_store_ne by assumption. reflexivity.
Qed.

Lemma set_key_only (w w' : World) k p d :
  reg w' = set_key (reg w) (Handle k p) d -> get_key (reg w) (Handle k p) <> None ->
  only_key k p w w'.
Proof.
  intros Hr Hd k' n'. unfold entry. rewrite Hr.
  destruct (decide (Handle k p = Handle k' n')) as [E | Hne].
  - injection E as <- <-. right. split; [reflexivity | split; [reflexivity |]].
    rewrite get_key_set_key, String.eqb_refl.
    destruct (get_key (reg w) (Handle k p)); [discriminate | congruence].
  - left. apply get_key_set_key_other. exact Hne.
Qed.

Lemma only_key_reg k p w w' : reg w' = reg w -> only_key k p w w'.
Proof. intros H k' n'. left. unfold entry. rewrite H. reflexivity. Qed.

Lemma only_key_trans k p w1 w2 w3 :
  only_key k p w1 w2 -> only_key k p w2 w3 -> only_key k p w1 w3.
Proof.
  intros H12 H23 k' n'.
  destruct (H23 k' n') as [E | (-> & -> & E)]; [| right; auto].
  rewrite E. apply H12.
Qed.

Lemma set_store_kept (w w' : World) k s0 s :
  get_store (reg w) k = Some s0 -> reg w' = set_store (reg w) k s ->
  (NoDup (map fst s0) -> NoDup (map fst s)) ->
  stores_kept w w'.
Proof.
  intros H0 Hr Hnd k' sub Hsub. rewrite Hr.
  destruct (decide (k = k')) as [<- | Hne].
  - exists s. rewrite (get_set_store _ _ _ _ H0). split; [reflexivity |].
    rewrite H0 in Hsub. injection Hsub as <-. exact Hnd.
  - exists sub. rewrite get_set_store_ne by assumption. auto.
Qed.

Lemma stores_kept_reg w w' : reg w' = reg w -> stores_kept w w'.
Proof. intros H k sub Hsub. rewrite H. eauto. Qed.

Lemma set_key_kept (w w' : World) kk d :
  reg w' = set_key (reg w) kk d -> stores_kept w w'.
Proof.
  intros Hr. destruct kk as [| | k p];
    [apply stores_kept_reg; exact Hr | apply stores_kept_reg; exact Hr |].
  cbn [set_key] in Hr. destruct (get_store (reg w) k) as [s0 |] eqn:E.
  - apply (set_store_kept w w' k s0 _ E Hr). rewrite replace_names. auto.
  - apply stores_kept_reg. exact Hr.
Qed.

Lemma stores_kept_trans w1 w2 w3 :
  stores_kept w1 w2 -> stores_kept w2 w3 -> stores_kept w1 w3.
Proof.
  intros H12 H23 k sub Hsub.
  destruct (H12 k sub Hsub) as (s2 & Hs2 & N2).
  destruct (H23 k s2 Hs2) as (s3 & Hs3 & N3).
  exists s3. auto.
Qed.

(** What the writes of the registry do to the tree. *)
Lemma CreateKey_effect (w : World) k p a :
  let r := registry.CreateKey k p a env w in
  only_key k p w (snd r) /\ stores_kept w (snd r) /\ logged (snd r) = logged w /\
  forall h b, fst r = Ok (h, b) -> h = Handle k p.
Proof.
  cbv zeta. unfold registry.CreateKey, bind, call, get_reg, put_reg, ask, ret. simp.
  destruct (fault env _); simp;
    [repeat split; [apply only_key_reg | apply stores_kept_reg | discriminate]; reflexivity |].
  destruct (get_store (reg w) k) as [sub |] eqn:Hs; simp;
    [| repeat split; [apply only_key_reg | apply stores_kept_reg | discriminate]; reflexivity].
  destruct (assoc p sub) as [d |] eqn:Ea; simp.
  - repeat split; [apply only_key_reg | apply stores_kept_reg | congruence]; reflexivity.
  - repeat split; [| | congruence].
    + intros k' n'. unfold entry. simp.
      destruct (decide (k = k')) as [<- | Hne].
      * rewrite (get_key_set_store _ _ _ _ _ Hs), assoc_app. cbn [get_key]. rewrite Hs.
        destruct (assoc n' sub) as [d' |] eqn:En; [left; reflexivity |].
        cbn [assoc]. destruct (String.eqb_spec p n') as [<- | Hpn]; [| left; reflexivity].
        right. split; [reflexivity | split; [reflexivity | discriminate]].
      * left. cbn [get_key]. rewrite get_set_store_ne by assumption. reflexivity.
    + apply (set_store_kept _ _ k sub (sub ++ [(p, mkKeyData ∅ (now env))]) Hs);
        [reflexivity |].
      apply NoDup_snoc_names. exact Ea.
Qed.

Lemma DeleteValue_effect (w : World) k p name :
  let r := registry.DeleteValue (Handle k p) name env w in
  only_key k p w (snd r) /\ stores_kept w (snd r) /\ logged (snd r) = logged w.
Proof.
  cbv zeta. unfold registry.DeleteValue, bind, call, get_reg, put_reg, ask, ret. simp.
  destruct (fault env _); simp;
    [repeat split; [apply only_key_reg | apply stores_kept_reg]; reflexivity |].
  destruct (get_key (reg w) (Handle k p)) as [d |] eqn:Hd; simp;
    [| repeat split; [apply only_key_reg | apply stores_kept_reg]; reflexivity].
  destruct (values d !! name); simp;
    [| repeat split; [apply only_key_reg | apply stores_kept_reg]; reflexivity].
  repeat split.
  - eapply set_key_only; [reflexivity |]. simp. rewrite Hd. discriminate.
  - eapply set_key_kept. reflexivity.
Qed.

Lemma setValue_effect (w : World) op k p name v :
  let r := registry.setValue op (Handle k p) name v env w in
  only_key k p w (snd r) /\ stores_kept w (snd r) /\ logged (snd r) = logged w.
Proof.
  cbv zeta. unfold registry.setValue, bind, call, get_reg, put_reg, ask, ret. simp.
  destruct (fault env _); simp;
    [repeat split; [apply only_key_reg | apply stores_kept_reg]; reflexivity |].
  destruct (get_key (reg w) (Handle k p)) as [d |] eqn:Hd; simp;
    [| repeat split; [apply only_key_reg | apply stores_kept_reg]; reflexivity].
  repeat split.
  - eapply set_key_only; [reflexivity |]. simp. rewrite Hd. discriminate.
  - eapply set_key_kept. reflexivity.
Qed.

(** A property of the runs of the injection that holds of each of its
    steps holds of the injection. *)
Lemma inject_rule (R : World -> World -> Prop) (derBytes : list byte) :
  (forall w w', reg w' = reg w -> R w w') ->
  (forall w1 w2 w3, R w1 w2 -> R w2 w3 -> R w1 w3) ->
  (forall store,
      cryptoAPINameToStore (cryptoAPIFlagPhysicalStoreName (flags env)) = Ok store ->
      let k := certStore env store in
      let p := fingerprintName derBytes in
      (forall w a, R w (snd (registry.CreateKey k p a env w))) /\
      (forall w name, R w (snd (registry.DeleteValue (Handle k p) name env w))) /\
      (forall w op name v, R w (snd (registry.setValue op (Handle k p) name v env w)))) ->
  forall w, R w (exec (injectCertCryptoAPI derBytes) env w).
Proof.
  intros Hreg Htrans Hops w.
  unfold exec, injectCertCryptoAPI, Store_Key. unfold bind, ask, ret, log.Errorf. simp.
  destruct (cryptoAPINameToStore _) as [store | e] eqn:Hs; simp;
    [| apply Hreg; reflexivity].
  destruct (certblob.Marshal _) as [blobBytes | e]; [| apply Hreg; reflexivity].
  fold (storePath env store). rewrite OpenKey_run. simp.
  destruct (fault env (OpOpenKey _ _)); [apply Hreg; reflexivity |].
  fold (certStore env store).
  destruct (key_exists (reg w) (certStore env store)); [| apply Hreg; reflexivity].
  simp. fold (fingerprintName derBytes).
  destruct (Hops store eq_refl) as (Hc & Hd & Hv).
  set (w1 := called _ w).
  assert (H1 : R w w1) by (apply Hreg; reflexivity).
  pose proof (Hc w1 registry.ALL_ACCESS) as H2.
  destruct (CreateKey_effect w1 (certStore env store) (fingerprintName derBytes)
              registry.ALL_ACCESS) as (_ & _ & _ & Hh).
  destruct (registry.CreateKey _ _ _ env w1) as [[[h b] | e] w2]; simp; cbn [fst snd] in *.
  2:{ eapply Htrans; [exact H1 |]. eapply Htrans; [exact H2 |]. apply Hreg. reflexivity. }
  rewrite (Hh h b eq_refl).
  pose proof (Hd w2 cryptoAPIMagicName) as H3.
  destruct (registry.DeleteValue _ _ env w2) as [e3 w3]; simp; cbn [fst snd] in *.
  unfold registry.SetDWordValue, registry.SetBinaryValue.
  pose proof (Hv w3 (OpSetDWordValue (Handle (certStore env store) (fingerprintName derBytes))
                       cryptoAPIMagicName cryptoAPIMagicValue)
                cryptoAPIMagicName (DWORD cryptoAPIMagicValue)) as H4.
  destruct (registry.setValue _ _ _ _ env w3) as [[e4 |] w4]; simp; cbn [fst snd] in *.
  { eapply Htrans; [exact H1 |]. eapply Htrans; [exact H2 |].
    eapply Htrans; [exact H3 |]. eapply Htrans; [exact H4 |]. apply Hreg. reflexivity. }
  pose proof (Hv w4 (OpSetBinaryValue (Handle (certStore env store) (fingerprintName derBytes))
                       "Blob" blobBytes) "Blob" (BINARY blobBytes)) as H5.
  destruct (registry.setValue _ _ _ _ env w4) as [[e5 |] w5]; simp; cbn [fst snd] in *.
  { eapply Htrans; [exact H1 |]. eapply Htrans; [exact H2 |].
    eapply Htrans; [exact H3 |]. eapply Htrans; [exact H4 |].
    eapply Htrans; [exact H5 |]. apply Hreg. reflexivity. }
  eapply Htrans; [exact H1 |]. eapply Htrans; [exact H2 |].
  eapply Htrans; [exact H3 |]. eapply Htrans; [exact H4 |]. exact H5.
Qed.

End Frames.

Section InjectInvariants.
Variables (env : Env) (derBytes : list byte).

Lemma inject_only_key (w : World) (store : Store) :
  cryptoAPINameToStore (cryptoAPIFlagPhysicalStoreName (flags env)) = Ok store ->
  only_key (certStore env store) (fingerprintName derBytes) w
    (exec (injectCertCryptoAPI derBytes) env w).
Proof.
  intros Hs.
  apply (inject_rule env
           (fun w w' => only_key (certStore env store) (fingerprintName derBytes) w w')).
  - intros w0 w' H. apply only_key_reg. exact H.
  - intros w1 w2 w3. apply only_key_trans.
  - intros store' Hs'. rewrite Hs in Hs'. injection Hs' as <-. cbv zeta.
    split; [| split].
    + intros w0 a. apply CreateKey_effect.
    + intros w0 name. apply DeleteValue_effect.
    + intros w0 op name v. apply setValue_effect.
Qed.

Lemma inject_unresolved (w : World) (e : error) :
  cryptoAPINameToStore (cryptoAPIFlagPhysicalStoreName (flags env)) = Err e ->
  reg (exec (injectCertCryptoAPI derBytes) env w) = reg w.
Proof.
  intros Hs. unfold exec, injectCertCryptoAPI, bind, ask, log.Errorf. simp.
  rewrite Hs. reflexivity.
Qed.

Lemma inject_stores_kept (w : World) :
  stores_kept w (exec (injectCertCryptoAPI derBytes) env w).
Proof.
  apply (inject_rule env stores_kept).
  - apply stores_kept_reg.
  - apply stores_kept_trans.
  - intros store' Hs'. cbv zeta. split; [| split].
    + intros w0 a. apply CreateKey_effect.
    + intros w0 name. apply DeleteValue_effect.
    + intros w0 op name v. apply setValue_effect.
Qed.

End InjectInvariants.

(** [X12].  [injectCertCryptoAPI] writes one key.  In every environment
    and for every key of the registry, in whichever store: after the
    injection the key is as it was, unless it is the key named by the
    fingerprint in the store that the flags name, and this one is there
    afterwards.  No key is deleted, no other key is created or changed. *)
Theorem inject_touches_one_key
    (env : Env) (w : World) (derBytes : list byte) (k : registry.Key) (n : string) :
  let w' := exec (injectCertCryptoAPI derBytes) env w in
  entry w' k n = entry w k n \/
  (n = fingerprintName derBytes /\ entry w' k n <> None /\
   exists store,
     cryptoAPINameToStore (cryptoAPIFlagPhysicalStoreName (flags env)) = Ok store /\
     k = certStore env store).
Proof.
  cbv zeta.
  destruct (cryptoAPINameToStore (cryptoAPIFlagPhysicalStoreName (flags env)))
    as [store | e] eqn:Hs.
  - destruct (inject_only_key env derBytes w store Hs k n) as [H | (-> & -> & H)];
      [left; exact H | right].
    split; [reflexivity |]. split; [exact H |]. exists store. auto.
  - left. unfold entry. rewrite (inject_unresolved env derBytes w e Hs). reflexivity.
Qed.

(** [X13].  [injectCertCryptoAPI]: a failure of [CreateKey].  The error is
    logged and the injection returns after two calls, the registry as it
    was. *)
Theorem refused_creation_changes_nothing
    (env : Env) (w : World) (derBytes : list byte)
    (store : Store) (blobBytes : list byte) (sub : SubKeys) (e : error) :
  cryptoAPINameToStore (cryptoAPIFlagPhysicalStoreName (flags env)) = Ok store ->
  certblob.Marshal {[ 0x20 := derBytes ]} = Ok blobBytes ->
  fault env (OpOpenKey (Base store) (storePath env store)) = None ->
  get_store (reg w) (certStore env store) = Some sub ->
  fault env (OpCreateKey (certStore env store) (fingerprintName derBytes)) = Some e ->
  let w' := exec (injectCertCryptoAPI derBytes) env w in
  reg w' = reg w /\
  logged w' = logged w ++ [("Couldn't create registry key for certificate: %s", e)] /\
  calls w' = calls w ++ [OpOpenKey (Base store) (storePath env store);
                         OpCreateKey (certStore env store) (fingerprintName derBytes)].
Proof.
  intros Hs Hb Ho Hsub Hc. cbv zeta.
  unfold exec, injectCertCryptoAPI, Store_Key. unfold bind, ask, ret, log.Errorf. simp.
  rewrite Hs. simp. rewrite Hb. fold (storePath env store).
  rewrite OpenKey_run. simp. rewrite Ho.
  fold (certStore env store). rewrite (key_exists_store _ _ _ Hsub). simp.
  fold (fingerprintName derBytes).
  unfold registry.CreateKey, bind, call, ret. simp. rewrite Hc. simp.
  rewrite <- app_assoc. auto.
Qed.

Lemma refused_creation_changes_nothing_witness :
  let refuse_create := fun op => match op with OpCreateKey _ _ => Some (Errno 5) | _ => None end in
  let w' := exec (injectCertCryptoAPI [x01; x02]) (sample.env 3600 0 refuse_create)
              (sample.world sample.single) in
  reg w' = reg (sample.world sample.single) /\
  logged w' = [("Couldn't create registry key for certificate: %s", Errno 5)] /\
  calls w' = [OpOpenKey LOCAL_MACHINE sample.path;
              OpCreateKey sample.store (fingerprintName [x01; x02])].
Proof.
  exact (refused_creation_changes_nothing
           (sample.env 3600 0
              (fun op => match op with OpCreateKey _ _ => Some (Errno 5) | _ => None end))
           (sample.world sample.single) [x01; x02] sample.system
           (certblob.record 0x20 [x01; x02]) sample.single (Errno 5)
           eq_refl eq_refl eq_refl eq_refl eq_refl).
Defined.

(** [X14].  [injectCertCryptoAPI]: a failure of [SetDWordValue].  The
    marker is deleted before it is written; when the deletion is accepted
    and the write refused, the error is logged, [SetBinaryValue] is not
    called, and the key stays, created if need be, without marker and with
    the Blob it had: nothing is undone. *)
Theorem refused_marker_leaves_key_unmarked
    (env : Env) (w : World) (derBytes : list byte)
    (store : Store) (blobBytes : list byte) (sub : SubKeys) (e : error) :
  cryptoAPINameToStore (cryptoAPIFlagPhysicalStoreName (flags env)) = Ok store ->
  certblob.Marshal {[ 0x20 := derBytes ]} = Ok blobBytes ->
  fault env (OpOpenKey (Base store) (storePath env store)) = None ->
  get_store (reg w) (certStore env store) = Some sub ->
  fault env (OpCreateKey (certStore env store) (fingerprintName derBytes)) = None ->
  fault env (OpDeleteValue (certKeyOf env store derBytes) cryptoAPIMagicName) = None ->
  fault env (OpSetDWordValue (certKeyOf env store derBytes)
               cryptoAPIMagicName cryptoAPIMagicValue) = Some e ->
  let w' := exec (injectCertCryptoAPI derBytes) env w in
  let certKey := certKeyOf env store derBytes in
  logged w' = logged w ++ [("Couldn't set magic registry value for certificate: %s", e)] /\
  calls w' = calls w ++ [OpOpenKey (Base store) (storePath env store);
                         OpCreateKey (certStore env store) (fingerprintName derBytes);
                         OpDeleteValue certKey cryptoAPIMagicName;
                         OpSetDWordValue certKey cryptoAPIMagicName cryptoAPIMagicValue] /\
  exists d', entry w' (certStore env store) (fingerprintName derBytes) = Some d' /\
             marked d' = false /\
             values d' !! "Blob" =
               match entry w (certStore env store) (fingerprintName derBytes) with
               | Some d => values d !! "Blob"
               | None => None
               end.
Proof.
  intros Hs Hb Ho Hsub Hc Hd Hm. cbv zeta.
  unfold exec, injectCertCryptoAPI, Store_Key. unfold bind, ask, ret. simp.
  rewrite Hs. simp. rewrite Hb. fold (storePath env store).
  rewrite OpenKey_run. simp. rewrite Ho.
  fold (certStore env store). rewrite (key_exists_store _ _ _ Hsub). simp.
  fold (fingerprintName derBytes).
  destruct (CreateKey_ok env (called (OpOpenKey (Base store) (storePath env store)) w)
              (certStore env store) (fingerprintName derBytes) registry.ALL_ACCESS sub Hc Hsub)
    as (w2 & b & E2 & L2 & C2 & K2 & O2).
  rewrite E2. simp.
  destruct (DeleteValue_any env w2 (certStore env store) (fingerprintName derBytes)
              cryptoAPIMagicName _ K2)
    as (w3 & e3 & d3 & E3 & L3 & C3 & K3 & V3 & F3 & O3).
  rewrite E3. simp. unfold certKeyOf in *.
  unfold registry.SetDWordValue.
  rewrite (setValue_refused env w3 _ _ _ _ _ e Hm). unfold log.Errorf. simp.
  split; [rewrite L3, L2; reflexivity |]. split.
  { rewrite C3, C2. simp. rewrite <- !app_assoc. reflexivity. }
  exists d3. split; [exact K3 |].
  destruct (F3 Hd) as [Hnone _]. split.
  - unfold marked. rewrite Hnone. reflexivity.
  - pose proof (f_equal (fun m => m !! "Blob") (V3 (DWORD 0))) as Hv. cbn beta in Hv.
    rewrite !lookup_insert_ne in Hv by discriminate. rewrite Hv.
    unfold entry, called. simp.
    destruct (get_key (reg w) (Handle (certStore env store) (fingerprintName derBytes)));
      [reflexivity | apply lookup_empty].
Qed.

Lemma refused_marker_leaves_key_unmarked_witness :
  let refuse_marker := fun op => match op with
                                 | OpSetDWordValue _ _ _ => Some (Errno 5)
                                 | _ => None
                                 end in
  let env := sample.env 3600 0 sample.quiet in
  let w1 := exec (injectCertCryptoAPI [x01; x02]) env (sample.world []) in
  let w2 := exec (injectCertCryptoAPI [x01; x02]) (sample.env 3600 0 refuse_marker) w1 in
  (exists d, entry w1 sample.store (fingerprintName [x01; x02]) = Some d /\ marked d = true) /\
  exists d', entry w2 sample.store (fingerprintName [x01; x02]) = Some d' /\
             marked d' = false /\
             values d' !! "Blob" = Some (BINARY (certblob.record 0x20 [x01; x02])).
Proof.
  cbv zeta. split.
  - eexists. split; vm_compute; reflexivity.
  - destruct (refused_marker_leaves_key_unmarked
                (sample.env 3600 0
                   (fun op => match op with
                              | OpSetDWordValue _ _ _ => Some (Errno 5)
                              | _ => None
                              end))
                (exec (injectCertCryptoAPI [x01; x02]) (sample.env 3600 0 sample.quiet)
                   (sample.world []))
                [x01; x02] sample.system (certblob.record 0x20 [x01; x02])
                [(fingerprintName [x01; x02],
                  mkKeyData (<["Blob" := BINARY (certblob.record 0x20 [x01; x02])]>
                               (<["Namecoin" := DWORD 1]> ∅)) 0)]
                (Errno 5) eq_refl eq_refl eq_refl)
      as (_ & _ & d' & Hd' & Hm' & Hb'); [vm_compute; reflexivity | reflexivity ..|].
    exists d'. split; [exact Hd' |]. split; [exact Hm' |].
    rewrite Hb'. vm_compute. reflexivity.
Defined.

(** [X15].  [injectCertCryptoAPI]: a failure of [SetBinaryValue].  The
    error is logged after the five calls; the key stays with the marker
    written and with the Blob it had, none if the key is new: nothing is
    undone. *)
Theorem refused_blob_leaves_marker
    (env : Env) (w : World) (derBytes : list byte)
    (store : Store) (blobBytes : list byte) (sub : SubKeys) (e : error) :
  cryptoAPINameToStore (cryptoAPIFlagPhysicalStoreName (flags env)) = Ok store ->
  certblob.Marshal {[ 0x20 := derBytes ]} = Ok blobBytes ->
  fault env (OpOpenKey (Base store) (storePath env store)) = None ->
  get_store (reg w) (certStore env store) = Some sub ->
  fault env (OpCreateKey (certStore env store) (fingerprintName derBytes)) = None ->
  fault env (OpSetDWordValue (certKeyOf env store derBytes)
               cryptoAPIMagicName cryptoAPIMagicValue) = None ->
  fault env (OpSetBinaryValue (certKeyOf env store derBytes) "Blob" blobBytes) = Some e ->
  let w' := exec (injectCertCryptoAPI derBytes) env w in
  logged w' = logged w ++ [("Couldn't set blob registry value for certificate: %s", e)] /\
  calls w' = calls w ++ inject_calls env store derBytes blobBytes /\
  exists d', entry w' (certStore env store) (fingerprintName derBytes) = Some d' /\
             marked d' = true /\
             values d' !! "Blob" =
               match entry w (certStore env store) (fingerprintName derBytes) with
               | Some d => values d !! "Blob"
               | None => None
               end.
Proof.
  intros Hs Hb Ho Hsub Hc Hm Hset. cbv zeta.
  unfold exec, injectCertCryptoAPI, Store_Key. unfold bind, ask, ret. simp.
  rewrite Hs. simp. rewrite Hb. fold (storePath env store).
  rewrite OpenKey_run. simp. rewrite Ho.
  fold (certStore env store). rewrite (key_exists_store _ _ _ Hsub). simp.
  fold (fingerprintName derBytes).
  destruct (CreateKey_ok env (called (OpOpenKey (Base store) (storePath env store)) w)
              (certStore env store) (fingerprintName derBytes) registry.ALL_ACCESS sub Hc Hsub)
    as (w2 & b & E2 & L2 & C2 & K2 & O2).
  rewrite E2. simp.
  destruct (DeleteValue_any env w2 (certStore env store) (fingerprintName derBytes)
              cryptoAPIMagicName _ K2)
    as (w3 & e3 & d3 & E3 & L3 & C3 & K3 & V3 & F3 & O3).
  rewrite E3. simp. unfold certKeyOf in *.
  unfold registry.SetDWordValue, registry.SetBinaryValue.
  destruct (setValue_ok env w3 (certStore env store) (fingerprintName derBytes)
              _ cryptoAPIMagicName (DWORD cryptoAPIMagicValue) d3 Hm K3)
    as (w4 & t4 & E4 & L4 & C4 & K4 & N4 & T4 & O4).
  rewrite E4. simp.
  rewrite (setValue_refused env w4 _ _ _ _ _ e Hset). unfold log.Errorf. simp.
  split; [rewrite L4, L3, L2; reflexivity |]. split.
  { rewrite C4, C3, C2. simp. unfold inject_calls, certKeyOf.
    rewrite <- !app_assoc. reflexivity. }
  eexists. split; [exact K4 |]. split.
  - unfold marked. cbn [values]. rewrite lookup_insert_eq. reflexivity.
  - cbn [values]. rewrite V3, lookup_insert_ne by discriminate.
    unfold entry, called. simp.
    destruct (get_key (reg w) (Handle (certStore env store) (fingerprintName derBytes)));
      [reflexivity | apply lookup_empty].
Qed.

Lemma refused_blob_leaves_marker_witness :
  let refuse_blob := fun op => match op with
                               | OpSetBinaryValue _ _ _ => Some (Errno 5)
                               | _ => None
                               end in
  let w' := exec (injectCertCryptoAPI [x01; x02]) (sample.env 3600 0 refuse_blob)
              (sample.world []) in
  logged w' = [("Couldn't set blob registry value for certificate: %s", Errno 5)] /\
  entry w' sample.store (fingerprintName [x01; x02])
  = Some (mkKeyData {[ "Namecoin" := DWORD 1 ]} 0).
Proof.
  cbv zeta. split; [| vm_compute; reflexivity].
  exact (proj1 (refused_blob_leaves_marker
                  (sample.env 3600 0
                     (fun op => match op with
                                | OpSetBinaryValue _ _ _ => Some (Errno 5)
                                | _ => None
                                end))
                  (sample.world []) [x01; x02] sample.system
                  (certblob.record 0x20 [x01; x02]) [] (Errno 5)
                  eq_refl eq_refl eq_refl eq_refl eq_refl eq_refl eq_refl)).
Defined.

(** ** From injection to expiry, in general *)

(** [X16].  [injectCertCryptoAPI] followed by [cleanCertsCryptoAPI].  A
    certificate is injected at one instant, no call refused, and the store
    is swept at another, under the same flags and with a period that is
    not negative.  While the two instants are no further apart than the
    period the sweep keeps the key, whichever calls it is refused.  Once
    they are further apart by a second or more, or by any amount when the
    period is below 2^23 seconds, a sweep that is refused no call deletes
    the key. *)
Theorem injected_key_lives_for_the_period
    (env0 env1 : Env) (w : World) (derBytes : list byte) (store : Store) (sub : SubKeys) :
  healthy env0 -> flags env1 = flags env0 ->
  cryptoAPINameToStore (cryptoAPIFlagPhysicalStoreName (flags env0)) = Ok store ->
  get_store (reg w) (certStore env0 store) = Some sub -> NoDup (map fst sub) ->
  Z.of_nat (length derBytes) < 2 ^ 32 ->
  0 <= certExpirePeriod (flags env0) ->
  let P := certExpirePeriod (flags env0) in
  let age := Z.abs (now env1 - now env0) in
  let k := certStore env0 store in
  let name := fingerprintName derBytes in
  let w1 := exec (injectCertCryptoAPI derBytes) env0 w in
  let w2 := exec cleanCertsCryptoAPI env1 w1 in
  entry w1 k name <> None /\
  (age <= P * time.Second -> entry w2 k name = entry w1 k name) /\
  (healthy env1 -> (P + 1) * time.Second <= age -> (P + 1) * time.Second <= time.maxDuration ->
   entry w2 k name = None) /\
  (healthy env1 -> P < 2 ^ 23 -> P * time.Second < age -> entry w2 k name = None).
Proof.
  intros Hh0 Hfl Hs Hsub Hnd Hlen HP. cbv zeta.
  assert (Hb : certblob.Marshal {[ 0x20 := derBytes ]} = Ok (certblob.record 0x20 derBytes)).
  { rewrite Marshal_singleton. apply Z.ltb_lt in Hlen. rewrite Hlen. reflexivity. }
  destruct (inject_run env0 w derBytes store _ sub Hs Hb (Hh0 _) Hsub (Hh0 _) (Hh0 _) (Hh0 _))
    as (_ & _ & (t & He & Ht) & _).
  rewrite (Ht (Hh0 _)) in He. clear t Ht.
  set (w1 := exec (injectCertCryptoAPI derBytes) env0 w) in *.
  set (k := certStore env0 store) in *.
  assert (Hk : certStore env1 store = k)
    by (unfold k, certStore, storePath; rewrite Hfl; reflexivity).
  match type of He with _ = Some ?x => set (d1 := x) in * end.
  assert (Hm : marked d1 = true).
  { unfold marked, d1. cbn [values].
    rewrite lookup_insert_ne by discriminate. rewrite lookup_insert_eq. reflexivity. }
  assert (Hage : Z.abs (now env1 - modTime d1) = Z.abs (now env1 - now env0)) by reflexivity.
  assert (Hsweep : healthy env1 -> verdict env1 d1 = true ->
                   entry (exec cleanCertsCryptoAPI env1 w1) k (fingerprintName derBytes) = None).
  { intros Hh1 Hv.
    destruct (inject_stores_kept env0 derBytes w k sub Hsub) as (sub1 & Hsub1 & Hnd1).
    fold w1 in Hsub1. rewrite <- Hk in Hsub1.
    destruct (clean_healthy env1 w1 store sub1 Hh1) as [_ Hc];
      [rewrite Hfl; exact Hs | exact Hsub1 | exact (Hnd1 Hnd) |].
    specialize (Hc (fingerprintName derBytes)). rewrite Hk in Hc.
    rewrite Hc, He, Hv. reflexivity. }
  split; [rewrite He; discriminate |]. split; [| split].
  - intros Hfresh.
    destruct (clean_effect env1 w1 k (fingerprintName derBytes))
      as [H | (_ & store' & d' & _ & _ & Hd' & Hv)]; [exact H | exfalso].
    rewrite He in Hd'. injection Hd' as <-.
    rewrite (verdict_fresh env1 d1) in Hv; [discriminate Hv | | ]; rewrite Hfl; [exact HP |].
    rewrite Hage. exact Hfresh.
  - intros Hh1 Hfar Hfit. apply Hsweep; [exact Hh1 |].
    apply verdict_far; rewrite ?Hfl, ?Hage; assumption.
  - intros Hh1 Hsmall Hnear. apply Hsweep; [exact Hh1 |].
    apply verdict_near; rewrite ?Hfl, ?Hage; assumption.
Qed.

Lemma injected_key_lives_for_the_period_witness :
  let hour := 3600 * sample.second in
  let cert := [x30; x03; x02; x01; x00] in
  let w1 := exec (injectCertCryptoAPI cert) (sample.env 86400 0 sample.quiet) (sample.world []) in
  entry (exec cleanCertsCryptoAPI (sample.env 86400 (24 * hour) sample.refuse_BB) w1)
    sample.store (fingerprintName cert)
  = entry w1 sample.store (fingerprintName cert) /\
  entry (exec cleanCertsCryptoAPI (sample.env 86400 (24 * hour + 1) sample.quiet) w1)
    sample.store (fingerprintName cert)
  = None.
Proof.
  cbv zeta. split.
  - refine (proj1 (proj2 (injected_key_lives_for_the_period
                            (sample.env 86400 0 sample.quiet)
                            (sample.env 86400 (24 * (3600 * sample.second)) sample.refuse_BB)
                            (sample.world []) [x30; x03; x02; x01; x00] sample.system []
                            (fun _ => eq_refl) eq_refl eq_refl eq_refl NoDup_nil_2
                            eq_refl _)) _); vm_compute; discriminate.
  - refine (proj2 (proj2 (proj2 (injected_key_lives_for_the_period
                            (sample.env 86400 0 sample.quiet)
                            (sample.env 86400 (24 * (3600 * sample.second) + 1) sample.quiet)
                            (sample.world []) [x30; x03; x02; x01; x00] sample.system []
                            (fun _ => eq_refl) eq_refl eq_refl eq_refl NoDup_nil_2
                            eq_refl _))) (fun _ => eq_refl) eq_refl eq_refl);
      vm_compute; discriminate.
Defined.
